(** * Interview simulator: the session state machine of [server.js]

    A shallow embedding of the Express handlers of [server.js] and of the
    JavaScript built-ins they rely on, followed by the properties of the
    interview session proved about them.

    Modelling conventions.
    - A JavaScript string is its sequence of UTF-16 code units.
    - A finite Number is the rational it denotes.  Conversions from text
      and the arithmetic operators round their exact result to binary64
      ([round64]: to the nearest, ties to even, to an infinity from 2^1024
      on); there is no negative zero.  [Math.random() * 5] alone is taken
      exactly.
    - [Number::toString] is computed for integers below 10^21; for every
      other finite value it is the parameter [frac_to_string].
    - A handler is a tree of interactions ([Prog]): reading the clock,
      drawing a random number, reading and writing [req.session], awaiting a
      collaborator.  [run] interprets a tree against an environment and
      returns the response, the final session and the collaborator calls.
    - A handler runs on the object [req.session] of its request.  The
      store keeps the session as JSON text: every request starts from a
      copy parsed from that text, and the session object is written back
      when the response ends and when [req.session.save] is called
      ([json_copy], [step]).  A detached weakness analysis keeps the session
      object of the request that started it.  Requests are served one at a
      time, and an analysis completes between two requests; the expiry of
      the cookie is not modelled.
    - The settings are functions of [process.env] ([Config]); the handlers
      take them as parameters. *)

From Stdlib Require Import String Ascii ZArith NArith QArith Qround Qabs Qpower.
From Stdlib Require Import Qreduction List Bool Lia Lqa.
From Stdlib Require Import DecimalPos.
Import ListNotations.

Local Open Scope Z_scope.

(** * JavaScript built-ins *)
Module JS.

(** ** Strings *)

Definition jsstring := list N.

(** The code units of an ASCII literal. *)
Definition lit (s : string) : jsstring :=
  map N_of_ascii (list_ascii_of_string s).

Definition nl : jsstring := [10%N].
Definition quote : jsstring := [34%N].

Fixpoint str_eqb (a b : jsstring) : bool :=
  match a, b with
  | [], [] => true
  | x :: a', y :: b' => N.eqb x y && str_eqb a' b'
  | _, _ => false
  end.

(** WhiteSpace and LineTerminator code points: what [trim] strips and what
    [\s] matches. *)
Definition is_ws (c : N) : bool :=
  match c with
  | 9 | 10 | 11 | 12 | 13 | 32 | 160 | 5760
  | 8192 | 8193 | 8194 | 8195 | 8196 | 8197 | 8198 | 8199 | 8200 | 8201 | 8202
  | 8232 | 8233 | 8239 | 8287 | 12288 | 65279 => true
  | _ => false
  end%N.

Fixpoint drop_ws (s : jsstring) : jsstring :=
  match s with
  | c :: r => if is_ws c then drop_ws r else s
  | [] => []
  end.

Definition trim_start (s : jsstring) : jsstring := drop_ws s.
Definition trim_end (s : jsstring) : jsstring := rev (drop_ws (rev s)).

(** [String.prototype.trim] *)
Definition trim (s : jsstring) : jsstring := trim_end (trim_start s).

(** [s.slice(0, n)] for [n >= 0] *)
Definition slice0 (n : nat) (s : jsstring) : jsstring := firstn n s.

(** [Array.prototype.join] on strings *)
Fixpoint join (sep : jsstring) (l : list jsstring) : jsstring :=
  match l with
  | [] => []
  | [x] => x
  | x :: r => x ++ sep ++ join sep r
  end.

(** [s.split(/\s+/)]: the pieces between maximal runs of white space. *)
Fixpoint split_ws_from (s : jsstring) (cur : jsstring) (in_ws : bool) : list jsstring :=
  match s with
  | [] => [rev cur]
  | c :: r =>
      if is_ws c
      then (if in_ws then split_ws_from r [] true
            else rev cur :: split_ws_from r [] true)
      else split_ws_from r (c :: cur) false
  end.

Definition split_ws (s : jsstring) : list jsstring := split_ws_from s [] false.

Definition nonempty (s : jsstring) : bool :=
  match s with [] => false | _ => true end.

(** ** Numbers *)

Inductive number : Type :=
| NaN
| PInf
| NInf
| Fin (q : Q).

Definition of_Z (z : Z) : number := Fin (inject_Z z).

Definition num_is_nan (x : number) : bool :=
  match x with NaN => true | _ => false end.

Definition num_is_finite (x : number) : bool :=
  match x with Fin _ => true | _ => false end.

(** Sign of a number that is not NaN. *)
Definition num_sign (x : number) : comparison :=
  match x with
  | NaN => Eq
  | PInf => Gt
  | NInf => Lt
  | Fin q => (q ?= 0)%Q
  end.

Definition num_neg (x : number) : number :=
  match x with
  | NaN => NaN
  | PInf => NInf
  | NInf => PInf
  | Fin q => Fin (- q)%Q
  end.

(** *** Rounding to binary64 *)

Definition pow2 (e : Z) : Q := Qpower (2 # 1) e.

(** The exponent of a positive rational: [2^e <= q < 2^(e+1)]. *)
Definition Qlog2 (q : Q) : Z :=
  if Qle_bool 1 q then Z.log2 (Qfloor q)
  else - Z.log2_up (Qceiling (/ q)).

(** The integer nearest to [x], the even one of the two at a tie. *)
Definition round_half_even (x : Q) : Z :=
  let k := Qfloor x in
  match (x - inject_Z k ?= 1 # 2)%Q with
  | Lt => k
  | Eq => if Z.even k then k else k + 1
  | Gt => k + 1
  end.

(** The multiple of [2^p] nearest to [q]. *)
Definition round_to_multiple (p : Z) (q : Q) : Q :=
  (inject_Z (round_half_even (q / pow2 p)) * pow2 p)%Q.

(** The spacing of the Numbers around a positive [q]: 53 significant bits,
    and no finer than the subnormal spacing [2^-1074]. *)
Definition quantum (q : Q) : Z := Z.max (Qlog2 q - 52) (-1074).

Definition round_positive (q : Q) : number :=
  let r := round_to_multiple (quantum q) q in
  if Qle_bool (pow2 1024) r then PInf else Fin (Qred r).

(** The Number that a real number denotes (roundTiesToEven). *)
Definition round64 (q : Q) : number :=
  match (Qred q ?= 0)%Q with
  | Eq => Fin 0
  | Gt => round_positive (Qred q)
  | Lt => num_neg (round_positive (- Qred q))
  end.

(** *** Operators *)

Definition num_add (x y : number) : number :=
  match x, y with
  | NaN, _ | _, NaN => NaN
  | PInf, NInf | NInf, PInf => NaN
  | PInf, _ | _, PInf => PInf
  | NInf, _ | _, NInf => NInf
  | Fin a, Fin b => round64 (a + b)
  end.

Definition num_sub (x y : number) : number := num_add x (num_neg y).

Definition inf_of_sign (c : comparison) : number :=
  match c with Gt => PInf | Lt => NInf | Eq => NaN end.

Definition num_mul (x y : number) : number :=
  match x, y with
  | NaN, _ | _, NaN => NaN
  | Fin a, Fin b => round64 (a * b)
  | _, _ =>
      match num_sign x, num_sign y with
      | Eq, _ | _, Eq => NaN
      | Gt, Gt | Lt, Lt => PInf
      | _, _ => NInf
      end
  end.

Definition num_div (x y : number) : number :=
  match x, y with
  | NaN, _ | _, NaN => NaN
  | Fin a, Fin b =>
      if Qeq_bool b 0 then inf_of_sign (num_sign x) else round64 (a / b)
  | Fin _, _ => Fin 0
  | _, Fin _ =>
      match num_sign x, num_sign y with
      | Gt, Lt | Lt, Gt | Lt, Eq => NInf
      | _, _ => PInf
      end
  | _, _ => NaN
  end.

(** [Math.floor] *)
Definition num_floor (x : number) : number :=
  match x with
  | Fin q => of_Z (Qfloor q)
  | _ => x
  end.

(** The relational comparison [x < y]; [None] is the undefined result that
    a NaN operand gives. *)
Definition num_lt (x y : number) : option bool :=
  match x, y with
  | NaN, _ | _, NaN => None
  | PInf, _ => Some false
  | _, PInf => Some true
  | _, NInf => Some false
  | NInf, _ => Some true
  | Fin a, Fin b => Some (negb (Qle_bool b a))
  end.

(** [x < y], [x > y], [x <= y], [x >= y] as the operators evaluate them. *)
Definition num_ltb (x y : number) : bool :=
  match num_lt x y with Some b => b | None => false end.
Definition num_gtb (x y : number) : bool := num_ltb y x.
Definition num_leb (x y : number) : bool :=
  match num_lt y x with Some b => negb b | None => false end.
Definition num_geb (x y : number) : bool :=
  match num_lt x y with Some b => negb b | None => false end.

(** [Math.max] of two arguments *)
Definition num_max (x y : number) : number :=
  match num_lt x y with
  | None => NaN
  | Some true => y
  | Some false => x
  end.

(** ** Digits *)

Definition digit_of (radix : N) (c : N) : option N :=
  let v :=
    if (48 <=? c)%N && (c <=? 57)%N then Some (c - 48)%N
    else if (97 <=? c)%N && (c <=? 122)%N then Some (c - 87)%N
    else if (65 <=? c)%N && (c <=? 90)%N then Some (c - 55)%N
    else None in
  match v with
  | Some d => if (d <? radix)%N then Some d else None
  | None => None
  end.

(** The longest prefix of digits, most significant first, and what follows. *)
Fixpoint span_digits (radix : N) (s : jsstring) : list N * jsstring :=
  match s with
  | c :: r =>
      match digit_of radix c with
      | Some d => let (ds, rest) := span_digits radix r in (d :: ds, rest)
      | None => ([], s)
      end
  | [] => ([], [])
  end.

Definition digit_step (radix : N) (acc : Z) (d : N) : Z :=
  acc * Z.of_N radix + Z.of_N d.

Definition digits_value (radix : N) (ds : list N) : Z :=
  fold_left (digit_step radix) ds 0.

(** [parseInt(s, 10)] on a string: the Number nearest to the integer that
    the digits spell. *)
Definition parse_int_string (s : jsstring) : number :=
  let s1 := trim_start s in
  let '(negative, s2) :=
    match s1 with
    | 45%N :: r => (true, r)
    | 43%N :: r => (false, r)
    | _ => (false, s1)
    end in
  match span_digits 10 s2 with
  | ([], _) => NaN
  | (ds, _) =>
      let m := digits_value 10 ds in
      round64 (inject_Z (if negative then - m else m))
  end.

(** Decimal digits of a number notation, as code units. *)
Fixpoint codes_of_uint (u : Decimal.uint) : jsstring :=
  match u with
  | Decimal.Nil => []
  | Decimal.D0 u' => 48%N :: codes_of_uint u'
  | Decimal.D1 u' => 49%N :: codes_of_uint u'
  | Decimal.D2 u' => 50%N :: codes_of_uint u'
  | Decimal.D3 u' => 51%N :: codes_of_uint u'
  | Decimal.D4 u' => 52%N :: codes_of_uint u'
  | Decimal.D5 u' => 53%N :: codes_of_uint u'
  | Decimal.D6 u' => 54%N :: codes_of_uint u'
  | Decimal.D7 u' => 55%N :: codes_of_uint u'
  | Decimal.D8 u' => 56%N :: codes_of_uint u'
  | Decimal.D9 u' => 57%N :: codes_of_uint u'
  end.

(** [Number::toString] of an integer in decimal notation. *)
Definition int_to_string (z : Z) : jsstring :=
  match z with
  | Z0 => [48%N]
  | Zpos p => codes_of_uint (Pos.to_uint p)
  | Zneg p => 45%N :: codes_of_uint (Pos.to_uint p)
  end.

(** ** StringToNumber *)

Definition pow10 (e : Z) : Q := Qpower (10 # 1) e.

(** The value of [ip.fp] times ten to the [e]. *)
Definition decimal_value (ip fp : list N) (e : Z) : Q :=
  (inject_Z (digits_value 10 (ip ++ fp)) * pow10 (e - Z.of_nat (length fp)))%Q.

(** An ExponentPart, or nothing, up to the end of the text. *)
Definition parse_exponent (s : jsstring) : option Z :=
  match s with
  | [] => Some 0
  | c :: r =>
      if N.eqb c 101 || N.eqb c 69 then
        let '(negative, r1) :=
          match r with
          | 45%N :: r' => (true, r')
          | 43%N :: r' => (false, r')
          | _ => (false, r)
          end in
        match span_digits 10 r1 with
        | ([], _) => None
        | (ds, []) =>
            let e := digits_value 10 ds in
            Some (if negative then - e else e)
        | (_, _ :: _) => None
        end
      else None
  end.

(** StrUnsignedDecimalLiteral *)
Definition parse_unsigned_decimal (s : jsstring) : option number :=
  if str_eqb s (lit "Infinity") then Some PInf
  else
    let (ip, r1) := span_digits 10 s in
    let '(fp, r2) :=
      match r1 with
      | 46%N :: r => span_digits 10 r
      | _ => ([], r1)
      end in
    match ip, fp with
    | [], [] => None
    | _, _ =>
        match parse_exponent r2 with
        | Some e => Some (round64 (decimal_value ip fp e))
        | None => None
        end
    end.

(** [0x], [0o] and [0b] literals *)
Definition parse_non_decimal (s : jsstring) : option number :=
  match s with
  | 48%N :: p :: r =>
      let radix :=
        if N.eqb p 120 || N.eqb p 88 then Some 16%N
        else if N.eqb p 111 || N.eqb p 79 then Some 8%N
        else if N.eqb p 98 || N.eqb p 66 then Some 2%N
        else None in
      match radix with
      | Some b =>
          match span_digits b r with
          | ([], _) => None
          | (ds, []) => Some (round64 (inject_Z (digits_value b ds)))
          | (_, _ :: _) => None
          end
      | None => None
      end
  | _ => None
  end.

(** StringToNumber: the Number a string converts to. *)
Definition string_to_number (s : jsstring) : number :=
  match trim s with
  | [] => Fin 0
  | t =>
      match parse_non_decimal t with
      | Some x => x
      | None =>
          let r :=
            match t with
            | 45%N :: u => option_map num_neg (parse_unsigned_decimal u)
            | 43%N :: u => parse_unsigned_decimal u
            | _ => parse_unsigned_decimal t
            end in
          match r with Some x => x | None => NaN end
      end
  end.

(** ** Values *)

(** The values a JSON text denotes, and [undefined]. *)
#[warnings="-register-all"]
Inductive value : Type :=
| VUndefined
| VNull
| VBool (b : bool)
| VNumber (x : number)
| VString (s : jsstring)
| VArray (items : list value)
| VObject (fields : list (jsstring * value)).

(** ToBoolean *)
Definition truthy (v : value) : bool :=
  match v with
  | VUndefined | VNull => false
  | VBool b => b
  | VNumber NaN => false
  | VNumber (Fin q) => negb (Qeq_bool q 0)
  | VNumber _ => true
  | VString s => nonempty s
  | VArray _ | VObject _ => true
  end.

Definition nullish (v : value) : bool :=
  match v with
  | VUndefined | VNull => true
  | _ => false
  end.

(** [a || b] and [a ?? b] on values *)
Definition or_else (a b : value) : value := if truthy a then a else b.
Definition coalesce (a b : value) : value := if nullish a then b else a.

Fixpoint has_key (k : jsstring) (fields : list (jsstring * value)) : bool :=
  match fields with
  | [] => false
  | (k', _) :: r => str_eqb k k' || has_key k r
  end.

(** The own property [k] of an object built by [JSON.parse]: of the members
    with that name the last one wins. *)
Fixpoint lookup (k : jsstring) (fields : list (jsstring * value)) : option value :=
  match fields with
  | [] => None
  | (k', v) :: r =>
      match lookup k r with
      | Some w => Some w
      | None => if str_eqb k k' then Some v else None
      end
  end.

(** [o.k] for a name [k] that [Object.prototype] does not define. *)
Definition get_prop (o : value) (k : jsstring) : value :=
  match o with
  | VObject fields =>
      match lookup k fields with Some v => v | None => VUndefined end
  | _ => VUndefined
  end.

(** [a === b] for two values that are not one and the same array or
    object.  Two numbers compare by value and NaN differs from itself; an
    array or an object equals no other. *)
Definition strict_equal (a b : value) : bool :=
  match a, b with
  | VUndefined, VUndefined => true
  | VNull, VNull => true
  | VBool x, VBool y => Bool.eqb x y
  | VNumber (Fin x), VNumber (Fin y) => Qeq_bool x y
  | VNumber PInf, VNumber PInf => true
  | VNumber NInf, VNumber NInf => true
  | VString x, VString y => str_eqb x y
  | _, _ => false
  end.

(** [a === a]: a value compared with itself. *)
Definition identical (a : value) : bool :=
  match a with
  | VNumber NaN => false
  | _ => true
  end.

(** ** [JSON.parse] *)

Fixpoint skip_json_ws (s : jsstring) : jsstring :=
  match s with
  | c :: r =>
      if N.eqb c 32 || N.eqb c 9 || N.eqb c 10 || N.eqb c 13
      then skip_json_ws r else s
  | [] => []
  end.

(** The characters of a string after its opening quote, and what follows
    the closing quote. *)
Fixpoint parse_json_chars (s : jsstring) : option (jsstring * jsstring) :=
  let cons_to c r :=
    match parse_json_chars r with
    | Some (cs, rest) => Some (c :: cs, rest)
    | None => None
    end in
  match s with
  | [] => None
  | 34%N :: r => Some ([], r)
  | 92%N :: e :: r =>
      match e with
      | 34%N => cons_to 34%N r
      | 92%N => cons_to 92%N r
      | 47%N => cons_to 47%N r
      | 98%N => cons_to 8%N r
      | 102%N => cons_to 12%N r
      | 110%N => cons_to 10%N r
      | 114%N => cons_to 13%N r
      | 116%N => cons_to 9%N r
      | 117%N =>
          match r with
          | h1 :: h2 :: h3 :: h4 :: r' =>
              match digit_of 16 h1, digit_of 16 h2, digit_of 16 h3, digit_of 16 h4 with
              | Some a, Some b, Some c, Some d =>
                  cons_to (((a * 16 + b) * 16 + c) * 16 + d)%N r'
              | _, _, _, _ => None
              end
          | _ => None
          end
      | _ => None
      end
  | c :: r => if (c <? 32)%N then None else cons_to c r
  end.

(** A JSON number: [-? int frac? exp?] where [int] has no leading zero. *)
Definition parse_json_number (s : jsstring) : option (number * jsstring) :=
  let '(negative, s1) :=
    match s with
    | 45%N :: r => (true, r)
    | _ => (false, s)
    end in
  let (ip, r1) := span_digits 10 s1 in
  let int_ok :=
    match ip with
    | [] => false
    | [_] => true
    | d :: _ => negb (N.eqb d 0)
    end in
  if negb int_ok then None
  else
    let frac :=
      match r1 with
      | 46%N :: r =>
          match span_digits 10 r with
          | ([], _) => None
          | (fp, r2) => Some (fp, r2)
          end
      | _ => Some ([], r1)
      end in
    match frac with
    | None => None
    | Some (fp, r2) =>
        let expo :=
          match r2 with
          | c :: r =>
              if N.eqb c 101 || N.eqb c 69 then
                let '(eneg, r3) :=
                  match r with
                  | 45%N :: r' => (true, r')
                  | 43%N :: r' => (false, r')
                  | _ => (false, r)
                  end in
                match span_digits 10 r3 with
                | ([], _) => None
                | (ds, r4) =>
                    let e := digits_value 10 ds in
                    Some (if eneg then - e else e, r4)
                end
              else Some (0, r2)
          | [] => Some (0, r2)
          end in
        match expo with
        | None => None
        | Some (e, rest) =>
            let x := round64 (decimal_value ip fp e) in
            Some (if negative then num_neg x else x, rest)
        end
    end.

(** A JSON value at the head of [s], and what follows it. *)
Fixpoint parse_json_value (fuel : nat) (s : jsstring) : option (value * jsstring) :=
  match fuel with
  | O => None
  | S f =>
      match skip_json_ws s with
      | 123%N :: r =>
          match skip_json_ws r with
          | 125%N :: r' => Some (VObject [], r')
          | r' => parse_json_members f r' []
          end
      | 91%N :: r =>
          match skip_json_ws r with
          | 93%N :: r' => Some (VArray [], r')
          | r' => parse_json_elements f r' []
          end
      | 34%N :: r =>
          match parse_json_chars r with
          | Some (cs, rest) => Some (VString cs, rest)
          | None => None
          end
      | 116%N :: 114%N :: 117%N :: 101%N :: r => Some (VBool true, r)
      | 102%N :: 97%N :: 108%N :: 115%N :: 101%N :: r => Some (VBool false, r)
      | 110%N :: 117%N :: 108%N :: 108%N :: r => Some (VNull, r)
      | t =>
          match parse_json_number t with
          | Some (x, rest) => Some (VNumber x, rest)
          | None => None
          end
      end
  end
with parse_json_elements (fuel : nat) (s : jsstring) (acc : list value)
  : option (value * jsstring) :=
  match fuel with
  | O => None
  | S f =>
      match parse_json_value f s with
      | Some (v, r) =>
          match skip_json_ws r with
          | 44%N :: r' => parse_json_elements f r' (v :: acc)
          | 93%N :: r' => Some (VArray (rev (v :: acc)), r')
          | _ => None
          end
      | None => None
      end
  end
with parse_json_members (fuel : nat) (s : jsstring) (acc : list (jsstring * value))
  : option (value * jsstring) :=
  match fuel with
  | O => None
  | S f =>
      match skip_json_ws s with
      | 34%N :: r =>
          match parse_json_chars r with
          | Some (k, r1) =>
              match skip_json_ws r1 with
              | 58%N :: r2 =>
                  match parse_json_value f r2 with
                  | Some (v, r3) =>
                      match skip_json_ws r3 with
                      | 44%N :: r4 => parse_json_members f r4 ((k, v) :: acc)
                      | 125%N :: r4 => Some (VObject (rev ((k, v) :: acc)), r4)
                      | _ => None
                      end
                  | None => None
                  end
              | _ => None
              end
          | None => None
          end
      | _ => None
      end
  end.

(** [JSON.parse(text)]; [None] when it raises a SyntaxError. *)
Definition json_parse (text : jsstring) : option value :=
  match parse_json_value (2 + List.length text) text with
  | Some (v, rest) =>
      match skip_json_ws rest with
      | [] => Some v
      | _ :: _ => None
      end
  | None => None
  end.

(** ** The match of [/\{[\s\S]*\}/] *)

(** The prefix of [s] that ends at its last closing brace. *)
Fixpoint upto_last_close (s : jsstring) : option jsstring :=
  match s with
  | [] => None
  | c :: r =>
      match upto_last_close r with
      | Some p => Some (c :: p)
      | None => if N.eqb c 125 then Some [c] else None
      end
  end.

(** [str.match(/\{[\s\S]*\}/)]: from the first opening brace to the last
    closing brace after it. *)
Fixpoint match_braces (s : jsstring) : option jsstring :=
  match s with
  | [] => None
  | c :: r =>
      if N.eqb c 123 then
        match upto_last_close r with
        | Some p => Some (c :: p)
        | None => None
        end
      else match_braces r
  end.

(** ** [JSON.stringify] and back *)

(** What the text of [JSON.stringify(v)] parses to.  NaN and the infinities
    are printed as null, and so is an undefined element of an array; an
    undefined member of an object is left out.  [undefined] itself has no
    text: a property that holds it is left out and reads as undefined
    again. *)
Fixpoint json_value (v : value) : value :=
  match v with
  | VNumber x => if num_is_finite x then v else VNull
  | VArray items =>
      VArray (map (fun x => match json_value x with
                            | VUndefined => VNull
                            | w => w
                            end) items)
  | VObject fields =>
      VObject
        ((fix members (l : list (jsstring * value)) : list (jsstring * value) :=
            match l with
            | [] => []
            | (k, x) :: r =>
                match json_value x with
                | VUndefined => members r
                | w => (k, w) :: members r
                end
            end) fields)
  | _ => v
  end.

End JS.

Import JS.

(** * The configuration *)

(** Lines 10 to 27 and 373 of [server.js]: the settings read from
    [process.env], the two checks that end the process, and the port the
    server listens on. *)
Module Config.

(** [process.env]: the text of a variable, when it is set. *)
Definition environment : Type := jsstring -> option jsstring.

(** [process.env.NAME || fallback] *)
Definition or_default (v : option jsstring) (fallback : jsstring) : jsstring :=
  match v with
  | Some (c :: r) => c :: r
  | _ => fallback
  end.

(** [!process.env.NAME] *)
Definition missing (v : option jsstring) : bool :=
  match v with
  | Some (_ :: _) => false
  | _ => true
  end.

(** [Number(process.env.NAME)]: an unset variable is undefined, which
    converts to NaN. *)
Definition Number (v : option jsstring) : number :=
  match v with
  | Some s => string_to_number s
  | None => NaN
  end.

(** [Number(process.env.PORT) || 3000] *)
Definition PORT (env : environment) : number :=
  let x := Number (env (lit "PORT")) in
  if truthy (VNumber x) then x else of_Z 3000.

Definition OPENAI_MODEL (env : environment) : jsstring :=
  or_default (env (lit "OPENAI_MODEL")) (lit "gpt-4o-mini").

Definition OPENAI_TTS_MODEL (env : environment) : jsstring :=
  or_default (env (lit "OPENAI_TTS_MODEL")) (lit "gpt-4o-mini-tts").

Definition OPENAI_TTS_VOICE (env : environment) : jsstring :=
  or_default (env (lit "OPENAI_TTS_VOICE")) (lit "coral").

(** [Number(process.env.OPENAI_TTS_SPEED || '1.0')] *)
Definition OPENAI_TTS_SPEED (env : environment) : number :=
  string_to_number (or_default (env (lit "OPENAI_TTS_SPEED")) (lit "1.0")).

(** How the script ends: [process.exit(code)] after an error message, or
    [app.listen(PORT)]. *)
Inductive startup : Type :=
| Exit (code : Z) (message : jsstring)
| Listen (port : number).

Definition main (env : environment) : startup :=
  if missing (env (lit "SESSION_SECRET"))
  then Exit 1 (lit "ERROR: SESSION_SECRET missing in .env")
  else if missing (env (lit "OPENAI_API_KEY"))
  then Exit 1 (lit "ERROR: OPENAI_API_KEY missing in .env")
  else Listen (PORT env).

(** An environment given as a list of assignments; the first assignment of
    a name is the one read. *)
Fixpoint assigned (l : list (jsstring * jsstring)) : environment :=
  fun name =>
    match l with
    | [] => None
    | (k, v) :: r => if str_eqb name k then Some v else assigned r name
    end.

End Config.

(** * The server *)

Section Interview.

(** Two built-ins taken as parameters: [Number::toString] of a finite value
    that is not an integer below 10^21, and [JSON.stringify]. *)
Variable frac_to_string : Q -> jsstring.
Variable JSON_stringify : value -> jsstring.

(** The configuration read from the process environment. *)
Variable OPENAI_MODEL : jsstring.
Variable OPENAI_TTS_MODEL : jsstring.
Variable OPENAI_TTS_VOICE : jsstring.
Variable OPENAI_TTS_SPEED : number.

(** ** Conversions *)

Definition is_integer (q : Q) : bool :=
  Z.eqb (Qnum q mod Zpos (Qden q)) 0.

(** ToString of a Number *)
Definition number_to_string (x : number) : jsstring :=
  match x with
  | NaN => lit "NaN"
  | PInf => lit "Infinity"
  | NInf => lit "-Infinity"
  | Fin q =>
      if is_integer q && Qle_bool (Qabs q) (inject_Z (10 ^ 21 - 1))
      then int_to_string (Qfloor q)
      else frac_to_string q
  end.

(** ToString; [None] when it raises a TypeError.  An object built by
    [JSON.parse] converts to ["[object Object]"] unless it has a member named
    [toString], which hides the method it would inherit; an array joins its
    elements, null and undefined ones as the empty string. *)
Fixpoint to_string (v : value) : option jsstring :=
  match v with
  | VUndefined => Some (lit "undefined")
  | VNull => Some (lit "null")
  | VBool true => Some (lit "true")
  | VBool false => Some (lit "false")
  | VNumber x => Some (number_to_string x)
  | VString s => Some s
  | VArray items =>
      let parts :=
        (fix elems (l : list value) : option (list jsstring) :=
           match l with
           | [] => Some []
           | x :: r =>
               match (if nullish x then Some [] else to_string x), elems r with
               | Some a, Some b => Some (a :: b)
               | _, _ => None
               end
           end) items in
      match parts with
      | Some l => Some (join (lit ",") l)
      | None => None
      end
  | VObject fields =>
      if has_key (lit "toString") fields then None
      else Some (lit "[object Object]")
  end.

(** ToNumber; an array or object goes through its string. *)
Definition to_number (v : value) : option number :=
  match v with
  | VUndefined => Some NaN
  | VNull => Some (Fin 0)
  | VBool true => Some (Fin 1)
  | VBool false => Some (Fin 0)
  | VNumber x => Some x
  | VString s => Some (string_to_number s)
  | VArray _ | VObject _ => option_map string_to_number (to_string v)
  end.

(** [parseInt(v, 10)] *)
Definition parse_int (v : value) : option number :=
  option_map parse_int_string (to_string v).

(** ** Session state *)

Record profile_t : Type := { type : value; resume : value }.

Record item : Type := {
  question : value;
  answer : jsstring;
  weakness : jsstring;
  askedAt : option Z;
  answeredAt : Z;
  source : jsstring
}.

(** A property that is assigned Numbers: never assigned, null (what the
    store keeps of NaN and of the infinities), or a Number. *)
Inductive number_property : Type :=
| Unset
| Null
| Num (x : number).

(** [req.session]; [None], [Unset] and [VUndefined] stand for a property
    that was never assigned, and for [current_question_started_at] also for
    null. *)
Record session : Type := {
  profile : option profile_t;
  duration_seconds : number_property;
  start_time : option Z;
  personality : option jsstring;
  history : option (list item);
  current_question : value;
  current_question_started_at : option Z
}.

Definition empty_session : session :=
  {| profile := None; duration_seconds := Unset; start_time := None;
     personality := None; history := None; current_question := VUndefined;
     current_question_started_at := None |}.

Definition set_profile (p : profile_t) (s : session) : session :=
  {| profile := Some p; duration_seconds := duration_seconds s;
     start_time := start_time s; personality := personality s;
     history := history s; current_question := current_question s;
     current_question_started_at := current_question_started_at s |}.

Definition set_duration_seconds (d : number) (s : session) : session :=
  {| profile := profile s; duration_seconds := Num d;
     start_time := start_time s; personality := personality s;
     history := history s; current_question := current_question s;
     current_question_started_at := current_question_started_at s |}.

Definition set_start_time (t : Z) (s : session) : session :=
  {| profile := profile s; duration_seconds := duration_seconds s;
     start_time := Some t; personality := personality s;
     history := history s; current_question := current_question s;
     current_question_started_at := current_question_started_at s |}.

Definition set_personality (p : option jsstring) (s : session) : session :=
  {| profile := profile s; duration_seconds := duration_seconds s;
     start_time := start_time s; personality := p;
     history := history s; current_question := current_question s;
     current_question_started_at := current_question_started_at s |}.

Definition set_history (h : list item) (s : session) : session :=
  {| profile := profile s; duration_seconds := duration_seconds s;
     start_time := start_time s; personality := personality s;
     history := Some h; current_question := current_question s;
     current_question_started_at := current_question_started_at s |}.

Definition set_current_question (q : value) (s : session) : session :=
  {| profile := profile s; duration_seconds := duration_seconds s;
     start_time := start_time s; personality := personality s;
     history := history s; current_question := q;
     current_question_started_at := current_question_started_at s |}.

Definition set_current_question_started_at (t : option Z) (s : session) : session :=
  {| profile := profile s; duration_seconds := duration_seconds s;
     start_time := start_time s; personality := personality s;
     history := history s; current_question := current_question s;
     current_question_started_at := t |}.

(** A property read in arithmetic: undefined converts to NaN and null
    to 0. *)
Definition field_number (o : number_property) : number :=
  match o with
  | Unset => NaN
  | Null => Fin 0
  | Num x => x
  end.

Definition time_number (o : option Z) : number :=
  match o with
  | Some t => of_Z t
  | None => NaN
  end.

(** [start_time + duration_seconds * 1000] *)
Definition end_time (s : session) : number :=
  num_add (time_number (start_time s))
          (num_mul (field_number (duration_seconds s)) (of_Z 1000)).

(** *** The session in the store *)

Definition json_profile (p : profile_t) : profile_t :=
  {| type := json_value (type p); resume := json_value (resume p) |}.

Definition json_item (it : item) : item :=
  {| question := json_value (question it); answer := answer it;
     weakness := weakness it; askedAt := askedAt it;
     answeredAt := answeredAt it; source := source it |}.

Definition json_number (o : number_property) : number_property :=
  match o with
  | Num x => if num_is_finite x then o else Null
  | _ => o
  end.

(** The session that the store gives back: the session object printed by
    [JSON.stringify] and parsed again. *)
Definition json_copy (s : session) : session :=
  {| profile := option_map json_profile (profile s);
     duration_seconds := json_number (duration_seconds s);
     start_time := start_time s;
     personality := personality s;
     history := option_map (map json_item) (history s);
     current_question := json_value (current_question s);
     current_question_started_at := current_question_started_at s |}.

(** ** Collaborators and responses *)

Inductive role_t : Type := system | user.

Record message : Type := { role : role_t; content : jsstring }.

Record chat_request : Type := {
  model : jsstring;
  messages : list message;
  temperature : Q
}.

(** What awaiting a completion gives: the text of the first choice, or an
    exception (the call is rejected, or the reply carries no text and
    reading it raises). *)
Inductive chat_reply : Type :=
| Content (c : jsstring)
| ChatFailed.

Record speech_request : Type := {
  tts_model : jsstring;
  voice : jsstring;
  input : jsstring;
  instructions : jsstring;
  speed : number;
  response_format : jsstring
}.

Inductive speech_reply : Type :=
| Audio (bytes : list N)
| SpeechFailed.

Inductive call : Type :=
| ChatCall (req : chat_request)
| SpeechCall (req : speech_request).

Inductive body : Type :=
| Error (error : jsstring)
| Success
| Question (q : value)
| EndSignal
| TimeUp (time_up : bool)
| Transcript (p : profile_t) (pers : option jsstring) (startedAt : option Z)
             (durationSeconds : number_property) (h : list item)
| Result (status confidence reason : value) (h : list item)
| Mp3 (bytes : list N).

Record response : Type := { status : Z; payload : body }.

Definition respond (code : Z) (b : body) : response :=
  {| status := code; payload := b |}.

(** ** Handlers as interaction trees *)

Inductive Prog (A : Type) : Type :=
| Ret (a : A)
| Throw
| DateNow (k : Z -> Prog A)
| MathRandom (k : Q -> Prog A)
| GetSession (k : session -> Prog A)
| SetSession (s : session) (k : Prog A)
| ChatCreate (req : chat_request) (k : chat_reply -> Prog A)
| SpeechCreate (req : speech_request) (k : speech_reply -> Prog A)
| Detach (it : item) (k : Prog A)
| SaveSession (k : Prog A).

#[global] Arguments Ret {A} a.
#[global] Arguments Throw {A}.
#[global] Arguments DateNow {A} k.
#[global] Arguments MathRandom {A} k.
#[global] Arguments GetSession {A} k.
#[global] Arguments SetSession {A} s k.
#[global] Arguments ChatCreate {A} req k.
#[global] Arguments SpeechCreate {A} req k.
#[global] Arguments Detach {A} it k.
#[global] Arguments SaveSession {A} k.

Fixpoint bind {A B : Type} (p : Prog A) (f : A -> Prog B) : Prog B :=
  match p with
  | Ret a => f a
  | Throw => Throw
  | DateNow k => DateNow (fun t => bind (k t) f)
  | MathRandom k => MathRandom (fun r => bind (k r) f)
  | GetSession k => GetSession (fun s => bind (k s) f)
  | SetSession s k => SetSession s (bind k f)
  | ChatCreate req k => ChatCreate req (fun r => bind (k r) f)
  | SpeechCreate req k => SpeechCreate req (fun r => bind (k r) f)
  | Detach it k => Detach it (bind k f)
  | SaveSession k => SaveSession (bind k f)
  end.

(** [try { p } catch { h }] *)
Fixpoint try_catch {A : Type} (p : Prog A) (h : Prog A) : Prog A :=
  match p with
  | Ret a => Ret a
  | Throw => h
  | DateNow k => DateNow (fun t => try_catch (k t) h)
  | MathRandom k => MathRandom (fun r => try_catch (k r) h)
  | GetSession k => GetSession (fun s => try_catch (k s) h)
  | SetSession s k => SetSession s (try_catch k h)
  | ChatCreate req k => ChatCreate req (fun r => try_catch (k r) h)
  | SpeechCreate req k => SpeechCreate req (fun r => try_catch (k r) h)
  | Detach it k => Detach it (try_catch k h)
  | SaveSession k => SaveSession (try_catch k h)
  end.

Notation "x <- p ;; q" := (bind p (fun x => q))
  (at level 61, p at next level, right associativity).
Notation "p ;;; q" := (bind p (fun _ => q))
  (at level 61, right associativity).

(** A conversion that may raise. *)
Definition lift {A : Type} (o : option A) : Prog A :=
  match o with Some a => Ret a | None => Throw end.

Definition date_now : Prog Z := DateNow Ret.
Definition math_random : Prog Q := MathRandom Ret.
Definition get_session : Prog session := GetSession Ret.
Definition modify (f : session -> session) : Prog unit :=
  GetSession (fun s => SetSession (f s) (Ret tt)).

(** [req.session.save(() => {})] *)
Definition save_session : Prog unit := SaveSession (Ret tt).

(** [await openai.chat.completions.create(req)] followed by reading
    [resp.choices[0].message.content] *)
Definition chat_create (req : chat_request) : Prog jsstring :=
  ChatCreate req (fun r =>
    match r with Content c => Ret c | ChatFailed => Throw end).

(** [await openai.audio.speech.create(req)] and [mp3.arrayBuffer()] *)
Definition speech_create (req : speech_request) : Prog (list N) :=
  SpeechCreate req (fun r =>
    match r with Audio b => Ret b | SpeechFailed => Throw end).

(** ** Running a handler *)

(** What the outside world answers at the [n]-th interaction. *)
Record env : Type := {
  clock : nat -> Z;
  random : nat -> Q;
  chat : nat -> chat_request -> chat_reply;
  speech : nat -> speech_request -> speech_reply
}.

(** [outcome] is [None] when an exception leaves the handler; [final] is
    the session object when it ends, [detached] the items whose analysis it
    started, [saved] the session as it was at each call of
    [req.session.save]. *)
Record result (A : Type) : Type := {
  outcome : option A;
  final : session;
  calls : list call;
  detached : list item;
  saved : list session;
  ticks : nat
}.

#[global] Arguments outcome {A} r.
#[global] Arguments final {A} r.
#[global] Arguments calls {A} r.
#[global] Arguments detached {A} r.
#[global] Arguments saved {A} r.
#[global] Arguments ticks {A} r.

Definition add_call {A : Type} (c : call) (r : result A) : result A :=
  {| outcome := outcome r; final := final r; calls := c :: calls r;
     detached := detached r; saved := saved r; ticks := ticks r |}.

Definition add_detached {A : Type} (it : item) (r : result A) : result A :=
  {| outcome := outcome r; final := final r; calls := calls r;
     detached := it :: detached r; saved := saved r; ticks := ticks r |}.

Definition add_saved {A : Type} (s : session) (r : result A) : result A :=
  {| outcome := outcome r; final := final r; calls := calls r;
     detached := detached r; saved := s :: saved r; ticks := ticks r |}.

Fixpoint run {A : Type} (p : Prog A) (e : env) (n : nat) (s : session) : result A :=
  match p with
  | Ret a =>
      {| outcome := Some a; final := s; calls := []; detached := [];
         saved := []; ticks := n |}
  | Throw =>
      {| outcome := None; final := s; calls := []; detached := [];
         saved := []; ticks := n |}
  | DateNow k => run (k (clock e n)) e (S n) s
  | MathRandom k => run (k (random e n)) e (S n) s
  | GetSession k => run (k s) e n s
  | SetSession s' k => run k e n s'
  | ChatCreate req k => add_call (ChatCall req) (run (k (chat e n req)) e (S n) s)
  | SpeechCreate req k => add_call (SpeechCall req) (run (k (speech e n req)) e (S n) s)
  | Detach it k => add_detached it (run k e n s)
  | SaveSession k => add_saved s (run k e n s)
  end.

(** ** [server.js] *)

Definition PERSONALITIES : list jsstring :=
  [ lit "stern and no-nonsense";
    lit "friendly but probing";
    lit "dryly sarcastic";
    lit "warm and encouraging";
    lit "highly critical" ].

(** [PERSONALITIES[Math.floor(Math.random() * PERSONALITIES.length)]] *)
Definition getRandomPersonality : Prog (option jsstring) :=
  r <- math_random ;;
  let idx := Qfloor (r * inject_Z (Z.of_nat (List.length PERSONALITIES)))%Q in
  Ret (if idx <? 0 then None else nth_error PERSONALITIES (Z.to_nat idx)).

Definition extractJson (str : jsstring) : value :=
  match match_braces str with
  | None => VObject []
  | Some m =>
      match json_parse m with
      | Some v => v
      | None => VObject []
      end
  end.

(** [String(s || '').trim().split(/\s+/).filter(Boolean).length] *)
Definition wordsCount (s : value) : option nat :=
  match to_string (or_else s (VString [])) with
  | Some t => Some (List.length (filter nonempty (split_ws (trim t))))
  | None => None
  end.

Definition secondsLeft : Prog number :=
  s <- get_session ;;
  let endTime := end_time s in
  now <- date_now ;;
  Ret (num_max (of_Z 0)
         (num_floor (num_div (num_sub endTime (of_Z now)) (of_Z 1000)))).

(** [`Q: ${h.question}\nA: ${h.answer}\nWeakness: ${h.weakness || 'Analyzing...'}`] *)
Definition format_item (h : item) : option jsstring :=
  match to_string (question h) with
  | Some q =>
      Some (lit "Q: " ++ q ++ nl ++ lit "A: " ++ answer h ++ nl ++
            lit "Weakness: " ++
            (if nonempty (weakness h) then weakness h else lit "Analyzing..."))
  | None => None
  end.

Fixpoint format_items (l : list item) : option (list jsstring) :=
  match l with
  | [] => Some []
  | h :: r =>
      match format_item h, format_items r with
      | Some a, Some b => Some (a :: b)
      | _, _ => None
      end
  end.

(** [history.map(...).join('\n\n')] *)
Definition format_block (l : list item) : option jsstring :=
  option_map (join (nl ++ nl)) (format_items l).

Definition summary_prompt (block : jsstring) : jsstring :=
  lit "Summarize the following earlier interview exchanges (questions, answers, weaknesses) " ++
  lit "in two brief sentences, focusing on overall strengths and weaknesses:" ++
  nl ++ nl ++ block.

Definition summary_request (block : jsstring) : chat_request :=
  {| model := OPENAI_MODEL;
     messages := [ {| role := user; content := summary_prompt block |} ];
     temperature := 5 # 10 |}.

Definition summarizeOld (h : list item) : Prog jsstring :=
  match h with
  | [] => Ret []
  | _ =>
      block <- lift (format_block h) ;;
      c <- chat_create (summary_request block) ;;
      Ret (trim c)
  end.

(** [history.slice(0, -n)] and [history.slice(-n)] *)
Definition slice_but_last {A : Type} (n : nat) (l : list A) : list A :=
  firstn (List.length l - n) l.
Definition slice_last {A : Type} (n : nat) (l : list A) : list A :=
  skipn (List.length l - n) l.

(** *** POST /api/tts *)

Record tts_body : Type := {
  tts_text : value;
  tts_voice : value;
  tts_speed : value;
  tts_instructions : value
}.

Definition default_instructions (pers : jsstring) : jsstring :=
  lit "Speak like a " ++ pers ++
  lit " interviewer. Natural pacing, slight pauses, not robotic.".

(** The longest input the speech collaborator accepts. *)
Definition max_input : nat := 4096.

Definition api_tts (b : tts_body) : Prog response :=
  try_catch
    (raw <- lift (to_string (coalesce (tts_text b) (VString []))) ;;
     let textRaw := trim raw in
     if negb (nonempty textRaw) then Ret (respond 400 (Error (lit "text required")))
     else
       let text :=
         if (max_input <? List.length textRaw)%nat
         then slice0 max_input textRaw else textRaw in
       v <- lift (to_string (or_else (tts_voice b) (VString OPENAI_TTS_VOICE))) ;;
       let voice := trim v in
       sp <- lift (to_number (tts_speed b)) ;;
       speed <- (if num_is_finite sp then lift (to_number (tts_speed b))
                 else Ret OPENAI_TTS_SPEED) ;;
       s <- get_session ;;
       let pers :=
         match personality s with
         | Some p => if nonempty p then p else lit "professional"
         | None => lit "professional"
         end in
       i <- lift (to_string (or_else (tts_instructions b) (VString []))) ;;
       let instructions :=
         if nonempty (trim i) then trim i else default_instructions pers in
       buffer <- speech_create {| tts_model := OPENAI_TTS_MODEL;
                                  voice := voice;
                                  input := text;
                                  instructions := instructions;
                                  speed := speed;
                                  response_format := lit "mp3" |} ;;
       Ret (respond 200 (Mp3 buffer)))
    (Ret (respond 500 (Error (lit "TTS failed")))).

(** *** POST /api/start *)

Record start_body : Type := {
  body_type : value;
  body_resume : value;
  body_duration : value
}.

Definition api_start (b : start_body) : Prog response :=
  let invalid := Ret (respond 400 (Error (lit "Invalid input"))) in
  if negb (truthy (body_type b)) || negb (truthy (body_resume b))
     || negb (truthy (body_duration b))
  then invalid
  else
    n <- lift (to_number (body_duration b)) ;;
    if num_is_nan n then invalid
    else
      n' <- lift (to_number (body_duration b)) ;;
      if num_leb n' (of_Z 0) then invalid
      else
        modify (set_profile {| type := body_type b; resume := body_resume b |}) ;;;
        minutes <- lift (parse_int (body_duration b)) ;;
        modify (set_duration_seconds (num_mul minutes (of_Z 60))) ;;;
        now <- date_now ;;
        modify (set_start_time now) ;;;
        pers <- getRandomPersonality ;;
        modify (set_personality pers) ;;;
        modify (set_history []) ;;;
        modify (set_current_question VNull) ;;;
        Ret (respond 200 Success).

(** *** GET /api/next-question *)

Definition bool_to_string (b : bool) : jsstring :=
  if b then lit "true" else lit "false".

Definition option_to_string (o : option jsstring) : jsstring :=
  match o with Some t => t | None => lit "undefined" end.

Definition system_prompt (pers typeText timeRemaining : jsstring) : jsstring :=
  lit "You are a " ++ pers ++ lit " interviewer running a TIMED interview." ++ nl ++
  lit "Interview type: " ++ typeText ++ nl ++
  lit "Time remaining: " ++ timeRemaining ++ lit " seconds." ++ nl ++ nl ++
  lit "You must ask EXACTLY ONE question at a time." ++ nl ++ nl ++
  lit "Behavior rules:" ++ nl ++
  lit "- If the candidate profile/answers are missing critical details needed to interview well (target role/title, level/seniority, location, availability, goals, key experience), ask a concise clarifying question first." ++ nl ++
  lit "- If time remaining is short (<= 120 seconds), ask ONLY the single highest-impact missing detail." ++ nl ++
  lit "- If the last answer was vague or lacked specifics (see weaknesses), ask a focused follow-up for details." ++ nl ++
  lit "- Otherwise, ask a professional, role-relevant interview question based on the candidate's resume and prior answers." ++ nl ++
  lit "- Avoid multi-part questions unless absolutely necessary." ++ nl ++ nl ++
  lit "Output ONLY a JSON object with a single field: " ++ quote ++ lit "question" ++
  quote ++ lit ". No extra text.".

Definition profile_prompt (resumeText : jsstring) (profileSparse : bool) : jsstring :=
  lit "Candidate profile (resume / notes):" ++ nl ++ resumeText ++ nl ++ nl ++
  lit "Hint: profile_sparse=" ++ bool_to_string profileSparse.

Definition summary_message (oldSummary : jsstring) : message :=
  {| role := user;
     content := lit "Brief summary of earlier exchanges:" ++ nl ++ oldSummary |}.

Definition last_five_message (block : jsstring) : message :=
  {| role := user;
     content := lit "Last five Q&A and weaknesses:" ++ nl ++ block |}.

Definition ask_message : message :=
  {| role := user; content := lit "Ask the next question now." |}.

Definition default_question : value := VString (lit "Tell me about yourself.").

(** [wordsCount(resumeText) < 60 || wordsCount(typeText) < 2] *)
Definition profile_sparse (resumeText typeText : value) : option bool :=
  match wordsCount resumeText with
  | Some wr =>
      if (wr <? 60)%nat then Some true
      else
        match wordsCount typeText with
        | Some wt => Some (wt <? 2)%nat
        | None => None
        end
  | None => None
  end.

(** The first two messages: the instructions and the profile. *)
Definition opening_messages (pers : option jsstring) (typeStr resumeStr : jsstring)
    (timeRemaining : number) (profileSparse : bool) : list message :=
  [ {| role := system;
       content := system_prompt (option_to_string pers) typeStr
                    (number_to_string timeRemaining) |};
    {| role := user; content := profile_prompt resumeStr profileSparse |} ].

(** Lines 184 to 235: the messages of the prompt. *)
Definition build_messages (p : profile_t) : Prog (list message) :=
  timeRemaining <- secondsLeft ;;
  s <- get_session ;;
  let resumeText := or_else (resume p) (VString []) in
  let typeText := or_else (type p) (VString []) in
  profileSparse <- lift (profile_sparse resumeText typeText) ;;
  typeStr <- lift (to_string typeText) ;;
  resumeStr <- lift (to_string resumeText) ;;
  let messages0 :=
    opening_messages (personality s) typeStr resumeStr timeRemaining profileSparse in
  h <- lift (history s) ;;
  messages2 <-
    (if (0 <? List.length h)%nat then
       messages1 <-
         (if (5 <? List.length h)%nat then
            oldSummary <- summarizeOld (slice_but_last 5 h) ;;
            Ret (messages0 ++ [summary_message oldSummary])
          else Ret messages0) ;;
       block <- lift (format_block (slice_last 5 h)) ;;
       Ret (messages1 ++ [last_five_message block])
     else Ret messages0) ;;
  Ret (messages2 ++ [ask_message]).

Definition ask_request (msgs : list message) : chat_request :=
  {| model := OPENAI_MODEL; messages := msgs; temperature := 7 # 10 |}.

(** Lines 237 to 255: the completion, the parsed question and its record
    in the session. *)
Definition ask (msgs : list message) : Prog response :=
  try_catch
    (c <- chat_create (ask_request msgs) ;;
     let raw := trim c in
     let json := extractJson raw in
     let q := or_else (get_prop json (lit "question")) default_question in
     modify (set_current_question q) ;;;
     now <- date_now ;;
     modify (set_current_question_started_at (Some now)) ;;;
     Ret (respond 200 (Question q)))
    (Ret (respond 500 (Error (lit "Failed to generate question")))).

Definition generate_question (p : profile_t) : Prog response :=
  msgs <- build_messages p ;;
  ask msgs.

Definition api_next_question : Prog response :=
  s <- get_session ;;
  match profile s with
  | None => Ret (respond 400 (Error (lit "Interview not started")))
  | Some p =>
      now <- date_now ;;
      let endTime := end_time s in
      time_is_up <-
        (if num_geb (of_Z now) endTime then
           h <- lift (history s) ;;
           Ret ((0 <? List.length h)%nat && negb (truthy (current_question s)))
         else Ret false) ;;
      if time_is_up then Ret (respond 200 EndSignal)
      else generate_question p
  end.

(** *** POST /api/submit-answer *)

Definition weakness_prompt (q a : jsstring) : jsstring :=
  lit "Question: " ++ q ++ nl ++ lit "Answer: " ++ a ++ nl ++ nl ++
  lit "In one sentence, what is the key weakness of this answer?".

(** [l.findIndex(f)]; the callback is given the entry and its index. *)
Fixpoint findIndex_from {A : Type} (f : nat -> A -> bool) (i : nat) (l : list A)
  : option nat :=
  match l with
  | [] => None
  | x :: r => if f i x then Some i else findIndex_from f (S i) r
  end.

Definition findIndex {A : Type} (f : nat -> A -> bool) (l : list A) : option nat :=
  findIndex_from f O l.

Definition set_weakness (w : jsstring) (h : item) : item :=
  {| question := question h; answer := answer h; weakness := w;
     askedAt := askedAt h; answeredAt := answeredAt h; source := source h |}.

(** [l[i] = f(l[i])] for an index within the list *)
Fixpoint update_at {A : Type} (f : A -> A) (i : nat) (l : list A) : list A :=
  match l, i with
  | [], _ => []
  | x :: r, O => f x :: r
  | x :: r, S j => x :: update_at f j r
  end.

Definition weakness_request (q a : jsstring) : chat_request :=
  {| model := OPENAI_MODEL;
     messages := [ {| role := user; content := weakness_prompt q a |} ];
     temperature := 6 # 10 |}.

(** [h.question === item.question && h.answer === item.answer] for the
    entry [h] at index [i] of the history, of which the entry at index [own]
    is [item] itself.  The question of any other entry is another value than
    the question of [item]: the two were parsed from the store apart. *)
Definition same_exchange (it : item) (own : nat) (i : nat) (h : item) : bool :=
  (if Nat.eqb i own then identical (question it)
   else strict_equal (question h) (question it))
  && str_eqb (answer h) (answer it).

(** The detached weakness analysis that a submission starts for the item it
    pushed.  [req] is the request of that submission: the analysis reads and
    writes the session object of that request, whose history ends with the
    item (nothing else is pushed to that object), and saves that object. *)
Definition weakness_analysis (it : item) : Prog unit :=
  try_catch
    (q <- lift (to_string (question it)) ;;
     c <- chat_create (weakness_request q (answer it)) ;;
     let w := trim c in
     s <- get_session ;;
     h <- lift (history s) ;;
     match findIndex (same_exchange it (pred (List.length h))) h with
     | Some idx =>
         modify (set_history (update_at (set_weakness w) idx h)) ;;;
         save_session
     | None => Ret tt
     end)
    (Ret tt).

(** The item that a submission appends. *)
Definition new_item (s : session) (a : jsstring) (answered : Z) : item :=
  {| question := current_question s;
     answer := trim a;
     weakness := lit "Analyzing...";
     askedAt :=
       match current_question_started_at s with
       | Some t => if t =? 0 then None else Some t
       | None => None
       end;
     answeredAt := answered;
     source := lit "speech_to_text" |}.

Definition api_submit_answer (ans : value) : Prog response :=
  s <- get_session ;;
  match profile s with
  | None => Ret (respond 400 (Error (lit "Invalid state")))
  | Some _ =>
      if negb (truthy (current_question s))
      then Ret (respond 400 (Error (lit "Invalid state")))
      else if negb (truthy ans)
      then Ret (respond 400 (Error (lit "Answer required")))
      else
        match ans with
        | VString a =>
            if negb (nonempty (trim a))
            then Ret (respond 400 (Error (lit "Answer required")))
            else
              answered <- date_now ;;
              let it := new_item s a answered in
              h <- lift (history s) ;;
              modify (set_history (h ++ [it])) ;;;
              Detach it (
                modify (set_current_question VNull) ;;;
                modify (set_current_question_started_at None) ;;;
                now <- date_now ;;
                let endTime := end_time s in
                Ret (respond 200 (TimeUp (num_geb (of_Z now) endTime))))
        | _ => Throw
        end
  end.

(** *** GET /api/transcript *)

Definition api_transcript : Prog response :=
  s <- get_session ;;
  match profile s with
  | None => Ret (respond 400 (Error (lit "Interview not started")))
  | Some p =>
      Ret (respond 200
             (Transcript p (personality s) (start_time s) (duration_seconds s)
                match history s with Some h => h | None => [] end))
  end.

(** *** GET /api/result *)

Definition result_prompt (data : value) : jsstring :=
  lit "Based on these Q&A and weaknesses:" ++ nl ++ JSON_stringify data ++ nl ++ nl ++
  lit "Return ONLY a JSON object with:" ++ nl ++
  lit "  status: " ++ quote ++ lit "Success" ++ quote ++ lit " or " ++
  quote ++ lit "Fail" ++ quote ++ lit "," ++ nl ++
  lit "  confidence: integer 0" ++ [8211%N] ++ lit "100," ++ nl ++
  lit "  reason: string (only if status is " ++ quote ++ lit "Fail" ++ quote ++
  lit ")." ++ nl ++
  lit "Be as brief as possible.".

Definition result_data (h : list item) : value :=
  VObject
    [ (lit "q", VArray (map question h));
      (lit "a", VArray (map (fun x => VString (answer x)) h));
      (lit "w", VArray (map (fun x =>
                  VString (if nonempty (weakness x) then weakness x else lit "N/A")) h)) ].

Definition result_request (h : list item) : chat_request :=
  {| model := OPENAI_MODEL;
     messages := [ {| role := user; content := result_prompt (result_data h) |} ];
     temperature := 5 # 10 |}.

Definition api_result : Prog response :=
  s <- get_session ;;
  match history s with
  | None | Some [] => Ret (respond 400 (Error (lit "No interview data")))
  | Some h =>
      try_catch
        (raw <- chat_create (result_request h) ;;
         let r := extractJson raw in
         Ret (respond 200
                (Result (or_else (get_prop r (lit "status")) (VString (lit "Fail")))
                        (coalesce (get_prop r (lit "confidence")) (VNumber (of_Z 0)))
                        (or_else (get_prop r (lit "reason")) (VString []))
                        h)))
        (Ret (respond 500 (Error (lit "Failed to compute result"))))
  end.

(** ** Requests in sequence *)

(** The six routes. *)
Inductive request : Type :=
| PostTts (b : tts_body)
| PostStart (b : start_body)
| GetNextQuestion
| PostSubmitAnswer (ans : value)
| GetTranscript
| GetResult.

Definition handler (r : request) : Prog response :=
  match r with
  | PostTts b => api_tts b
  | PostStart b => api_start b
  | GetNextQuestion => api_next_question
  | PostSubmitAnswer ans => api_submit_answer ans
  | GetTranscript => api_transcript
  | GetResult => api_result
  end.

(** The response a request is answered with on the session [s], if any. *)
Definition served (r : request) (e : env) (s : session) : option response :=
  outcome (run (handler r) e O s).

(** What the server keeps between two events: the session in the store, as
    its text parses, and the analyses in flight, each with the item it was
    started for and the session object of the request that started it. *)
Record server : Type := {
  store : session;
  in_flight : list (item * session)
}.

Definition fresh_server : server :=
  {| store := empty_session; in_flight := [] |}.

(** What happens at the server: a request arrives and is served, or the
    analysis in flight at index [k] completes. *)
Inductive event : Type :=
| Arrives (r : request)
| AnalysisDone (k : nat).

(** The store after the calls of [req.session.save]. *)
Definition save_all (snapshots : list session) (st : session) : session :=
  fold_left (fun _ s => json_copy s) snapshots st.

Fixpoint remove_nth {A : Type} (k : nat) (l : list A) : list A :=
  match l, k with
  | [], _ => []
  | _ :: r, O => r
  | x :: r, S j => x :: remove_nth j r
  end.

(** One event.  A request runs on the session read from the store; when its
    response ends the session object is written back, and the analyses it
    started keep that object.  A completed analysis ran on the session
    object it kept, and the store holds what it saved. *)
Definition step (ev : event) (e : env) (sv : server) : option response * server :=
  match ev with
  | Arrives r =>
      let res := run (handler r) e O (store sv) in
      (outcome res,
       {| store := json_copy (final res);
          in_flight :=
            in_flight sv ++ map (fun it => (it, final res)) (detached res) |})
  | AnalysisDone k =>
      match nth_error (in_flight sv) k with
      | Some (it, own) =>
          let res := run (weakness_analysis it) e O own in
          (None,
           {| store := save_all (saved res) (store sv);
              in_flight := remove_nth k (in_flight sv) |})
      | None => (None, sv)
      end
  end.

(** Events one after the other, each in its own environment; the log pairs
    every event with the response it was answered with. *)
Fixpoint serve_all (evs : list (event * env)) (sv : server)
  : list (event * option response) * server :=
  match evs with
  | [] => ([], sv)
  | (ev, e) :: rest =>
      let (o, sv1) := step ev e sv in
      let (log, sv2) := serve_all rest sv1 in
      ((ev, o) :: log, sv2)
  end.

(** A question is pending. *)
Definition pending (s : session) : bool := negb (nullish (current_question s)).

Definition succeeded (o : option response) : bool :=
  match o with
  | Some x => status x =? 200
  | None => false
  end.

Definition gave_question (o : option response) : bool :=
  match o with
  | Some {| status := c; payload := Question _ |} => c =? 200
  | _ => false
  end.

(** Whether a question was fetched and not answered since, read off one
    entry of the log. *)
Definition awaiting_after (b : bool) (entry : event * option response) : bool :=
  match entry with
  | (Arrives GetNextQuestion, o) => if gave_question o then true else b
  | (Arrives (PostSubmitAnswer _), o) | (Arrives (PostStart _), o) =>
      if succeeded o then false else b
  | _ => b
  end.

Definition awaiting (log : list (event * option response)) : bool :=
  fold_left awaiting_after log false.


(** What every started session satisfies: it has a history, and its
    current_question is null or a truthy value. *)
Definition session_ok (s : session) : Prop :=
  profile s <> None ->
  history s <> None /\
  (current_question s = VNull \/ truthy (current_question s) = true).

(** What the store holds: a session that is its own copy and, once an
    interview was started, has a start time and a duration that is null or
    a whole number of seconds. *)
Definition stored_ok (s : session) : Prop :=
  json_copy s = s /\
  session_ok s /\
  (profile s <> None ->
   start_time s <> None /\
   (duration_seconds s = Null \/ exists d, duration_seconds s = Num (of_Z d))).



(** Every text that the prompt interpolates converts without raising. *)
Definition convertible (p : profile_t) (s : session) : Prop :=
  to_string (or_else (resume p) (VString [])) <> None /\
  to_string (or_else (type p) (VString [])) <> None /\
  forall h, history s = Some h ->
            Forall (fun it => to_string (question it) <> None) h.

(** A request refused with 400: nothing changes and nobody is called. *)
Definition rejected (msg : jsstring) (n : nat) (s : session) : result response :=
  {| outcome := Some (respond 400 (Error msg)); final := s; calls := [];
     detached := []; saved := []; ticks := n |}.

(** What every entry of the history holds: a truthy question, an answer
    that is trimmed and not empty, and the fixed source. *)
Definition item_ok (it : item) : Prop :=
  truthy (question it) = true /\
  answer it <> [] /\ trim (answer it) = answer it /\
  source it = lit "speech_to_text".

(** Every entry of the history is as [item_ok] says. *)
Definition items_ok (s : session) : Prop :=
  forall h, history s = Some h -> Forall item_ok h.

(** What holds of an analysis in flight: the session object it keeps is
    that of a started interview, as a submission leaves it. *)
Definition closure_ok (c : item * session) : Prop :=
  stored_ok (snd c) /\ items_ok (snd c) /\
  profile (snd c) <> None /\ current_question (snd c) = VNull.

(** What holds of the server between two events. *)
Definition server_ok (sv : server) : Prop :=
  stored_ok (store sv) /\ items_ok (store sv) /\ Forall closure_ok (in_flight sv).




(** A code unit that [trim] strips, and a word: a non-empty run of code
    units that it does not strip. *)
Definition blank (s : jsstring) : Prop := Forall (fun c => is_ws c = true) s.
Definition word (s : jsstring) : Prop :=
  s <> [] /\ Forall (fun c => is_ws c = false) s.

(** ** Scenarios *)

(** The defaults of the configuration, and renderings for runs that print
    no fractional number and whose verdict prompt nobody reads. *)
Definition default_model : jsstring := lit "gpt-4o-mini".
Definition default_tts_model : jsstring := lit "gpt-4o-mini-tts".
Definition default_voice : jsstring := lit "coral".
Definition default_speed : number := of_Z 1.
Definition no_fraction : Q -> jsstring := fun _ => [].
Definition no_stringify : value -> jsstring := fun _ => lit "{}".

(** A world where the clock stands at [now] and every completion is
    answered with [reply]. *)
Definition scripted (now : Z) (reply : chat_reply) : env :=
  {| clock := fun _ => now;
     random := fun _ => 0%Q;
     chat := fun _ _ => reply;
     speech := fun _ _ => Audio [] |}.

Definition sample_profile : profile_t :=
  {| type := VString (lit "Backend Engineer");
     resume := VString (lit "Five years of Go and Postgres.") |}.

Definition sample_item : item :=
  {| question := VString (lit "Why Go?");
     answer := lit "It is simple.";
     weakness := lit "Analyzing...";
     askedAt := Some 1000;
     answeredAt := 2000;
     source := lit "speech_to_text" |}.

(** A one-minute interview started at time 0. *)
Definition one_minute (h : list item) (q : value) : session :=
  {| profile := Some sample_profile;
     duration_seconds := Num (of_Z 60);
     start_time := Some 0;
     personality := Some (lit "friendly but probing");
     history := Some h;
     current_question := q;
     current_question_started_at := None |}.

Definition sample_start (d : value) : start_body :=
  {| body_type := VString (lit "Backend Engineer");
     body_resume := VString (lit "Five years of Go and Postgres.");
     body_duration := d |}.

Definition sample_speech (text : value) : tts_body :=
  {| tts_text := text; tts_voice := VUndefined; tts_speed := VUndefined;
     tts_instructions := VUndefined |}.



(** The reply [{"question": "Why Go?"}], bare and wrapped in prose. *)
Definition reply_why_go : jsstring :=
  lit "{" ++ quote ++ lit "question" ++ quote ++ lit ": " ++ quote ++
  lit "Why Go?" ++ quote ++ lit "}".
Definition reply_in_prose : jsstring :=
  lit "Sure! " ++ reply_why_go ++ lit " Good luck.".


(** A short interview: start, fetch a question, answer it. *)
Definition short_interview : list (event * env) :=
  [ (Arrives (PostStart (sample_start (VNumber (of_Z 10)))), scripted 0 ChatFailed);
    (Arrives GetNextQuestion, scripted 1000 (Content reply_why_go));
    (Arrives (PostSubmitAnswer (VString (lit "  It is simple. "))),
     scripted 5000 ChatFailed) ].

(** The entry that answering "Why Go?" appends. *)
Definition why_go_item : item :=
  {| question := VString (lit "Why Go?");
     answer := lit "It is simple.";
     weakness := lit "Analyzing...";
     askedAt := Some 1000;
     answeredAt := 5000;
     source := lit "speech_to_text" |}.

(** A speech body that gives a text and a null speed. *)
Definition hello_speech : tts_body :=
  {| tts_text := VString (lit "Hello"); tts_voice := VUndefined;
     tts_speed := VNull; tts_instructions := VUndefined |}.

(** An environment with both secrets and a port, and one whose speech speed
    is not a number. *)
Definition sample_environment : Config.environment :=
  Config.assigned
    [ (lit "SESSION_SECRET", lit "s3cret");
      (lit "OPENAI_API_KEY", lit "sk-test");
      (lit "PORT", lit "8080") ].
Definition fast_environment : Config.environment :=
  Config.assigned [ (lit "OPENAI_TTS_SPEED", lit "fast") ].


(** The reply [{"question": {"toString": 1}}] and the entry that answering
    its question leaves in the history. *)
Definition reply_unprintable : jsstring :=
  lit "{" ++ quote ++ lit "question" ++ quote ++ lit ": {" ++ quote ++
  lit "toString" ++ quote ++ lit ": 1}}".
Definition unprintable_item : item :=
  {| question := VObject [(lit "toString", VNumber (of_Z 1))];
     answer := lit "It is simple.";
     weakness := lit "Analyzing...";
     askedAt := Some 1000;
     answeredAt := 5000;
     source := lit "speech_to_text" |}.


(** Six entries, numbered; the analysis of the first has completed. *)
Definition numbered_item (k : Z) (w : jsstring) : item :=
  {| question := VString (lit "Question " ++ int_to_string k);
     answer := lit "Answer " ++ int_to_string k;
     weakness := w;
     askedAt := Some (k * 1000);
     answeredAt := k * 1000 + 500;
     source := lit "speech_to_text" |}.

Definition six_items : list item :=
  numbered_item 1 (lit "Too short.")
  :: map (fun k => numbered_item k (lit "Analyzing...")) [2; 3; 4; 5; 6].

(** The short interview, a second question fetched, and only then the
    analysis of the first answer completing. *)
Definition late_analysis : list (event * env) :=
  short_interview ++
  [ (Arrives GetNextQuestion, scripted 6000 (Content reply_why_go));
    (AnalysisDone 0, scripted 7000 (Content (lit " Too short. "))) ].

(** The short interview, a new interview started, and only then the
    analysis of the answer of the first interview completing. *)
Definition late_analysis_after_restart : list (event * env) :=
  short_interview ++
  [ (Arrives (PostStart (sample_start (VNumber (of_Z 20)))), scripted 8000 ChatFailed);
    (AnalysisDone 0, scripted 9000 (Content (lit " Too short. "))) ].

(** The entry of the short interview once its analysis has completed. *)
Definition analysed_item : item :=
  {| question := VString (lit "Why Go?");
     answer := lit "It is simple.";
     weakness := lit "Too short.";
     askedAt := Some 1000;
     answeredAt := 5000;
     source := lit "speech_to_text" |}.

(** An entry whose question is an object, as a reply such as
    [{"question": {"text": "Why Go?"}}] makes it. *)
Definition object_item : item :=
  {| question := VObject [(lit "text", VString (lit "Why Go?"))];
     answer := lit "It is simple.";
     weakness := lit "Analyzing...";
     askedAt := Some 1000;
     answeredAt := 5000;
     source := lit "speech_to_text" |}.

Definition analysed_object_item : item :=
  {| question := VObject [(lit "text", VString (lit "Why Go?"))];
     answer := lit "It is simple.";
     weakness := lit "Vague.";
     askedAt := Some 1000;
     answeredAt := 5000;
     source := lit "speech_to_text" |}.

(** ** Notation *)

(** [text] is what the entry [it] is quoted with in a prompt. *)
Local Abbreviation quoted it text :=
  (exists q, to_string (question it) = Some q /\
     text = lit "Q: " ++ q ++ [10%N] ++ lit "A: " ++ answer it ++ [10%N] ++
            lit "Weakness: " ++
            (if nonempty (weakness it) then weakness it else lit "Analyzing...")).

(** ** Symbolic execution *)

(** One step of symbolic execution: unfold the interpreter and the monadic
    plumbing, nothing else. *)
Ltac run_step :=
  cbn [run bind try_catch lift date_now math_random get_session modify
       save_session chat_create speech_create add_call add_detached add_saved
       outcome final calls detached saved ticks app].

(** Execute a handler along all its paths, splitting on every test and on
    every conversion that may raise. *)
Ltac crunch :=
  run_step;
  repeat (match goal with
  | |- context [lift ?x] => destruct x eqn:?
  | |- context [run (match ?x with _ => _ end)] => destruct x eqn:?
  | |- context [run (if ?x then _ else _)] => destruct x eqn:?
  | |- context [bind (match ?x with _ => _ end)] => destruct x eqn:?
  | |- context [bind (if ?x then _ else _)] => destruct x eqn:?
  | |- context [try_catch (match ?x with _ => _ end)] => destruct x eqn:?
  | |- context [try_catch (if ?x then _ else _)] => destruct x eqn:?
  end; run_step).

(** Split on the code unit that a parser's step inspects, dropping the
    branches that fail. *)
Ltac split_code :=
  repeat (match goal with
          | |- context [match ?c with _ => _ end] =>
              is_var c; destruct c; try discriminate
          end).

(** Settle a goal about a member of a list of calls that is known: there
    is no such member, or it is a call of the other kind, or it is the
    call. *)
Ltac in_calls :=
  let req := fresh "req" in
  let Hin := fresh "Hin" in
  intros req Hin; cbn [In] in Hin;
  first [ contradiction
        | destruct Hin as [Hin|[]];
          first [ discriminate Hin | injection Hin as <- ] ].

(** * Properties *)

(** ** Running interaction trees *)

Lemma run_bind {A B : Type} (p : Prog A) (f : A -> Prog B) e n s :
  run (bind p f) e n s =
  match outcome (run p e n s) with
  | Some a =>
      let r' := run (f a) e (ticks (run p e n s)) (final (run p e n s)) in
      {| outcome := outcome r'; final := final r';
         calls := calls (run p e n s) ++ calls r';
         detached := detached (run p e n s) ++ detached r';
         saved := saved (run p e n s) ++ saved r';
         ticks := ticks r' |}
  | None =>
      {| outcome := None; final := final (run p e n s);
         calls := calls (run p e n s); detached := detached (run p e n s);
         saved := saved (run p e n s);
         ticks := ticks (run p e n s) |}
  end.
Proof.
  revert n s.
  induction p as [a| |k IH|k IH|k IH|s' k IH|req k IH|req k IH|it k IH|k IH];
    intros n s; cbn [bind run]; try solve [auto].
  - cbn. destruct (run (f a) e n s); reflexivity.
  - rewrite IH. cbn. destruct (outcome (run (k (chat e n req)) e (S n) s)); reflexivity.
  - rewrite IH. cbn. destruct (outcome (run (k (speech e n req)) e (S n) s)); reflexivity.
  - rewrite IH. cbn. destruct (outcome (run k e n s)); reflexivity.
  - rewrite IH. cbn. destruct (outcome (run k e n s)); reflexivity.
Qed.

(** ** Rounding to binary64 *)

Lemma pow2_pos e : (0 < pow2 e)%Q.
Proof. apply Qpower_0_lt. reflexivity. Qed.

Lemma pow2_plus a b : (pow2 (a + b) == pow2 a * pow2 b)%Q.
Proof. apply Qpower_plus. discriminate. Qed.

Lemma pow2_le a b : a <= b -> (pow2 a <= pow2 b)%Q.
Proof. intros H. apply Qpower_le_compat_l; [exact H|discriminate]. Qed.

Lemma pow2_Z e : 0 <= e -> (pow2 e == inject_Z (2 ^ e))%Q.
Proof. intros H. unfold pow2. now rewrite Zpower_Qpower. Qed.

Lemma round_half_even_bounds x :
  Qfloor x <= round_half_even x <= Qfloor x + 1.
Proof.
  unfold round_half_even.
  destruct (x - inject_Z (Qfloor x) ?= 1 # 2)%Q; try lia.
  destruct (Z.even (Qfloor x)); lia.
Qed.

Lemma round_half_even_mono x y : (x <= y)%Q -> round_half_even x <= round_half_even y.
Proof.
  intros Hxy. pose proof (Qfloor_resp_le x y Hxy) as Hk.
  pose proof (round_half_even_bounds x) as Bx.
  pose proof (round_half_even_bounds y) as By.
  destruct (Z.eq_dec (Qfloor x) (Qfloor y)) as [E|NE]; [|lia].
  unfold round_half_even. rewrite <- E.
  assert (Hr : (x - inject_Z (Qfloor x) <= y - inject_Z (Qfloor x))%Q).
  { apply Qplus_le_l. exact Hxy. }
  destruct (Qcompare_spec (x - inject_Z (Qfloor x)) (1 # 2)) as [Ex|Lx|Gx];
    destruct (Qcompare_spec (y - inject_Z (Qfloor x)) (1 # 2)) as [Ey|Ly|Gy];
    try (destruct (Z.even (Qfloor x)); lia); exfalso.
  - rewrite Ex in Hr. apply (Qlt_not_le _ _ Ly Hr).
  - apply (Qlt_not_le _ _ Gx). now rewrite <- Ey.
  - apply (Qlt_not_le _ _ Gx). eapply Qle_trans; [exact Hr|]. now apply Qlt_le_weak.
Qed.

Lemma round_half_even_Z x k : (x == inject_Z k)%Q -> round_half_even x = k.
Proof.
  intros H. unfold round_half_even.
  rewrite (Qfloor_comp _ _ H), Qfloor_Z.
  assert (E : (x - inject_Z k == 0)%Q) by (rewrite H; ring).
  rewrite (Qcompare_comp _ _ E _ _ (Qeq_refl _)). reflexivity.
Qed.

Lemma round_half_even_nonneg x : (0 <= x)%Q -> 0 <= round_half_even x.
Proof.
  intros H. pose proof (round_half_even_bounds x).
  pose proof (Qfloor_resp_le 0 x H). cbn in *. lia.
Qed.

Lemma round_to_multiple_mono p x y :
  (x <= y)%Q -> (round_to_multiple p x <= round_to_multiple p y)%Q.
Proof.
  intros H. unfold round_to_multiple.
  apply Qmult_le_compat_r; [|apply Qlt_le_weak, pow2_pos].
  rewrite <- Zle_Qle. apply round_half_even_mono.
  unfold Qdiv. apply Qmult_le_compat_r; [exact H|].
  apply Qlt_le_weak, Qinv_lt_0_compat, pow2_pos.
Qed.

Lemma round_to_multiple_fixed p k q :
  (q == inject_Z k * pow2 p)%Q -> (round_to_multiple p q == q)%Q.
Proof.
  intros H. unfold round_to_multiple.
  rewrite (round_half_even_Z (q / pow2 p) k).
  - now rewrite H.
  - rewrite H. field. intros E. pose proof (pow2_pos p) as Hp.
    rewrite E in Hp. discriminate.
Qed.

Lemma round_to_multiple_nonneg p q : (0 <= q)%Q -> (0 <= round_to_multiple p q)%Q.
Proof.
  intros H. unfold round_to_multiple.
  apply Qmult_le_0_compat; [|apply Qlt_le_weak, pow2_pos].
  change 0%Q with (inject_Z 0). rewrite <- Zle_Qle.
  apply round_half_even_nonneg.
  unfold Qdiv. apply Qmult_le_0_compat; [exact H|].
  apply Qlt_le_weak, Qinv_lt_0_compat, pow2_pos.
Qed.

Lemma Qlog2_spec q :
  (0 < q)%Q -> (pow2 (Qlog2 q) <= q)%Q /\ (q < pow2 (Qlog2 q + 1))%Q.
Proof.
  intros Hq. unfold Qlog2.
  destruct (Qle_bool 1 q) eqn:H1.
  - apply Qle_bool_iff in H1.
    assert (Hf : 1 <= Qfloor q).
    { change 1 with (Qfloor 1). now apply Qfloor_resp_le. }
    destruct (Z.log2_spec (Qfloor q)) as [Lo Hi]; [lia|].
    pose proof (Z.log2_nonneg (Qfloor q)) as Hn.
    split.
    + rewrite pow2_Z by lia. eapply Qle_trans; [|apply Qfloor_le].
      now rewrite <- Zle_Qle.
    + rewrite pow2_Z by lia. eapply Qlt_le_trans; [apply Qlt_floor|].
      rewrite <- Zle_Qle. unfold Z.succ in Hi. lia.
  - assert (Hlt : (q < 1)%Q).
    { apply Qnot_le_lt. intros H. apply Qle_bool_iff in H. congruence. }
    assert (Hinv : (1 < / q)%Q).
    { apply Qlt_shift_inv_l; [exact Hq|]. now rewrite Qmult_1_l. }
    set (c := Qceiling (/ q)).
    assert (Hc : 1 < c).
    { rewrite Zlt_Qlt. eapply Qlt_le_trans; [exact Hinv|apply Qle_ceiling]. }
    destruct (Z.log2_up_spec c Hc) as [Lo Hi].
    set (L := Z.log2_up c) in *.
    assert (HL : 0 < L) by (apply Z.log2_up_pos; exact Hc).
    split.
    + unfold pow2. rewrite Qpower_opp. fold (pow2 L). rewrite pow2_Z by lia.
      apply Qle_shift_inv_r.
      * change 0%Q with (inject_Z 0). rewrite <- Zlt_Qlt. lia.
      * (* 1 <= q * 2^L *)
        assert (Hq2 : (/ q <= inject_Z (2 ^ L))%Q).
        { eapply Qle_trans; [apply Qle_ceiling|]. now rewrite <- Zle_Qle. }
        apply (Qmult_le_l _ _ (/ q)); [now apply Qinv_lt_0_compat|].
        rewrite Qmult_1_r, Qmult_assoc, (Qmult_comm (/ q)), Qmult_inv_r, Qmult_1_l;
          [exact Hq2|].
        intros E. rewrite E in Hq. discriminate.
    + replace (- L + 1) with (- (L - 1)) by lia.
      unfold pow2. rewrite Qpower_opp. fold (pow2 (L - 1)). rewrite pow2_Z by lia.
      apply Qlt_shift_inv_l.
      * change 0%Q with (inject_Z 0). rewrite <- Zlt_Qlt.
        apply Z.pow_pos_nonneg; lia.
      * (* q * 2^(L-1) < 1 *)
        assert (Hq2 : (inject_Z (2 ^ (L - 1)) < / q)%Q).
        { eapply Qle_lt_trans; [|apply Qceiling_lt]. fold c.
          rewrite <- Zle_Qle. replace (L - 1) with (Z.pred L) by lia. lia. }
        apply (Qmult_lt_l _ _ (/ q)); [now apply Qinv_lt_0_compat|].
        rewrite Qmult_1_r, Qmult_assoc, (Qmult_comm (/ q)), Qmult_inv_r, Qmult_1_l;
          [exact Hq2|].
        intros E. rewrite E in Hq. discriminate.
Qed.

Lemma Qred_inject_Z z : Qred (inject_Z z) = inject_Z z.
Proof.
  unfold Qred, inject_Z.
  pose proof (Z.ggcd_gcd z 1) as Hg.
  pose proof (Z.ggcd_correct_divisors z 1) as Hd.
  destruct (Z.ggcd z 1) as [g [a b]]. cbn [fst snd] in *.
  rewrite Z.gcd_1_r in Hg. subst g. destruct Hd as [Ha Hb].
  replace a with z by lia. replace b with 1 by lia. reflexivity.
Qed.

Lemma Qlog2_mono q1 q2 : (0 < q1)%Q -> (q1 <= q2)%Q -> Qlog2 q1 <= Qlog2 q2.
Proof.
  intros H1 H12.
  assert (H2 : (0 < q2)%Q) by (eapply Qlt_le_trans; eassumption).
  destruct (Qlog2_spec q1 H1) as [Lo1 _].
  destruct (Qlog2_spec q2 H2) as [_ Hi2].
  destruct (Z_lt_le_dec (Qlog2 q2) (Qlog2 q1)) as [Hlt|Hle]; [exfalso|exact Hle].
  assert (Hp : (pow2 (Qlog2 q2 + 1) <= pow2 (Qlog2 q1))%Q) by (apply pow2_le; lia).
  apply (Qlt_irrefl q2).
  eapply Qlt_le_trans; [exact Hi2|].
  eapply Qle_trans; [exact Hp|]. eapply Qle_trans; eassumption.
Qed.

Lemma pow2_on_grid e p : p <= e -> (pow2 e == inject_Z (2 ^ (e - p)) * pow2 p)%Q.
Proof.
  intros H. rewrite <- pow2_Z by lia. rewrite <- pow2_plus.
  now replace (e - p + p) with e by lia.
Qed.


Lemma rounded_mono q1 q2 :
  (0 < q1)%Q -> (q1 <= q2)%Q ->
  (round_to_multiple (quantum q1) q1 <= round_to_multiple (quantum q2) q2)%Q.
Proof.
  intros H1 H12.
  assert (H2 : (0 < q2)%Q) by (eapply Qlt_le_trans; eassumption).
  pose proof (Qlog2_mono q1 q2 H1 H12) as He.
  unfold quantum.
  destruct (Z.eq_dec (Z.max (Qlog2 q1 - 52) (-1074)) (Z.max (Qlog2 q2 - 52) (-1074)))
    as [E|NE].
  - rewrite E. now apply round_to_multiple_mono.
  - set (p1 := Z.max (Qlog2 q1 - 52) (-1074)) in *.
    set (p2 := Z.max (Qlog2 q2 - 52) (-1074)) in *.
    assert (Hlt : Qlog2 q1 < Qlog2 q2) by lia.
    destruct (Qlog2_spec q1 H1) as [_ Hi1].
    destruct (Qlog2_spec q2 H2) as [Lo2 _].
    set (B := pow2 (Qlog2 q2)) in *.
    assert (H1B : (q1 <= B)%Q).
    { apply Qlt_le_weak. eapply Qlt_le_trans; [exact Hi1|]. apply pow2_le. lia. }
    assert (Hf1 : (round_to_multiple p1 B == B)%Q).
    { apply (round_to_multiple_fixed p1 (2 ^ (Qlog2 q2 - p1))).
      apply pow2_on_grid. lia. }
    assert (Hf2 : (round_to_multiple p2 B == B)%Q).
    { apply (round_to_multiple_fixed p2 (2 ^ (Qlog2 q2 - p2))).
      apply pow2_on_grid. lia. }
    eapply Qle_trans; [apply (round_to_multiple_mono p1 q1 B H1B)|].
    rewrite Hf1, <- Hf2. now apply round_to_multiple_mono.
Qed.

Lemma round_positive_mono q1 q2 :
  (0 < q1)%Q -> (q1 <= q2)%Q ->
  num_leb (round_positive q1) (round_positive q2) = true.
Proof.
  intros H1 H12. pose proof (rounded_mono q1 q2 H1 H12) as Hr.
  unfold round_positive. fold (quantum q1) (quantum q2).
  set (r1 := round_to_multiple (quantum q1) q1) in *.
  set (r2 := round_to_multiple (quantum q2) q2) in *.
  destruct (Qle_bool (pow2 1024) r1) eqn:O1.
  - apply Qle_bool_iff in O1.
    replace (Qle_bool (pow2 1024) r2) with true; [reflexivity|].
    symmetry. apply Qle_bool_iff. eapply Qle_trans; eassumption.
  - destruct (Qle_bool (pow2 1024) r2); [reflexivity|].
    unfold num_leb, num_lt. rewrite negb_involutive.
    apply Qle_bool_iff. now apply Qred_le.
Qed.

Lemma round_positive_nonneg q :
  (0 < q)%Q -> num_leb (Fin 0) (round_positive q) = true.
Proof.
  intros H. unfold round_positive.
  destruct (Qle_bool _ _); [reflexivity|].
  unfold num_leb, num_lt. rewrite negb_involutive.
  apply Qle_bool_iff. rewrite Qred_correct.
  apply round_to_multiple_nonneg. now apply Qlt_le_weak.
Qed.

Lemma round_positive_cases q :
  (0 < q)%Q ->
  round_positive q = PInf \/ exists r, round_positive q = Fin r /\ (0 <= r)%Q.
Proof.
  intros H. unfold round_positive.
  destruct (Qle_bool _ _); [now left|right].
  eexists. split; [reflexivity|]. rewrite Qred_correct.
  apply round_to_multiple_nonneg. now apply Qlt_le_weak.
Qed.

Lemma num_leb_neg x y : num_leb x y = true -> num_leb (num_neg y) (num_neg x) = true.
Proof.
  destruct x as [| | |a], y as [| | |b]; cbn; try congruence.
  rewrite !negb_involutive. intros H. apply Qle_bool_iff in H.
  apply Qle_bool_iff. now apply Qopp_le_compat.
Qed.

Lemma round64_comp q q' : (q == q')%Q -> round64 q = round64 q'.
Proof. intros H. unfold round64. now rewrite (Qred_complete _ _ H). Qed.

Lemma round64_mono q1 q2 :
  (q1 <= q2)%Q -> num_leb (round64 q1) (round64 q2) = true.
Proof.
  intros H. apply Qred_le in H. unfold round64.
  set (a := Qred q1) in *. set (b := Qred q2) in *.
  destruct (Qcompare_spec a 0) as [Ea|La|Ga];
    destruct (Qcompare_spec b 0) as [Eb|Lb|Gb].
  - reflexivity.
  - exfalso. rewrite Ea in H. apply (Qlt_not_le _ _ Lb H).
  - now apply round_positive_nonneg.
  - assert (Hn : (0 < - a)%Q) by (apply (Qopp_lt_compat a 0); exact La).
    apply (num_leb_neg (Fin 0)). now apply round_positive_nonneg.
  - assert (Hn : (0 < - b)%Q) by (apply (Qopp_lt_compat b 0); exact Lb).
    apply num_leb_neg. apply round_positive_mono; [exact Hn|].
    now apply Qopp_le_compat.
  - assert (Hn : (0 < - a)%Q) by (apply (Qopp_lt_compat a 0); exact La).
    destruct (round_positive_cases _ Hn) as [->|(r & -> & Hr)];
      destruct (round_positive_cases _ Gb) as [->|(r' & -> & Hr')];
      try reflexivity.
    unfold num_leb, num_lt, num_neg. rewrite negb_involutive.
    apply Qle_bool_iff. eapply Qle_trans; [|exact Hr'].
    apply (Qopp_le_compat 0 r). exact Hr.
  - exfalso. rewrite Eb in H. apply (Qlt_not_le _ _ Ga H).
  - exfalso. apply (Qlt_not_le _ _ Ga). eapply Qle_trans; [exact H|].
    now apply Qlt_le_weak.
  - now apply round_positive_mono.
Qed.

Lemma pow2_lt_inv a b : (pow2 a < pow2 b)%Q -> a < b.
Proof.
  intros H. destruct (Z_lt_le_dec a b) as [Hlt|Hle]; [exact Hlt|exfalso].
  apply (Qlt_not_le _ _ H). now apply pow2_le.
Qed.

(** An integer of at most 53 bits lies on the grid it is rounded to. *)
Lemma whole_on_grid z :
  0 < z <= 2 ^ 53 ->
  exists k, (inject_Z z == inject_Z k * pow2 (quantum (inject_Z z)))%Q.
Proof.
  intros Hz.
  assert (Hq : (0 < inject_Z z)%Q).
  { change 0%Q with (inject_Z 0). rewrite <- Zlt_Qlt. lia. }
  destruct (Qlog2_spec _ Hq) as [Lo Hi].
  set (e := Qlog2 (inject_Z z)) in *.
  assert (He0 : 0 <= e).
  { assert (H : (pow2 0 < pow2 (e + 1))%Q).
    { eapply Qle_lt_trans; [|exact Hi]. change (pow2 0) with (inject_Z 1).
      rewrite <- Zle_Qle. lia. }
    apply pow2_lt_inv in H. lia. }
  assert (He53 : e <= 53).
  { assert (H : (pow2 e < pow2 54)%Q).
    { eapply Qle_lt_trans; [exact Lo|]. rewrite (pow2_Z 54) by lia.
      rewrite <- Zlt_Qlt. lia. }
    apply pow2_lt_inv in H. lia. }
  unfold quantum. fold e.
  replace (Z.max (e - 52) (-1074)) with (e - 52) by lia.
  destruct (Z.eq_dec e 53) as [E|NE].
  - rewrite E in *. exists (2 ^ 52).
    rewrite (pow2_Z 53) in Lo by lia. rewrite <- Zle_Qle in Lo.
    replace z with (2 ^ 53) by lia. reflexivity.
  - exists (z * 2 ^ (52 - e)).
    rewrite inject_Z_mult, <- pow2_Z by lia.
    rewrite <- Qmult_assoc, <- pow2_plus.
    replace (52 - e + (e - 52)) with 0 by lia.
    change (pow2 0) with 1%Q. now rewrite Qmult_1_r.
Qed.

Lemma round_positive_whole z :
  0 < z <= 2 ^ 53 -> round_positive (inject_Z z) = of_Z z.
Proof.
  intros Hz. destruct (whole_on_grid z Hz) as [k Hk].
  unfold round_positive. fold (quantum (inject_Z z)).
  pose proof (round_to_multiple_fixed _ k _ Hk) as Hr.
  replace (Qle_bool (pow2 1024) (round_to_multiple (quantum (inject_Z z)) (inject_Z z)))
    with false.
  - unfold of_Z. f_equal. rewrite (Qred_complete _ _ Hr). apply Qred_inject_Z.
  - symmetry. apply not_true_is_false. intros H. apply Qle_bool_iff in H.
    rewrite Hr in H.
    assert (H53 : (pow2 54 <= pow2 1024)%Q) by (apply pow2_le; lia).
    rewrite (pow2_Z 54) in H53 by lia.
    assert (Hc : (inject_Z (2 ^ 54) <= inject_Z z)%Q) by (eapply Qle_trans; eassumption).
    rewrite <- Zle_Qle in Hc. lia.
Qed.

(** Integers of magnitude at most [2^53] are Numbers: rounding leaves them
    as they are. *)
Lemma round64_whole q z :
  (q == inject_Z z)%Q -> - 2 ^ 53 <= z <= 2 ^ 53 -> round64 q = of_Z z.
Proof.
  intros Hq Hz. rewrite (round64_comp _ _ Hq). unfold round64.
  rewrite Qred_inject_Z.
  destruct (Qcompare_spec (inject_Z z) 0) as [E|L|G].
  - unfold of_Z. f_equal. unfold Qeq in E. cbn in E.
    assert (z = 0) by lia. now subst z.
  - change 0%Q with (inject_Z 0) in L. rewrite <- Zlt_Qlt in L.
    change (- inject_Z z)%Q with (inject_Z (- z)).
    rewrite round_positive_whole by lia.
    unfold of_Z, num_neg. f_equal.
    change (- inject_Z (- z))%Q with (inject_Z (- - z)). now rewrite Z.opp_involutive.
  - change 0%Q with (inject_Z 0) in G. rewrite <- Zlt_Qlt in G.
    apply round_positive_whole. lia.
Qed.

Lemma round_half_even_upper x : (inject_Z (round_half_even x) <= x + (1 # 2))%Q.
Proof.
  unfold round_half_even.
  pose proof (Qfloor_le x) as Hf. set (k := Qfloor x) in *.
  destruct (Qcompare_spec (x - inject_Z k) (1 # 2)) as [E|L|G].
  - assert (Hk : (inject_Z (k + 1) == inject_Z k + 1)%Q) by (rewrite inject_Z_plus; reflexivity).
    destruct (Z.even k); lra.
  - lra.
  - assert (Hk : (inject_Z (k + 1) == inject_Z k + 1)%Q) by (rewrite inject_Z_plus; reflexivity).
    lra.
Qed.

Lemma Qfloor_unique y f :
  (inject_Z f <= y)%Q -> (y < inject_Z (f + 1))%Q -> Qfloor y = f.
Proof.
  intros Lo Hi.
  assert (H1 : f <= Qfloor y).
  { rewrite <- (Qfloor_Z f). now apply Qfloor_resp_le. }
  assert (H2 : Qfloor y < f + 1).
  { rewrite Zlt_Qlt. eapply Qle_lt_trans; [apply Qfloor_le|exact Hi]. }
  lia.
Qed.

(** Rounding a positive number of thousandths below [2^44] does not move
    it past a whole number: the floor is the floor of the exact quotient. *)
Lemma rounded_thousandths_floor n :
  0 < n <= 2 ^ 53 ->
  forall q, (q == n # 1000)%Q ->
  Qfloor (round_to_multiple (quantum q) q) = n / 1000.
Proof.
  intros Hn q Hq.
  assert (Hpos : (0 < q)%Q).
  { rewrite Hq. unfold Qlt. cbn. lia. }
  assert (Hfl : Qfloor q = n / 1000).
  { rewrite (Qfloor_comp _ _ Hq). reflexivity. }
  set (f := n / 1000) in *.
  pose proof (Z.div_mod n 1000 ltac:(lia)) as Hdm.
  pose proof (Z.mod_pos_bound n 1000 ltac:(lia)) as Hmod.
  fold f in Hdm. set (sg := n mod 1000) in *.
  (* the quantum is at most 2^-9 *)
  destruct (Qlog2_spec q Hpos) as [Lo _].
  assert (He : Qlog2 q < 44).
  { apply pow2_lt_inv. eapply Qle_lt_trans; [exact Lo|].
    rewrite Hq, (pow2_Z 44) by lia. unfold Qlt. cbn. lia. }
  assert (Hp : quantum q <= -9) by (unfold quantum; lia).
  assert (Hp' : -1074 <= quantum q) by (unfold quantum; lia).
  set (p := quantum q) in *.
  (* whole numbers are on the grid *)
  assert (Hgrid : forall k, (round_to_multiple p (inject_Z k) == inject_Z k)%Q).
  { intros k. apply (round_to_multiple_fixed p (k * 2 ^ (- p))).
    rewrite inject_Z_mult, <- pow2_Z by lia.
    rewrite <- Qmult_assoc, <- pow2_plus.
    replace (- p + p) with 0 by lia. change (pow2 0) with 1%Q.
    now rewrite Qmult_1_r. }
  apply Qfloor_unique.
  - rewrite <- (Hgrid f). apply round_to_multiple_mono.
    rewrite <- Hfl. apply Qfloor_le.
  - destruct (Z.eq_dec sg 0) as [E0|N0].
    + assert (Hint : (q == inject_Z f)%Q).
      { rewrite Hq. unfold Qeq. cbn. lia. }
      rewrite (round_to_multiple_fixed p (f * 2 ^ (- p)) q).
      * rewrite Hint, <- Zlt_Qlt. lia.
      * rewrite Hint, inject_Z_mult, <- pow2_Z by lia.
        rewrite <- Qmult_assoc, <- pow2_plus.
        replace (- p + p) with 0 by lia. change (pow2 0) with 1%Q.
        now rewrite Qmult_1_r.
    + unfold round_to_multiple.
      eapply Qle_lt_trans.
      { apply Qmult_le_compat_r; [apply round_half_even_upper|].
        apply Qlt_le_weak, pow2_pos. }
      assert (Hne : ~ (pow2 p == 0)%Q).
      { intros E. pose proof (pow2_pos p) as H. rewrite E in H. discriminate. }
      setoid_replace ((q / pow2 p + (1 # 2)) * pow2 p)%Q
        with (q + (1 # 2) * pow2 p)%Q by (field; exact Hne).
      assert (Hhalf : ((1 # 2) * pow2 p <= 1 # 1024)%Q).
      { setoid_replace (1 # 1024)%Q with ((1 # 2) * pow2 (-9))%Q by reflexivity.
        apply Qmult_le_l; [reflexivity|]. now apply pow2_le. }
      eapply Qle_lt_trans; [apply Qplus_le_r; exact Hhalf|].
      rewrite Hq. unfold Qlt, Qplus, inject_Z. cbn. lia.
Qed.

(** The Number nearest to an integer is an integer or an infinity. *)
Lemma round_positive_integral z :
  0 < z ->
  round_positive (inject_Z z) = PInf \/
  exists d, round_positive (inject_Z z) = of_Z d.
Proof.
  intros Hz.
  assert (Hq : (0 < inject_Z z)%Q).
  { change 0%Q with (inject_Z 0). rewrite <- Zlt_Qlt. lia. }
  destruct (Z_lt_le_dec (quantum (inject_Z z)) 0) as [Hneg|Hpos].
  - right. exists z. apply round_positive_whole. split; [lia|].
    destruct (Qlog2_spec _ Hq) as [_ Hi].
    assert (He : Qlog2 (inject_Z z) + 1 <= 52) by (unfold quantum in Hneg; lia).
    assert (H : (inject_Z z < inject_Z (2 ^ 52))%Q).
    { eapply Qlt_le_trans; [exact Hi|]. rewrite <- (pow2_Z 52) by lia.
      now apply pow2_le. }
    rewrite <- Zlt_Qlt in H. lia.
  - unfold round_positive.
    destruct (Qle_bool (pow2 1024)
                (round_to_multiple (quantum (inject_Z z)) (inject_Z z)));
      [now left|right].
    unfold round_to_multiple.
    set (k := round_half_even (inject_Z z / pow2 (quantum (inject_Z z)))).
    exists (k * 2 ^ quantum (inject_Z z)). unfold of_Z. f_equal.
    transitivity (Qred (inject_Z (k * 2 ^ quantum (inject_Z z))));
      [|apply Qred_inject_Z].
    apply Qred_complete.
    rewrite inject_Z_mult, (pow2_Z _ Hpos). reflexivity.
Qed.

Lemma round64_integral z :
  round64 (inject_Z z) = PInf \/ round64 (inject_Z z) = NInf \/
  exists d, round64 (inject_Z z) = of_Z d.
Proof.
  unfold round64. rewrite Qred_inject_Z.
  destruct (Qcompare_spec (inject_Z z) 0) as [E|L|G].
  - right. right. now exists 0.
  - change 0%Q with (inject_Z 0) in L. rewrite <- Zlt_Qlt in L.
    change (- inject_Z z)%Q with (inject_Z (- z)).
    destruct (round_positive_integral (- z)) as [->|[d ->]]; [lia| |].
    + right. now left.
    + right. right. exists (- d). unfold of_Z, num_neg. f_equal.
  - change 0%Q with (inject_Z 0) in G. rewrite <- Zlt_Qlt in G.
    destruct (round_positive_integral z G) as [->|[d ->]].
    + now left.
    + right. right. now exists d.
Qed.

(** Rounding never gives NaN. *)
Lemma round64_not_nan q : round64 q <> NaN.
Proof.
  unfold round64, round_positive.
  destruct (Qred q ?= 0)%Q; try discriminate.
  - destruct (Qle_bool _ _); discriminate.
  - destruct (Qle_bool _ _); discriminate.
Qed.

(** ** Conversions *)

Lemma to_number_to_string v x :
  to_number v = Some x -> exists t, to_string v = Some t.
Proof.
  destruct v as [| |b|y|t|items|fields]; intros H.
  - eexists; reflexivity.
  - eexists; reflexivity.
  - destruct b; eexists; reflexivity.
  - eexists; reflexivity.
  - eexists; reflexivity.
  - unfold to_number in H. destruct (to_string (VArray items)); [eauto|discriminate].
  - unfold to_number in H. destruct (to_string (VObject fields)); [eauto|discriminate].
Qed.

(** ** Decimal notation *)

Lemma span_digits_codes u :
  exists ds, span_digits 10 (codes_of_uint u) = (ds, []) /\
    (forall acc, fold_left (digit_step 10) ds (Zpos acc) = Zpos (Pos.of_uint_acc u acc)) /\
    fold_left (digit_step 10) ds 0 = Z.of_N (Pos.of_uint u).
Proof.
  induction u as [|u IH|u IH|u IH|u IH|u IH|u IH|u IH|u IH|u IH|u IH];
    [exists []; repeat split; reflexivity| ..];
    destruct IH as (ds & Hs & Hacc & H0);
    cbn [codes_of_uint span_digits]; rewrite Hs;
    (eexists; split; [reflexivity|]); split;
    try (intros acc; cbn [fold_left Pos.of_uint_acc]; rewrite <- Hacc; f_equal;
         unfold digit_step; lia);
    cbn [fold_left Pos.of_uint]; try exact H0;
    cbn; rewrite <- Hacc; reflexivity.
Qed.

Lemma span_digits_nonempty u ds :
  u <> Decimal.Nil -> span_digits 10 (codes_of_uint u) = (ds, []) -> ds <> [].
Proof.
  intros Hu Hs ->.
  destruct u; [congruence| ..]; cbn in Hs;
    destruct (span_digits 10 (codes_of_uint u)); discriminate.
Qed.

Lemma parse_int_digits u :
  u <> Decimal.Nil ->
  parse_int_string (codes_of_uint u)
  = round64 (inject_Z (Z.of_N (Pos.of_uint u))) /\
  parse_int_string (45%N :: codes_of_uint u)
  = round64 (inject_Z (- Z.of_N (Pos.of_uint u))).
Proof.
  intros Hu.
  destruct (span_digits_codes u) as (ds & Hs & _ & H0).
  pose proof (span_digits_nonempty u ds Hu Hs) as Hds.
  split.
  - unfold parse_int_string, trim_start.
    destruct u; [congruence| ..]; cbn [drop_ws codes_of_uint] in *; cbn [is_ws];
      rewrite Hs; (destruct ds as [|d ds]; [congruence|]);
      unfold digits_value; rewrite H0; reflexivity.
  - unfold parse_int_string, trim_start. cbn [drop_ws is_ws]. rewrite Hs.
    destruct ds as [|d ds]; [congruence|].
    unfold digits_value. rewrite H0. reflexivity.
Qed.

Lemma to_uint_not_nil p : Pos.to_uint p <> Decimal.Nil.
Proof.
  intros H. pose proof (DecimalPos.Unsigned.of_to p) as Hp.
  rewrite H in Hp. discriminate.
Qed.

(** [parseInt] reads back the integer that [toString] printed, rounded. *)
Lemma parse_int_string_int_to_string m :
  parse_int_string (int_to_string m) = round64 (inject_Z m).
Proof.
  destruct m as [|p|p]; [reflexivity| |]; cbn [int_to_string];
    destruct (parse_int_digits (Pos.to_uint p) (to_uint_not_nil p)) as [H1 H2];
    rewrite ?H1, ?H2, DecimalPos.Unsigned.of_to; reflexivity.
Qed.

Lemma round64_of_Z z : - 2 ^ 53 <= z <= 2 ^ 53 -> round64 (inject_Z z) = of_Z z.
Proof. intros Hz. now apply round64_whole. Qed.

Lemma number_to_string_int m :
  - 10 ^ 21 < m < 10 ^ 21 ->
  number_to_string (of_Z m) = int_to_string m.
Proof.
  intros Hm. unfold number_to_string, of_Z, is_integer.
  cbn [Qnum Qden inject_Z]. rewrite Z.mod_1_r. cbn [Z.eqb andb].
  replace (Qle_bool (Qabs (inject_Z m)) (inject_Z (10 ^ 21 - 1))) with true.
  - now rewrite Qfloor_Z.
  - symmetry. apply Qle_bool_iff. unfold Qabs, inject_Z. cbn [Qnum Qden].
    unfold Qle. cbn [Qnum Qden]. lia.
Qed.

(** A whole number of minutes up to 2^53 is parsed as itself. *)
Lemma parse_int_whole m :
  - 2 ^ 53 <= m <= 2 ^ 53 ->
  parse_int (VNumber (of_Z m)) = Some (of_Z m).
Proof.
  intros Hm. unfold parse_int. cbn [to_string option_map].
  rewrite number_to_string_int by lia.
  now rewrite parse_int_string_int_to_string, round64_of_Z.
Qed.

(** ** Starting an interview *)

Lemma personality_index_in_range r :
  (0 <= r)%Q -> (r < 1)%Q ->
  let idx := Qfloor (r * inject_Z (Z.of_nat (List.length PERSONALITIES)))%Q in
  exists p, (if idx <? 0 then None else nth_error PERSONALITIES (Z.to_nat idx)) = Some p
            /\ In p PERSONALITIES.
Proof.
  intros H0 H1 idx.
  assert (Hlo : 0 <= idx).
  { change 0 with (Qfloor 0). apply Qfloor_resp_le.
    apply Qmult_le_0_compat; [exact H0|]. discriminate. }
  assert (Hhi : idx < 5).
  { rewrite Zlt_Qlt. eapply Qle_lt_trans; [apply Qfloor_le|].
    change (inject_Z 5) with (1 * inject_Z (Z.of_nat (List.length PERSONALITIES)))%Q.
    apply Qmult_lt_compat_r; [reflexivity|exact H1]. }
  clearbody idx.
  destruct (idx <? 0) eqn:Hneg; [apply Z.ltb_lt in Hneg; lia|].
  assert (Hn : (Z.to_nat idx < 5)%nat) by lia.
  destruct (nth_error PERSONALITIES (Z.to_nat idx)) as [p|] eqn:Hp.
  - exists p. split; [reflexivity|]. eapply nth_error_In; eassumption.
  - apply nth_error_None in Hp. cbn in Hp. lia.
Qed.

Lemma num_mul_whole a b :
  - 2 ^ 53 <= a * b <= 2 ^ 53 -> num_mul (of_Z a) (of_Z b) = of_Z (a * b).
Proof.
  intros H. unfold num_mul, of_Z. apply round64_whole; [|exact H].
  now rewrite inject_Z_mult.
Qed.

(** C6 (amended).  A start request whose duration converts to a number [x]
    without raising is rejected with 400 "Invalid input", the session
    untouched, exactly when type or resume is missing (not truthy) or the
    duration is missing, not a number, or at most zero.  Otherwise it is
    answered with [{success: true}] and the session holds the profile, the
    clock reading as start_time, sixty times [parseInt(duration, 10)] as
    duration_seconds, one of the five personalities, an empty history and a
    null current_question.  Sixty times [parseInt(duration, 10)] is the
    duration in seconds when the duration is a whole number [m] of minutes
    given as a Number or spelled in decimal digits, with [60 * m] at most
    2^53. *)
Theorem start_validation_and_state b e n s x :
  to_number (body_duration b) = Some x ->
  let r := run (api_start b) e n s in
  if negb (truthy (body_type b)) || negb (truthy (body_resume b))
     || negb (truthy (body_duration b)) || num_is_nan x || num_leb x (of_Z 0)
  then
    r = {| outcome := Some (respond 400 (Error (lit "Invalid input")));
           final := s; calls := []; detached := []; saved := []; ticks := n |}
  else
    outcome r = Some (respond 200 Success) /\
    calls r = [] /\ detached r = [] /\
    profile (final r) = Some {| type := body_type b; resume := body_resume b |} /\
    start_time (final r) = Some (clock e n) /\
    (exists t, to_string (body_duration b) = Some t /\
               duration_seconds (final r)
               = Num (num_mul (parse_int_string t) (of_Z 60))) /\
    (forall m, 0 < m -> m * 60 <= 2 ^ 53 ->
               body_duration b = VNumber (of_Z m) \/
               body_duration b = VString (int_to_string m) ->
               duration_seconds (final r) = Num (of_Z (m * 60))) /\
    ((0 <= random e (S n))%Q -> (random e (S n) < 1)%Q ->
     exists p, personality (final r) = Some p /\ In p PERSONALITIES) /\
    history (final r) = Some [] /\
    current_question (final r) = VNull.
Proof.
  intros Hx r. subst r.
  destruct (to_number_to_string _ _ Hx) as [t Ht].
  unfold api_start, parse_int, getRandomPersonality.
  destruct (negb (truthy (body_type b)) || negb (truthy (body_resume b))
            || negb (truthy (body_duration b))) eqn:Hfalsy.
  - reflexivity.
  - rewrite Hx, Ht. cbn [orb option_map]. run_step.
    destruct (num_is_nan x) eqn:Hnan; [reflexivity|]. run_step.
    destruct (num_leb x (of_Z 0)) eqn:Hle; [reflexivity|]. run_step.
    cbn [set_profile set_duration_seconds set_start_time set_personality
         set_history set_current_question profile duration_seconds start_time
         personality history current_question current_question_started_at].
    repeat split.
    + exists t. split; reflexivity.
    + intros m Hm Hm60 [Hd|Hd]; rewrite Hd in Ht; cbn [to_string] in Ht;
        rewrite ?number_to_string_int in Ht by lia;
        injection Ht as <-;
        rewrite parse_int_string_int_to_string, round64_of_Z by lia;
        now rewrite num_mul_whole by lia.
    + intros H0 H1. apply personality_index_in_range; assumption.
Qed.

(** ** The question asked *)

Lemma or_else_truthy a b : truthy b = true -> truthy (or_else a b) = true.
Proof. intros Hb. unfold or_else. destruct (truthy a) eqn:Ha; assumption. Qed.



Lemma ask_run msgs e n s :
  run (ask msgs) e n s =
  match chat e n (ask_request msgs) with
  | ChatFailed =>
      {| outcome := Some (respond 500 (Error (lit "Failed to generate question")));
         final := s; calls := [ChatCall (ask_request msgs)];
         detached := []; saved := []; ticks := S n |}
  | Content c =>
      let q := or_else (get_prop (extractJson (trim c)) (lit "question"))
                       default_question in
      {| outcome := Some (respond 200 (Question q));
         final := set_current_question_started_at (Some (clock e (S n)))
                    (set_current_question q s);
         calls := [ChatCall (ask_request msgs)];
         detached := []; saved := []; ticks := S (S n) |}
  end.
Proof.
  unfold ask. run_step.
  destruct (chat e n (ask_request msgs)) as [c|]; reflexivity.
Qed.


(** ** The prompt *)

Lemma build_messages_pure p e n s :
  final (run (build_messages p) e n s) = s /\
  detached (run (build_messages p) e n s) = [] /\
  saved (run (build_messages p) e n s) = [].
Proof.
  unfold build_messages, secondsLeft, summarizeOld.
  crunch; repeat split; reflexivity.
Qed.

(** *** The entries quoted *)

Lemma format_items_quoted l ts :
  format_items l = Some ts -> Forall2 (fun it text => quoted it text) l ts.
Proof.
  revert ts. induction l as [|it l IH]; intros ts H; cbn [format_items] in H.
  - injection H as <-. constructor.
  - unfold format_item in H.
    destruct (to_string (question it)) as [q|] eqn:Hq; [|discriminate].
    destruct (format_items l) as [ts'|]; [|discriminate].
    injection H as <-. constructor; [|now apply IH].
    exists q. split; [exact Hq|reflexivity].
Qed.

Lemma join_concat (sep : jsstring) (l : list jsstring) :
  l <> [] -> sep ++ join sep l = concat (map (fun t => sep ++ t) l).
Proof.
  induction l as [|x [|y r] IH]; intros Hne; [congruence| |].
  - cbn. now rewrite app_nil_r.
  - change (join sep (x :: y :: r)) with (x ++ sep ++ join sep (y :: r)).
    rewrite IH by discriminate.
    change (map (fun t => sep ++ t) (x :: y :: r))
      with ((sep ++ x) :: map (fun t => sep ++ t) (y :: r)).
    cbn [concat]. now rewrite <- app_assoc.
Qed.

(** A block of quoted entries: every entry is quoted, each quote after a
    blank line. *)
Lemma format_block_quoted l block :
  l <> [] -> format_block l = Some block ->
  exists ts, Forall2 (fun it text => quoted it text) l ts /\
             [10%N; 10%N] ++ block = concat (map (fun t => [10%N; 10%N] ++ t) ts).
Proof.
  intros Hne H. unfold format_block in H.
  destruct (format_items l) as [ts|] eqn:Hts; [|discriminate].
  injection H as <-. exists ts.
  pose proof (format_items_quoted _ _ Hts) as Hq. split; [exact Hq|].
  apply (join_concat [10%N; 10%N]).
  intros ->. inversion Hq. congruence.
Qed.

Lemma format_block_five i1 i2 i3 i4 i5 block :
  format_block [i1; i2; i3; i4; i5] = Some block ->
  exists t1 t2 t3 t4 t5,
    quoted i1 t1 /\ quoted i2 t2 /\ quoted i3 t3 /\ quoted i4 t4 /\ quoted i5 t5 /\
    block = t1 ++ [10%N; 10%N] ++ t2 ++ [10%N; 10%N] ++ t3 ++ [10%N; 10%N] ++ t4
            ++ [10%N; 10%N] ++ t5.
Proof.
  intros H. unfold format_block in H.
  destruct (format_items [i1; i2; i3; i4; i5]) as [ts|] eqn:Hts; [|discriminate].
  injection H as <-.
  pose proof (format_items_quoted _ _ Hts) as Hq.
  inversion Hq as [|? t1 ? ? H1 Hq1]; subst.
  inversion Hq1 as [|? t2 ? ? H2 Hq2]; subst.
  inversion Hq2 as [|? t3 ? ? H3 Hq3]; subst.
  inversion Hq3 as [|? t4 ? ? H4 Hq4]; subst.
  inversion Hq4 as [|? t5 ? ? H5 Hq5]; subst.
  inversion Hq5; subst.
  exists t1, t2, t3, t4, t5. repeat split; assumption.
Qed.

Lemma list_of_five {A : Type} (l : list A) :
  List.length l = 5%nat -> exists a b c d e, l = [a; b; c; d; e].
Proof.
  destruct l as [|a [|b [|c [|d [|e [|f r]]]]]]; try discriminate.
  intros _. now exists a, b, c, d, e.
Qed.

Lemma slice_split {A : Type} (k : nat) (l : list A) :
  l = slice_but_last k l ++ slice_last k l.
Proof. unfold slice_but_last, slice_last. now rewrite firstn_skipn. Qed.

Lemma slice_last_length {A : Type} (k : nat) (l : list A) :
  (k <= List.length l)%nat -> List.length (slice_last k l) = k.
Proof. intros H. unfold slice_last. rewrite length_skipn. lia. Qed.

Lemma slice_but_last_nonempty {A : Type} (k : nat) (l : list A) :
  (k < List.length l)%nat -> slice_but_last k l <> [].
Proof.
  intros H E. apply (f_equal (@List.length A)) in E.
  unfold slice_but_last in E. rewrite length_firstn in E. cbn in E. lia.
Qed.

(** The reading of [secondsLeft] when the clock shows [now]. *)
Lemma seconds_left_outcome e n s :
  outcome (run secondsLeft e n s)
  = Some (num_max (of_Z 0)
            (num_floor (num_div (num_sub (end_time s) (of_Z (clock e n)))
                                (of_Z 1000)))).
Proof. reflexivity. Qed.

Lemma build_messages_long p e n s h msgs :
  history s = Some h -> (5 < List.length h)%nat ->
  outcome (run (build_messages p) e n s) = Some msgs ->
  exists typeStr resumeStr sparse left older c recent,
    to_string (or_else (type p) (VString [])) = Some typeStr /\
    to_string (or_else (resume p) (VString [])) = Some resumeStr /\
    profile_sparse (or_else (resume p) (VString [])) (or_else (type p) (VString []))
    = Some sparse /\
    outcome (run secondsLeft e n s) = Some left /\
    format_block (slice_but_last 5 h) = Some older /\
    chat e (S n) (summary_request older) = Content c /\
    calls (run (build_messages p) e n s) = [ChatCall (summary_request older)] /\
    format_block (slice_last 5 h) = Some recent /\
    msgs = opening_messages (personality s) typeStr resumeStr left sparse
           ++ [summary_message (trim c); last_five_message recent; ask_message].
Proof.
  intros Hh Hlen.
  pose proof (slice_but_last_nonempty 5 h Hlen) as Hne.
  apply Nat.ltb_lt in Hlen.
  assert (Hpos : (0 <? List.length h)%nat = true)
    by (apply Nat.ltb_lt; apply Nat.ltb_lt in Hlen; lia).
  rewrite seconds_left_outcome.
  unfold build_messages, secondsLeft, summarizeOld. run_step. rewrite Hh.
  crunch; intros Hout; try discriminate; try congruence.
  injection Hout as <-.
  repeat eexists; try eassumption; reflexivity.
Qed.

Lemma build_messages_calls p e n s c :
  In c (calls (run (build_messages p) e n s)) ->
  exists block, c = ChatCall (summary_request block).
Proof.
  unfold build_messages, secondsLeft, summarizeOld.
  crunch; cbn [In]; intros H; try contradiction;
    destruct H as [<-|[]]; eexists; reflexivity.
Qed.

Lemma ask_calls msgs e n s :
  calls (run (ask msgs) e n s) = [ChatCall (ask_request msgs)].
Proof.
  rewrite ask_run. destruct (chat e n (ask_request msgs)); reflexivity.
Qed.

Lemma generate_question_run p e n s :
  run (generate_question p) e n s =
  match outcome (run (build_messages p) e n s) with
  | Some msgs =>
      let r' := run (ask msgs) e (ticks (run (build_messages p) e n s)) s in
      {| outcome := outcome r'; final := final r';
         calls := calls (run (build_messages p) e n s) ++ [ChatCall (ask_request msgs)];
         detached := detached r'; saved := []; ticks := ticks r' |}
  | None =>
      {| outcome := None; final := s;
         calls := calls (run (build_messages p) e n s); detached := []; saved := [];
         ticks := ticks (run (build_messages p) e n s) |}
  end.
Proof.
  unfold generate_question. rewrite run_bind.
  destruct (build_messages_pure p e n s) as (Hf & Hd & Hs). rewrite Hf, Hd, Hs.
  destruct (outcome (run (build_messages p) e n s)) as [msgs|]; [|reflexivity].
  cbn zeta. rewrite ask_run.
  destruct (chat e _ (ask_request msgs)); reflexivity.
Qed.

Lemma question_request_long p e n s h req :
  history s = Some h -> (5 < List.length h)%nat ->
  In (ChatCall req) (calls (run (generate_question p) e n s)) ->
  temperature req = 7 # 10 ->
  exists typeStr resumeStr sparse left older c recent,
    to_string (or_else (type p) (VString [])) = Some typeStr /\
    to_string (or_else (resume p) (VString [])) = Some resumeStr /\
    profile_sparse (or_else (resume p) (VString [])) (or_else (type p) (VString []))
    = Some sparse /\
    outcome (run secondsLeft e n s) = Some left /\
    format_block (slice_but_last 5 h) = Some older /\
    calls (run (generate_question p) e n s)
    = [ChatCall (summary_request older); ChatCall req] /\
    chat e (S n) (summary_request older) = Content c /\
    format_block (slice_last 5 h) = Some recent /\
    req = ask_request
            (opening_messages (personality s) typeStr resumeStr left sparse
             ++ [summary_message (trim c); last_five_message recent; ask_message]).
Proof.
  intros Hh Hlen Hin Htemp.
  rewrite generate_question_run in *.
  destruct (outcome (run (build_messages p) e n s)) as [msgs|] eqn:Hout;
    cbn [calls] in *.
  - destruct (build_messages_long p e n s h msgs Hh Hlen Hout)
      as (typeStr & resumeStr & sparse & left & older & c & recent &
          Ht & Hr & Hs & Hl & Ho & Hc & Hcalls & Hrec & Hm).
    rewrite Hcalls in *. cbn [app In] in Hin.
    destruct Hin as [Hin|[Hin|[]]]; injection Hin as <-.
    + discriminate Htemp.
    + exists typeStr, resumeStr, sparse, left, older, c, recent.
      repeat split; try assumption.
      now rewrite Hm.
  - apply build_messages_calls in Hin. destruct Hin as [block Hb].
    injection Hb as ->. discriminate Htemp.
Qed.

(** C4.  With more than five entries in the history, asking for the next
    question makes two requests.  The first asks for a summary of all the
    entries but the last five, each quoted after a blank line.  The second
    (the one sent at temperature 0.7) carries exactly five messages: the
    instructions, the profile, the trimmed summary received, the last five
    entries quoted, and the closing instruction.  Nothing else of the
    history enters it: a history of any other length with the same last
    five entries, read at the same time and summarised by the same text,
    gives the same request. *)
Theorem prompt_compacts_older_history p e n s h req :
  history s = Some h -> (5 < List.length h)%nat ->
  In (ChatCall req) (calls (run (generate_question p) e n s)) ->
  temperature req = 7 # 10 ->
  (exists older i1 i2 i3 i4 i5 told t1 t2 t3 t4 t5 c typeStr resumeStr sparse left,
     h = older ++ [i1; i2; i3; i4; i5] /\ older <> [] /\
     Forall2 (fun it text => quoted it text) older told /\
     quoted i1 t1 /\ quoted i2 t2 /\ quoted i3 t3 /\ quoted i4 t4 /\
     quoted i5 t5 /\
     let summary :=
       {| model := OPENAI_MODEL;
          messages :=
            [ {| role := user;
                 content :=
                   lit "Summarize the following earlier interview exchanges (questions, answers, weaknesses) " ++
                   lit "in two brief sentences, focusing on overall strengths and weaknesses:" ++
                   concat (map (fun text => [10%N; 10%N] ++ text) told) |} ];
          temperature := 5 # 10 |} in
     calls (run (generate_question p) e n s) = [ChatCall summary; ChatCall req] /\
     chat e (S n) summary = Content c /\
     outcome (run secondsLeft e n s) = Some left /\
     model req = OPENAI_MODEL /\
     messages req =
       opening_messages (personality s) typeStr resumeStr left sparse ++
       [ {| role := user;
            content := lit "Brief summary of earlier exchanges:" ++ [10%N] ++ trim c |};
         {| role := user;
            content :=
              lit "Last five Q&A and weaknesses:" ++ [10%N] ++
              t1 ++ [10%N; 10%N] ++ t2 ++ [10%N; 10%N] ++ t3 ++ [10%N; 10%N] ++
              t4 ++ [10%N; 10%N] ++ t5 |};
         {| role := user; content := lit "Ask the next question now." |} ] /\
     List.length (messages req) = 5%nat) /\
  (forall h' e' req',
     (5 < List.length h')%nat -> slice_last 5 h' = slice_last 5 h ->
     clock e' n = clock e n ->
     (forall b c b' c',
        chat e (S n) (summary_request b) = Content c ->
        chat e' (S n) (summary_request b') = Content c' -> trim c' = trim c) ->
     In (ChatCall req') (calls (run (generate_question p) e' n (set_history h' s))) ->
     temperature req' = 7 # 10 ->
     req' = req).
Proof.
  intros Hh Hlen Hin Htemp.
  destruct (question_request_long p e n s h req Hh Hlen Hin Htemp)
    as (typeStr & resumeStr & sparse & left & older & c & recent &
        Ht & Hr & Hs & Hl & Ho & Hcalls & Hc & Hrec & Hreq).
  split.
  - destruct (list_of_five (slice_last 5 h)) as (i1 & i2 & i3 & i4 & i5 & H5);
      [apply slice_last_length; lia|].
    rewrite H5 in Hrec.
    destruct (format_block_five _ _ _ _ _ _ Hrec)
      as (t1 & t2 & t3 & t4 & t5 & Q1 & Q2 & Q3 & Q4 & Q5 & Hrecent).
    pose proof (slice_but_last_nonempty 5 h Hlen) as Hne.
    destruct (format_block_quoted _ _ Hne Ho) as (told & Hold & Hblock).
    exists (slice_but_last 5 h), i1, i2, i3, i4, i5, told, t1, t2, t3, t4, t5, c,
           typeStr, resumeStr, sparse, left.
    split; [rewrite <- H5; apply slice_split|].
    split; [exact Hne|]. split; [exact Hold|].
    split; [exact Q1|]. split; [exact Q2|]. split; [exact Q3|].
    split; [exact Q4|]. split; [exact Q5|].
    assert (Hsum :
      summary_request older =
      {| model := OPENAI_MODEL;
         messages :=
           [ {| role := user;
                content :=
                  lit "Summarize the following earlier interview exchanges (questions, answers, weaknesses) " ++
                  lit "in two brief sentences, focusing on overall strengths and weaknesses:" ++
                  concat (map (fun text => [10%N; 10%N] ++ text) told) |} ];
         temperature := 5 # 10 |}).
    { unfold summary_request, summary_prompt. rewrite <- Hblock. reflexivity. }
    cbn zeta. rewrite <- Hsum.
    split; [exact Hcalls|]. split; [exact Hc|]. split; [exact Hl|].
    rewrite Hreq. split; [reflexivity|].
    split; [|reflexivity].
    cbn [ask_request messages]. rewrite Hrecent. reflexivity.
  - intros h' e' req' Hlen' Hlast Hclock Hsame Hin' Htemp'.
    destruct (question_request_long p e' n (set_history h' s) h' req'
                eq_refl Hlen' Hin' Htemp')
      as (typeStr' & resumeStr' & sparse' & left' & older' & c' & recent' &
          Ht' & Hr' & Hs' & Hl' & Ho' & _ & Hc' & Hrec' & Hreq').
    rewrite Hreq, Hreq'.
    rewrite seconds_left_outcome in Hl, Hl'.
    injection Hl as <-. injection Hl' as <-.
    replace typeStr' with typeStr by congruence.
    replace resumeStr' with resumeStr by congruence.
    replace sparse' with sparse by congruence.
    replace recent' with recent by congruence.
    rewrite (Hsame older c older' c' Hc Hc'), Hclock.
    reflexivity.
Qed.

(** ** The end of the interview *)

Lemma or_else_idem a b : or_else (or_else a b) b = or_else a b.
Proof.
  unfold or_else. destruct (truthy a) eqn:Ha; [now rewrite Ha|].
  destruct (truthy b); reflexivity.
Qed.

Lemma wordsCount_defined v :
  to_string (or_else v (VString [])) <> None ->
  wordsCount (or_else v (VString [])) <> None.
Proof.
  intros H. unfold wordsCount. rewrite or_else_idem.
  destruct (to_string (or_else v (VString []))); congruence.
Qed.

Lemma profile_sparse_defined resumeText typeText :
  wordsCount resumeText <> None -> wordsCount typeText <> None ->
  profile_sparse resumeText typeText <> None.
Proof.
  unfold profile_sparse. intros Hr Ht.
  destruct (wordsCount resumeText) as [wr|]; [|congruence].
  destruct (wr <? 60)%nat; [discriminate|].
  destruct (wordsCount typeText); [discriminate|congruence].
Qed.

Lemma format_block_defined l :
  Forall (fun it => to_string (question it) <> None) l ->
  format_block l <> None.
Proof.
  unfold format_block. intros H.
  assert (format_items l <> None) as Hi.
  { induction H as [|it l Hit _ IH]; cbn [format_items]; [discriminate|].
    unfold format_item. destruct (to_string (question it)); [|congruence].
    destruct (format_items l); congruence. }
  destruct (format_items l); [discriminate|congruence].
Qed.

Lemma Forall_slices {A : Type} (P : A -> Prop) (k : nat) (l : list A) :
  Forall P l -> Forall P (slice_but_last k l) /\ Forall P (slice_last k l).
Proof.
  intros H. rewrite (slice_split k l) in H. now apply Forall_app in H.
Qed.


Lemma generate_question_outcome p e n s x :
  outcome (run (generate_question p) e n s) = Some x -> payload x <> EndSignal.
Proof.
  rewrite generate_question_run.
  destruct (outcome (run (build_messages p) e n s)) as [msgs|]; [|discriminate].
  cbn [outcome]. rewrite ask_run.
  destruct (chat e _ (ask_request msgs)); cbn [outcome];
    intros H; injection H as <-; discriminate.
Qed.


(** ** Submitting an answer *)

Lemma submit_cases ans e n s :
  let r := run (api_submit_answer ans) e n s in
  (exists a h,
     ans = VString a /\ trim a <> [] /\ profile s <> None /\
     truthy (current_question s) = true /\ history s = Some h /\
     r = {| outcome := Some (respond 200
                           (TimeUp (num_geb (of_Z (clock e (S n))) (end_time s))));
            final := set_current_question_started_at None
                       (set_current_question VNull
                          (set_history (h ++ [new_item s a (clock e n)]) s));
            calls := []; detached := [new_item s a (clock e n)]; saved := [];
            ticks := S (S n) |})
  \/ (final r = s /\ detached r = [] /\ calls r = [] /\
      (outcome r = None \/ exists msg, outcome r = Some (respond 400 (Error msg)))).
Proof.
  intros r. subst r. unfold api_submit_answer.
  crunch;
    try solve [right; repeat split; solve [left; reflexivity | right; eexists; reflexivity]].
  left. do 2 eexists. repeat split; try eassumption; try reflexivity.
  - intros E. rewrite E in *. discriminate.
  - congruence.
  - now apply negb_false_iff.
Qed.

(** C10.  A submission made before the interview started, with no pending
    question, or with an answer that is missing, empty or only white space,
    is answered with 400; the session is exactly what it was, no
    collaborator is called and no weakness analysis is started. *)
Theorem rejected_submission_changes_nothing ans e n s :
  profile s = None \/ truthy (current_question s) = false \/ truthy ans = false
  \/ (exists a, ans = VString a /\ trim a = []) ->
  exists msg, run (api_submit_answer ans) e n s = rejected msg n s.
Proof.
  intros H. unfold api_submit_answer, rejected. run_step.
  destruct (profile s) as [p|]; [|eexists; reflexivity].
  destruct (truthy (current_question s)) eqn:Hq; cbn [negb]; [|eexists; reflexivity].
  destruct (truthy ans) eqn:Ha; cbn [negb]; [|eexists; reflexivity].
  destruct H as [H|[H|[H|[a [-> H]]]]]; try discriminate.
  rewrite H. cbn [nonempty negb]. eexists; reflexivity.
Qed.

Lemma submit_invalid_state ans e n s :
  nullish (current_question s) = true ->
  run (api_submit_answer ans) e n s = rejected (lit "Invalid state") n s.
Proof.
  intros H. unfold api_submit_answer, rejected. run_step.
  destruct (profile s); [|reflexivity].
  destruct (current_question s); try discriminate; reflexivity.
Qed.

Lemma submit_success_clears ans e n s x :
  outcome (run (api_submit_answer ans) e n s) = Some x -> status x = 200 ->
  current_question (final (run (api_submit_answer ans) e n s)) = VNull /\
  current_question_started_at (final (run (api_submit_answer ans) e n s)) = None.
Proof.
  intros Hout Hst.
  destruct (submit_cases ans e n s) as [(a & h & _ & _ & _ & _ & _ & Hr)|(_ & _ & _ & H)].
  - rewrite Hr. split; reflexivity.
  - destruct H as [H|[msg H]]; rewrite H in Hout; [discriminate|].
    injection Hout as <-. discriminate.
Qed.

(** ** The detached analysis *)


Lemma analysis_cases it e n s :
  let r := run (weakness_analysis it) e n s in
  outcome r = Some tt /\ detached r = [] /\
  ((final r = s /\ saved r = []) \/
   exists h idx w, history s = Some h /\
                   final r = set_history (update_at (set_weakness w) idx h) s /\
                   saved r = [final r]).
Proof.
  intros r. subst r. unfold weakness_analysis.
  crunch; split; try reflexivity; split; try reflexivity;
    try (left; split; reflexivity).
  right. do 3 eexists. split; [reflexivity|]. split; reflexivity.
Qed.

(** ** Routes that only read the session *)

Lemma tts_final b e n s : final (run (api_tts b) e n s) = s.
Proof. unfold api_tts. crunch; reflexivity. Qed.

Lemma transcript_final e n s : final (run api_transcript e n s) = s.
Proof. unfold api_transcript. crunch; reflexivity. Qed.

Lemma result_final e n s : final (run api_result e n s) = s.
Proof. unfold api_result. crunch; reflexivity. Qed.

(** [parseInt] gives NaN, an infinity or a whole number. *)
Lemma parse_int_string_whole t :
  num_is_finite (parse_int_string t) = false \/
  exists z, parse_int_string t = of_Z z.
Proof.
  unfold parse_int_string.
  destruct (match trim_start t with
            | 45%N :: r => (true, r)
            | 43%N :: r => (false, r)
            | _ => (false, trim_start t)
            end) as [negative t2].
  destruct (span_digits 10 t2) as [[|d ds] rest]; [now left|].
  destruct (round64_integral
              (if negative then - digits_value 10 (d :: ds)
               else digits_value 10 (d :: ds))) as [->|[->|[z ->]]];
    [now left|now left|right; now exists z].
Qed.

(** Sixty times such a number is again NaN, an infinity or a whole
    number. *)
Lemma times_sixty_whole x :
  num_is_finite x = false \/ (exists z, x = of_Z z) ->
  num_is_finite (num_mul x (of_Z 60)) = false \/
  exists d, num_mul x (of_Z 60) = of_Z d.
Proof.
  intros [H|[z ->]].
  - left. destruct x; try discriminate; reflexivity.
  - unfold num_mul, of_Z.
    rewrite (round64_comp _ (inject_Z (z * 60)))
      by (now rewrite inject_Z_mult).
    destruct (round64_integral (z * 60)) as [->|[->|[d ->]]];
      [now left|now left|right; now exists d].
Qed.

Lemma start_cases b e n s :
  let r := run (api_start b) e n s in
  (outcome r = Some (respond 200 Success) /\
   profile (final r) <> None /\ history (final r) = Some [] /\
   current_question (final r) = VNull /\
   start_time (final r) <> None /\
   exists x, duration_seconds (final r) = Num x /\
             (num_is_finite x = false \/ exists d, x = of_Z d))
  \/ (final r = s /\
      (outcome r = None \/ exists msg, outcome r = Some (respond 400 (Error msg)))).
Proof.
  intros r. subst r. unfold api_start, getRandomPersonality.
  crunch;
    try solve [right; split; [reflexivity|];
               solve [left; reflexivity | right; eexists; reflexivity]].
  - left. repeat split; try discriminate.
    cbn [set_profile set_duration_seconds set_start_time set_personality
         set_history set_current_question duration_seconds].
    eexists. split; [reflexivity|].
    match goal with
    | H : parse_int _ = Some ?x |- _ =>
        unfold parse_int in H;
        destruct (to_string (body_duration b)) as [t|]; [|discriminate H];
        injection H as <-
    end.
    apply times_sixty_whole, parse_int_string_whole.
  - exfalso. unfold parse_int in *.
    match goal with
    | H : to_number _ = Some _ |- _ =>
        destruct (to_number_to_string _ _ H) as [t Ht]
    end.
    rewrite Ht in *. discriminate.
Qed.

Lemma next_question_cases e n s :
  let r := run api_next_question e n s in
  (exists q t, outcome r = Some (respond 200 (Question q)) /\ truthy q = true /\
               final r = set_current_question_started_at (Some t)
                           (set_current_question q s))
  \/ (final r = s /\ gave_question (outcome r) = false).
Proof.
  intros r. subst r. unfold api_next_question.
  assert (Hgen : forall p k,
    (exists q t, outcome (run (generate_question p) e k s) = Some (respond 200 (Question q))
                 /\ truthy q = true
                 /\ final (run (generate_question p) e k s)
                    = set_current_question_started_at (Some t) (set_current_question q s))
    \/ (final (run (generate_question p) e k s) = s
        /\ gave_question (outcome (run (generate_question p) e k s)) = false)).
  { intros p k. rewrite generate_question_run.
    destruct (outcome (run (build_messages p) e k s)) as [msgs|];
      [|right; split; reflexivity].
    cbn zeta. cbn [outcome final]. rewrite ask_run.
    destruct (chat e _ (ask_request msgs)) as [c|]; cbn [outcome final];
      [|right; split; reflexivity].
    left. do 2 eexists. split; [reflexivity|]. split; [|reflexivity].
    apply or_else_truthy. reflexivity. }
  crunch; try solve [right; split; reflexivity]; apply Hgen.
Qed.

(** Only an accepted submission starts an analysis, for the item it
    appended. *)
Lemma detached_cases r e n s :
  detached (run (handler r) e n s) = [] \/
  exists a h,
    r = PostSubmitAnswer (VString a) /\ trim a <> [] /\ profile s <> None /\
    truthy (current_question s) = true /\ history s = Some h /\
    detached (run (handler r) e n s) = [new_item s a (clock e n)] /\
    final (run (handler r) e n s)
    = set_current_question_started_at None
        (set_current_question VNull
           (set_history (h ++ [new_item s a (clock e n)]) s)).
Proof.
  destruct r as [b|b| |ans| |]; cbn [handler].
  - left. unfold api_tts. crunch; reflexivity.
  - left. unfold api_start, getRandomPersonality. crunch; reflexivity.
  - left. unfold api_next_question.
    assert (Hgen : forall p k, detached (run (generate_question p) e k s) = []).
    { intros p k. rewrite generate_question_run.
      destruct (outcome (run (build_messages p) e k s)); [|reflexivity].
      cbn zeta. cbn [detached]. rewrite ask_run.
      destruct (chat e _ _); reflexivity. }
    crunch; try reflexivity; apply Hgen.
  - destruct (submit_cases ans e n s)
      as [(a & h & -> & Ha & Hp & Hq & Hh & Hr)|(_ & Hd & _)]; [|now left].
    right. exists a, h. rewrite Hr. repeat split; assumption.
  - left. unfold api_transcript. crunch; reflexivity.
  - left. unfold api_result. crunch; reflexivity.
Qed.

(** ** The copy in the store *)

Lemma value_ind_nested (P : value -> Prop) :
  P VUndefined -> P VNull -> (forall b, P (VBool b)) ->
  (forall x, P (VNumber x)) -> (forall t, P (VString t)) ->
  (forall items, Forall P items -> P (VArray items)) ->
  (forall fields, Forall (fun kv => P (snd kv)) fields -> P (VObject fields)) ->
  forall v, P v.
Proof.
  intros Hu Hn Hb Hx Hs Ha Ho.
  fix IH 1.
  intros [| |b|x|t|items|fields];
    [exact Hu|exact Hn|apply Hb|apply Hx|apply Hs| |].
  - apply Ha. induction items as [|v items IHl]; constructor; [apply IH|exact IHl].
  - apply Ho. induction fields as [|[k v] fields IHl];
      constructor; [apply IH|exact IHl].
Qed.

Lemma json_value_undefined v : json_value v = VUndefined -> v = VUndefined.
Proof.
  destruct v as [| |b|x|t|items|fields]; cbn [json_value]; try discriminate;
    [reflexivity|].
  destruct (num_is_finite x); discriminate.
Qed.

(** Copying a copy changes nothing. *)
Lemma json_value_idem v : json_value (json_value v) = json_value v.
Proof.
  induction v as [| |b|x|t|items IH|fields IH] using value_ind_nested;
    try reflexivity.
  - destruct x; reflexivity.
  - cbn [json_value]. f_equal. rewrite map_map.
    induction IH as [|v items Hv _ IHl]; [reflexivity|].
    cbn [map]. rewrite IHl. f_equal.
    destruct (json_value v) eqn:Hj; try reflexivity;
      rewrite Hv; reflexivity.
  - cbn [json_value]. f_equal.
    induction IH as [|[k v] fields Hv _ IHl]; [reflexivity|].
    cbn [snd] in Hv.
    destruct (json_value v) eqn:Hj; [exact IHl| | | | | |];
      rewrite Hv, IHl; reflexivity.
Qed.

Lemma json_item_idem it : json_item (json_item it) = json_item it.
Proof. unfold json_item. cbn. now rewrite json_value_idem. Qed.

Lemma json_number_idem o : json_number (json_number o) = json_number o.
Proof.
  destruct o as [| |[| | |q]]; reflexivity.
Qed.

Lemma json_copy_idem s : json_copy (json_copy s) = json_copy s.
Proof.
  unfold json_copy.
  cbn [profile duration_seconds start_time personality history current_question
       current_question_started_at].
  rewrite json_value_idem, json_number_idem. f_equal.
  - destruct (profile s) as [p|]; [|reflexivity]. cbn [option_map]. f_equal.
    unfold json_profile. cbn [type resume]. now rewrite !json_value_idem.
  - destruct (history s) as [h|]; [|reflexivity]. cbn [option_map]. f_equal.
    rewrite map_map. apply map_ext. intros it. apply json_item_idem.
Qed.

(** A null or truthy value is copied to a null or truthy one: only an
    infinite number turns into null. *)
Lemma json_value_keeps v :
  v = VNull \/ truthy v = true ->
  json_value v = VNull \/ truthy (json_value v) = true.
Proof.
  intros [->|H]; [now left|].
  destruct v as [| |b|x|t|items|fields]; try discriminate;
    try (right; exact H); try (right; reflexivity).
  cbn [json_value]. destruct (num_is_finite x); [right; exact H|now left].
Qed.

Lemma json_value_nullish v : nullish v = true -> nullish (json_value v) = true.
Proof. destruct v; try discriminate; intros _; reflexivity. Qed.

Lemma pending_json_copy s : pending (json_copy s) = true -> pending s = true.
Proof.
  unfold pending. cbn [json_copy current_question].
  destruct (nullish (current_question s)) eqn:H; [|reflexivity].
  now rewrite (json_value_nullish _ H).
Qed.


Lemma json_copy_history s h :
  json_copy s = s -> history s = Some h -> map json_item h = h.
Proof.
  intros Hs Hh. apply (f_equal history) in Hs.
  cbn [json_copy history] in Hs. rewrite Hh in Hs. cbn [option_map] in Hs.
  congruence.
Qed.

Lemma json_copy_question s :
  json_copy s = s -> json_value (current_question s) = current_question s.
Proof. intros Hs. apply (f_equal current_question) in Hs. exact Hs. Qed.

(** ** Sequences of events *)

Lemma truthy_not_nullish v : truthy v = true -> nullish v = false.
Proof. destruct v; try reflexivity; discriminate. Qed.

(** What one request does to the pending question. *)
Lemma pending_step r e s :
  pending (final (run (handler r) e O s))
  = awaiting_after (pending s) (Arrives r, served r e s).
Proof.
  unfold served, awaiting_after.
  destruct r as [b|b| |ans| |]; cbn [handler].
  - now rewrite tts_final.
  - destruct (start_cases b e O s) as [(Ho & _ & _ & Hq & _)|(Hf & [Ho|[msg Ho]])];
      rewrite Ho; cbn [succeeded respond status Z.eqb Pos.eqb].
    + unfold pending. now rewrite Hq.
    + now rewrite Hf.
    + now rewrite Hf.
  - destruct (next_question_cases e O s) as [(q & t & Ho & Hq & Hf)|(Hf & Hg)].
    + rewrite Ho, Hf. cbn [gave_question respond Z.eqb Pos.eqb].
      unfold pending. cbn [set_current_question_started_at set_current_question
                           current_question].
      now rewrite (truthy_not_nullish q Hq).
    + now rewrite Hg, Hf.
  - destruct (submit_cases ans e O s)
      as [(a & h & _ & _ & _ & _ & _ & Hr)|(Hf & _ & _ & [Ho|[msg Ho]])].
    + rewrite Hr. reflexivity.
    + now rewrite Ho, Hf.
    + now rewrite Ho, Hf.
  - now rewrite transcript_final.
  - now rewrite result_final.
Qed.

Lemma awaiting_after_mono b b' entry :
  (b = true -> b' = true) ->
  awaiting_after b entry = true -> awaiting_after b' entry = true.
Proof.
  intros Hb. destruct entry as [[r|k] o]; cbn [awaiting_after]; [|exact Hb].
  destruct r; try exact Hb.
  - destruct (succeeded o); [discriminate|exact Hb].
  - destruct (gave_question o); [reflexivity|exact Hb].
  - destruct (succeeded o); [discriminate|exact Hb].
Qed.

Lemma awaiting_fold_mono log b b' :
  (b = true -> b' = true) ->
  fold_left awaiting_after log b = true -> fold_left awaiting_after log b' = true.
Proof.
  revert b b'. induction log as [|entry log IH]; intros b b' Hb; [exact Hb|].
  cbn [fold_left]. apply IH. now apply awaiting_after_mono.
Qed.

(** The analyses in flight keep a session with no pending question. *)
Lemma cleared_step ev e sv :
  Forall (fun c => current_question (snd c) = VNull) (in_flight sv) ->
  Forall (fun c => current_question (snd c) = VNull)
         (in_flight (snd (step ev e sv))).
Proof.
  intros H. destruct ev as [r|k]; cbn [step snd].
  - cbn [in_flight]. apply Forall_app. split; [exact H|].
    destruct (detached_cases r e O (store sv))
      as [->|(a & h & _ & _ & _ & _ & _ & -> & ->)]; [constructor|].
    cbn [map]. constructor; [reflexivity|constructor].
  - destruct (nth_error (in_flight sv) k) as [[it own]|]; [|exact H].
    cbn [snd in_flight]. clear - H. revert k.
    induction H as [|c l Hc Hl IH]; intros [|k]; cbn [remove_nth].
    + constructor.
    + constructor.
    + exact Hl.
    + constructor; [exact Hc|apply IH].
Qed.

Lemma analysis_keeps_cleared it e n own snapshot :
  current_question own = VNull ->
  In snapshot (saved (run (weakness_analysis it) e n own)) ->
  current_question snapshot = VNull.
Proof.
  intros Hq Hin.
  destruct (analysis_cases it e n own)
    as (_ & _ & [(_ & Hs)|(h & idx & w & _ & Hf & Hs)]);
    rewrite Hs in Hin; cbn [In] in Hin; [contradiction|].
  destruct Hin as [<-|[]]. now rewrite Hf.
Qed.

(** What one event does to the pending question in the store. *)
Lemma step_pending ev e sv :
  Forall (fun c => current_question (snd c) = VNull) (in_flight sv) ->
  pending (store (snd (step ev e sv))) = true ->
  awaiting_after (pending (store sv)) (ev, fst (step ev e sv)) = true.
Proof.
  intros Hfl. destruct ev as [r|k]; cbn [step fst snd store].
  - intros H. apply pending_json_copy in H. now rewrite pending_step in H.
  - cbn [awaiting_after].
    destruct (nth_error (in_flight sv) k) as [[it own]|] eqn:Hk;
      cbn [fst snd store]; [|auto].
    assert (Hown : current_question own = VNull).
    { apply nth_error_In in Hk. rewrite Forall_forall in Hfl.
      exact (Hfl _ Hk). }
    destruct (analysis_cases it e O own)
      as (_ & _ & [(_ & Hs)|(h & idx & w & _ & Hf & Hs)]); rewrite Hs;
      cbn [save_all fold_left]; [auto|].
    intros H. apply pending_json_copy in H. rewrite Hf in H.
    unfold pending in H. cbn [set_history current_question] in H.
    rewrite Hown in H. discriminate.
Qed.

Lemma serve_all_pending evs sv :
  Forall (fun c => current_question (snd c) = VNull) (in_flight sv) ->
  pending (store (snd (serve_all evs sv))) = true ->
  fold_left awaiting_after (fst (serve_all evs sv)) (pending (store sv)) = true.
Proof.
  revert sv. induction evs as [|[ev e] evs IH]; intros sv Hfl; [auto|].
  cbn [serve_all].
  pose proof (cleared_step ev e sv Hfl) as Hfl1.
  pose proof (step_pending ev e sv Hfl) as Hstep.
  destruct (step ev e sv) as [o sv1]. cbn [fst snd] in *.
  specialize (IH sv1 Hfl1).
  destruct (serve_all evs sv1) as [log sv2]. cbn [fst snd fold_left] in *.
  intros H. specialize (IH H).
  revert IH. apply awaiting_fold_mono. exact Hstep.
Qed.



(** Every request keeps a session well formed. *)
Lemma session_ok_step r e s :
  session_ok s -> session_ok (final (run (handler r) e O s)).
Proof.
  intros Hok.
  destruct r as [b|b| |ans| |]; cbn [handler].
  - now rewrite tts_final.
  - destruct (start_cases b e O s) as [(_ & _ & Hh & Hq & _)|(-> & _)];
      [|exact Hok].
    intros _. rewrite Hh, Hq. split; [discriminate|now left].
  - destruct (next_question_cases e O s) as [(q & t & _ & Hq & ->)|(-> & _)];
      [|exact Hok].
    intros Hp. destruct (Hok Hp) as (Hh & _).
    split; [exact Hh|]. right; exact Hq.
  - destruct (submit_cases ans e O s)
      as [(a & h & _ & _ & Hp & _ & _ & ->)|(-> & _)]; [|exact Hok].
    intros _. split; [discriminate|now left].
  - now rewrite transcript_final.
  - now rewrite result_final.
Qed.

(** C2.  A successful submission leaves current_question null; a submission
    made while it is null (or undefined) is answered with 400 "Invalid
    state" and changes nothing, so a second submission with no fetch in
    between is refused; and over any sequence of requests and completed
    analyses served from a fresh session, a question is pending in the store
    only when the last successful fetch, submission or start was a fetch
    that returned a question. *)
Theorem current_question_cleared_by_submission :
  (forall ans e n s x,
      outcome (run (api_submit_answer ans) e n s) = Some x -> status x = 200 ->
      current_question (final (run (api_submit_answer ans) e n s)) = VNull) /\
  (forall ans e n s,
      nullish (current_question s) = true ->
      run (api_submit_answer ans) e n s = rejected (lit "Invalid state") n s) /\
  (forall a1 a2 e1 n1 e2 n2 s x,
      outcome (run (api_submit_answer a1) e1 n1 s) = Some x -> status x = 200 ->
      let s1 := final (run (api_submit_answer a1) e1 n1 s) in
      run (api_submit_answer a2) e2 n2 s1 = rejected (lit "Invalid state") n2 s1 /\
      run (api_submit_answer a2) e2 n2 (json_copy s1)
      = rejected (lit "Invalid state") n2 (json_copy s1)) /\
  (forall evs,
      pending (store (snd (serve_all evs fresh_server))) = true ->
      awaiting (fst (serve_all evs fresh_server)) = true).
Proof.
  split; [|split; [|split]].
  - intros ans e n s x Ho Hs. now destruct (submit_success_clears ans e n s x Ho Hs).
  - intros ans e n s. apply submit_invalid_state.
  - intros a1 a2 e1 n1 e2 n2 s x Ho Hs s1. subst s1.
    destruct (submit_success_clears a1 e1 n1 s x Ho Hs) as [Hq _].
    split; apply submit_invalid_state.
    + now rewrite Hq.
    + cbn [json_copy current_question]. now rewrite Hq.
  - intros evs H. apply (serve_all_pending evs fresh_server); [constructor|exact H].
Qed.


(** ** Speech *)

Lemma firstn_short {A : Type} (k : nat) (l : list A) :
  (List.length l <= k)%nat -> firstn k l = l.
Proof. intros H. now apply firstn_all2. Qed.

Lemma truncated_input (k : nat) (l : jsstring) :
  (if (k <? List.length l)%nat then slice0 k l else l) = firstn k l.
Proof.
  unfold slice0. destruct (k <? List.length l)%nat eqn:H; [reflexivity|].
  apply Nat.ltb_ge in H. symmetry. now apply firstn_short.
Qed.

#[local] Opaque max_input.

Lemma tts_calls b e n s t req :
  to_string (coalesce (tts_text b) (VString [])) = Some t ->
  In (SpeechCall req) (calls (run (api_tts b) e n s)) ->
  trim t <> [] /\ input req = firstn max_input (trim t) /\
  (speech e n req = SpeechFailed ->
   outcome (run (api_tts b) e n s) = Some (respond 500 (Error (lit "TTS failed")))).
Proof.
  intros Ht. unfold api_tts. rewrite Ht. run_step.
  rewrite truncated_input.
  crunch; cbn [In]; intros Hin; try contradiction;
    destruct Hin as [Hin|[]]; injection Hin as <-; cbn [input];
    (split; [intros E; rewrite E in *; discriminate|]);
    (split; [reflexivity|]); intros; congruence.
Qed.

(** C9.  A speech request whose text is missing or trims to the empty
    string is answered with 400 before any collaborator is called.  When
    the speech collaborator is called, the input it receives is the trimmed
    text cut to its first 4096 code units, the trimmed text itself when that
    is no longer than 4096; and if the collaborator fails the response is
    500 "TTS failed".  The call is made whenever the text is not empty and
    voice, speed and instructions convert.  The handler always responds and
    never touches the session. *)
Theorem tts_text_required_and_truncated b e n s :
  let r := run (api_tts b) e n s in
  max_input = 4096%nat /\
  (nullish (tts_text b) = true \/
   (exists t, to_string (tts_text b) = Some t /\ trim t = []) ->
   r = rejected (lit "text required") n s) /\
  (forall req, In (SpeechCall req) (calls r) ->
     exists t, to_string (coalesce (tts_text b) (VString [])) = Some t /\
       trim t <> [] /\
       input req = firstn max_input (trim t) /\
       (List.length (input req) <= max_input)%nat /\
       ((List.length (trim t) <= max_input)%nat -> input req = trim t) /\
       (speech e n req = SpeechFailed ->
        outcome r = Some (respond 500 (Error (lit "TTS failed"))))) /\
  (forall t v sp i,
     to_string (coalesce (tts_text b) (VString [])) = Some t -> trim t <> [] ->
     to_string (or_else (tts_voice b) (VString OPENAI_TTS_VOICE)) = Some v ->
     to_number (tts_speed b) = Some sp ->
     to_string (or_else (tts_instructions b) (VString [])) = Some i ->
     exists req, calls r = [SpeechCall req] /\
                 input req = firstn max_input (trim t)) /\
  (exists x, outcome r = Some x) /\
  final r = s.
Proof.
  intros r. subst r.
  split; [with_strategy transparent [max_input] reflexivity|].
  split; [|split; [|split; [|split]]].
  - intros H. unfold api_tts, rejected.
    assert (Ht : exists t, to_string (coalesce (tts_text b) (VString [])) = Some t
                           /\ trim t = []).
    { destruct H as [H|(t & Ht & Htrim)].
      - exists []. unfold coalesce. rewrite H. split; reflexivity.
      - exists t. unfold coalesce.
        destruct (nullish (tts_text b)) eqn:Hn; [|split; assumption].
        destruct (tts_text b); try discriminate; cbn in Ht;
          injection Ht as <-; discriminate. }
    destruct Ht as (t & Ht & Htrim). rewrite Ht. run_step. rewrite Htrim.
    reflexivity.
  - intros req Hin.
    destruct (to_string (coalesce (tts_text b) (VString []))) as [t|] eqn:Ht.
    + destruct (tts_calls b e n s t req Ht Hin) as (Hne & Hinput & Hfail).
      exists t. repeat split; try assumption.
      * rewrite Hinput, length_firstn. apply Nat.le_min_l.
      * intros Hlen. rewrite Hinput. now apply firstn_short.
    + exfalso. revert Hin. unfold api_tts. rewrite Ht. run_step. intros [].
  - intros t v sp i Ht Hne Hv Hsp Hi. unfold api_tts.
    rewrite Ht, Hv, Hsp, Hi. run_step. rewrite truncated_input.
    destruct (trim t) as [|c0 t0] eqn:Htrim; [congruence|].
    cbn [nonempty negb]. rewrite <- Htrim.
    crunch; eexists; split; reflexivity.
  - unfold api_tts. crunch; eexists; reflexivity.
  - apply tts_final.
Qed.

(** ** The verdict *)

Lemma result_run e n s :
  run api_result e n s =
  match history s with
  | None | Some [] => rejected (lit "No interview data") n s
  | Some h =>
      match chat e n (result_request h) with
      | ChatFailed =>
          {| outcome := Some (respond 500 (Error (lit "Failed to compute result")));
             final := s; calls := [ChatCall (result_request h)];
             detached := []; saved := []; ticks := S n |}
      | Content c =>
          let o := extractJson c in
          {| outcome :=
               Some (respond 200
                       (Result (or_else (get_prop o (lit "status")) (VString (lit "Fail")))
                               (coalesce (get_prop o (lit "confidence")) (VNumber (of_Z 0)))
                               (or_else (get_prop o (lit "reason")) (VString []))
                               h));
             final := s; calls := [ChatCall (result_request h)];
             detached := []; saved := []; ticks := S n |}
      end
  end.
Proof.
  unfold api_result, rejected. run_step.
  destruct (history s) as [[|it h]|]; try reflexivity.
  run_step. destruct (chat e n (result_request (it :: h))); reflexivity.
Qed.


(** ** Remaining time *)

Lemma num_max_whole a b : num_max (of_Z a) (of_Z b) = of_Z (Z.max a b).
Proof.
  unfold num_max, num_lt, of_Z.
  destruct (Qle_bool (inject_Z b) (inject_Z a)) eqn:H; cbn [negb].
  - apply Qle_bool_iff in H. rewrite <- Zle_Qle in H.
    now rewrite Z.max_l by lia.
  - assert (~ b <= a) as Hn.
    { intros Hle. rewrite Zle_Qle in Hle. apply Qle_bool_iff in Hle. congruence. }
    now rewrite Z.max_r by lia.
Qed.

Lemma num_leb_whole a b : num_leb (of_Z a) (of_Z b) = (a <=? b).
Proof.
  unfold num_leb, num_lt, of_Z. rewrite negb_involutive.
  destruct (a <=? b) eqn:H.
  - apply Z.leb_le in H. apply Qle_bool_iff. now rewrite <- Zle_Qle.
  - destruct (Qle_bool (inject_Z a) (inject_Z b)) eqn:Hq; [|reflexivity].
    apply Qle_bool_iff in Hq. rewrite <- Zle_Qle in Hq.
    apply Z.leb_gt in H. lia.
Qed.

(** *** The order of the Numbers *)

Lemma num_leb_fin a b : num_leb (Fin a) (Fin b) = Qle_bool a b.
Proof. unfold num_leb, num_lt. now rewrite negb_involutive. Qed.

Lemma num_leb_not_ltb x y : num_leb y x = true -> num_ltb x y = false.
Proof.
  unfold num_leb, num_ltb. destruct (num_lt x y) as [[|]|]; try discriminate;
    reflexivity.
Qed.

Lemma num_leb_refl x : x <> NaN -> num_leb x x = true.
Proof.
  destruct x as [| | |q]; try reflexivity; [congruence|].
  intros _. rewrite num_leb_fin. apply Qle_bool_iff, Qle_refl.
Qed.

Lemma num_floor_mono x y :
  num_leb x y = true -> num_leb (num_floor x) (num_floor y) = true.
Proof.
  destruct x as [| | |a], y as [| | |b]; try discriminate; try reflexivity.
  rewrite num_leb_fin. intros H. apply Qle_bool_iff in H.
  cbn [num_floor]. rewrite num_leb_whole. apply Z.leb_le.
  now apply Qfloor_resp_le.
Qed.

Lemma num_max_fin a :
  num_max (of_Z 0) (Fin a) = Fin (if Qle_bool a 0 then 0 else a).
Proof.
  unfold num_max, num_lt, of_Z. change (inject_Z 0) with 0%Q.
  destruct (Qle_bool a 0); reflexivity.
Qed.

Lemma num_max_nonneg x :
  x <> NaN -> num_leb (of_Z 0) (num_max (of_Z 0) x) = true.
Proof.
  destruct x as [| | |a]; try reflexivity; [congruence|].
  intros _. rewrite num_max_fin. unfold of_Z. rewrite num_leb_fin.
  apply Qle_bool_iff. change (inject_Z 0) with 0%Q.
  destruct (Qle_bool a 0) eqn:H; [apply Qle_refl|].
  destruct (Qlt_le_dec 0 a) as [Hlt|Hle]; [now apply Qlt_le_weak|].
  apply Qle_bool_iff in Hle. congruence.
Qed.

Lemma num_max_mono x y :
  num_leb x y = true ->
  num_leb (num_max (of_Z 0) x) (num_max (of_Z 0) y) = true /\
  num_leb (of_Z 0) (num_max (of_Z 0) x) = true.
Proof.
  intros H.
  assert (Hx : x <> NaN) by (intros ->; destruct y; discriminate H).
  split; [|now apply num_max_nonneg].
  destruct x as [| | |a], y as [| | |b]; try discriminate; try reflexivity.
  - change (num_max (of_Z 0) NInf) with (of_Z 0).
    apply num_max_nonneg. discriminate.
  - rewrite num_max_fin. reflexivity.
  - rewrite num_leb_fin in H. apply Qle_bool_iff in H.
    rewrite !num_max_fin, num_leb_fin. apply Qle_bool_iff.
    destruct (Qle_bool a 0) eqn:Ha, (Qle_bool b 0) eqn:Hb;
      try apply Qle_refl; try exact H.
    + destruct (Qlt_le_dec 0 b) as [Hlt|Hle]; [now apply Qlt_le_weak|].
      apply Qle_bool_iff in Hle. congruence.
    + apply Qle_bool_iff in Hb. exfalso.
      assert (Hc : Qle_bool a 0 = true)
        by (apply Qle_bool_iff; eapply Qle_trans; eassumption).
      congruence.
Qed.

Lemma num_div_thousand_mono x y :
  num_leb x y = true ->
  num_leb (num_div x (of_Z 1000)) (num_div y (of_Z 1000)) = true.
Proof.
  destruct x as [| | |a], y as [| | |b]; try discriminate; try reflexivity;
    unfold num_div, of_Z;
    change (Qeq_bool (inject_Z 1000) 0) with false; cbn iota.
  - intros _.
    destruct (round64 (b / inject_Z 1000)) eqn:H; try reflexivity.
    now apply round64_not_nan in H.
  - intros _.
    destruct (round64 (a / inject_Z 1000)) eqn:H; try reflexivity.
    now apply round64_not_nan in H.
  - rewrite num_leb_fin. intros H. apply Qle_bool_iff in H.
    apply round64_mono. apply Qmult_le_compat_r; [exact H|]. discriminate.
Qed.

Lemma num_sub_clock_mono E t1 t2 :
  E <> NaN -> t1 <= t2 ->
  num_leb (num_sub E (of_Z t2)) (num_sub E (of_Z t1)) = true.
Proof.
  intros HE Ht. destruct E as [| | |a]; try reflexivity; [congruence|].
  unfold num_sub, num_add, num_neg, of_Z. apply round64_mono.
  apply Qplus_le_r. apply Qopp_le_compat. now rewrite <- Zle_Qle.
Qed.

(** The reading of [secondsLeft] never grows with the clock. *)
Lemma remaining_mono E t1 t2 :
  t1 <= t2 ->
  let left := fun t =>
    num_max (of_Z 0)
      (num_floor (num_div (num_sub E (of_Z t)) (of_Z 1000))) in
  num_ltb (left t1) (left t2) = false /\
  num_ltb (left t1) (of_Z 0) = false /\
  (E <> NaN ->
   num_leb (left t2) (left t1) = true /\ num_leb (of_Z 0) (left t2) = true).
Proof.
  intros Ht left. subst left. cbn beta.
  destruct E as [| | |a] eqn:HE.
  - split; [reflexivity|]. split; [reflexivity|]. intros H. congruence.
  - split; [reflexivity|]. split; [reflexivity|]. intros _. split; reflexivity.
  - split; [reflexivity|]. split; [reflexivity|]. intros _. split; reflexivity.
  - assert (Hne : Fin a <> NaN) by discriminate.
    pose proof (num_sub_clock_mono (Fin a) t1 t2 Hne Ht) as H1.
    apply num_div_thousand_mono, num_floor_mono in H1.
    destruct (num_max_mono _ _ H1) as [H2 H3].
    pose proof (num_sub_clock_mono (Fin a) t1 t1 Hne (Z.le_refl _)) as H4.
    apply num_div_thousand_mono, num_floor_mono in H4.
    destruct (num_max_mono _ _ H4) as [_ H5].
    split; [now apply num_leb_not_ltb|].
    split; [now apply num_leb_not_ltb|].
    intros _. split; assumption.
Qed.

(** *** The exact reading *)

(** A number of milliseconds up to 2^53 divided by 1000: the quotient is
    rounded, and its floor is the whole number of seconds. *)
Lemma round64_thousandths n :
  0 < n <= 2 ^ 53 ->
  exists r, round64 (inject_Z n / inject_Z 1000) = Fin r /\ Qfloor r = n / 1000.
Proof.
  intros Hn.
  set (q := Qred (inject_Z n / inject_Z 1000)).
  assert (Hq : (q == n # 1000)%Q).
  { unfold q. rewrite Qred_correct. now rewrite (Qmake_Qdiv n 1000). }
  assert (Hpos : (0 < q)%Q).
  { rewrite Hq. unfold Qlt. cbn. lia. }
  pose proof (rounded_thousandths_floor n Hn q Hq) as Hfl.
  unfold round64. fold q.
  destruct (Qcompare_spec q 0) as [E|L|G].
  - rewrite E in Hpos. discriminate.
  - exfalso. apply (Qlt_irrefl 0). eapply Qlt_trans; eassumption.
  - unfold round_positive.
    set (r := round_to_multiple (quantum q) q) in *.
    replace (Qle_bool (pow2 1024) r) with false.
    + exists (Qred r). split; [reflexivity|].
      rewrite <- Hfl. apply Qfloor_comp, Qred_correct.
    + symmetry. apply not_true_is_false. intros H. apply Qle_bool_iff in H.
      assert (Hr : (r < inject_Z (n / 1000 + 1))%Q).
      { rewrite <- Hfl. apply Qlt_floor. }
      assert (Hbig : (inject_Z (2 ^ 54) <= r)%Q).
      { eapply Qle_trans; [|exact H]. rewrite <- (pow2_Z 54) by lia.
        apply pow2_le. lia. }
      assert (Hc : (inject_Z (2 ^ 54) < inject_Z (n / 1000 + 1))%Q)
        by (eapply Qle_lt_trans; eassumption).
      rewrite <- Zlt_Qlt in Hc.
      assert (n / 1000 <= n) by (apply Z.div_le_upper_bound; lia).
      lia.
Qed.

Lemma round64_nonpositive q :
  (q <= 0)%Q -> num_leb (round64 q) (of_Z 0) = true.
Proof.
  intros H. change (of_Z 0) with (round64 0). now apply round64_mono.
Qed.

(** The reading of [secondsLeft] when the end time and the clock are whole
    milliseconds up to 2^53. *)
Lemma remaining_exact E now :
  0 <= E <= 2 ^ 53 -> 0 <= now <= 2 ^ 53 ->
  num_max (of_Z 0)
    (num_floor (num_div (num_sub (of_Z E) (of_Z now)) (of_Z 1000)))
  = of_Z (Z.max 0 ((E - now) / 1000)).
Proof.
  intros HE Hnow.
  assert (Hsub : num_sub (of_Z E) (of_Z now) = of_Z (E - now)).
  { unfold num_sub, num_add, num_neg, of_Z. apply round64_whole; [|lia].
    unfold Z.sub. now rewrite inject_Z_plus, inject_Z_opp. }
  rewrite Hsub. unfold num_div, of_Z.
  change (Qeq_bool (inject_Z 1000) 0) with false. cbn iota.
  destruct (Z_lt_le_dec 0 (E - now)) as [Hpos|Hneg].
  - destruct (round64_thousandths (E - now)) as (r & -> & Hr); [lia|].
    cbn [num_floor]. rewrite Hr. fold (of_Z 0). now rewrite num_max_whole.
  - assert (Hq : (inject_Z (E - now) / inject_Z 1000 <= 0)%Q).
    { unfold Qdiv. setoid_replace 0%Q with (0 * / inject_Z 1000)%Q by ring.
      apply Qmult_le_compat_r; [|discriminate].
      change 0%Q with (inject_Z 0). now rewrite <- Zle_Qle. }
    pose proof (round64_nonpositive _ Hq) as Hle.
    assert (Hlo : num_leb (of_Z (- 2 ^ 53))
                    (round64 (inject_Z (E - now) / inject_Z 1000)) = true).
    { rewrite <- (round64_of_Z (- 2 ^ 53)) by lia. apply round64_mono.
      unfold Qdiv.
      setoid_replace (inject_Z (- 2 ^ 53))
        with (inject_Z (- 2 ^ 53 * 1000) * / inject_Z 1000)%Q
        by (rewrite inject_Z_mult; field; discriminate).
      apply Qmult_le_compat_r; [|discriminate].
      rewrite <- Zle_Qle. lia. }
    destruct (round64 (inject_Z (E - now) / inject_Z 1000)) as [| | |r];
      try discriminate.
    unfold of_Z in Hle. rewrite num_leb_fin in Hle. apply Qle_bool_iff in Hle.
    cbn [num_floor]. fold (of_Z 0). rewrite num_max_whole.
    assert (Hf : Qfloor r <= 0).
    { change 0 with (Qfloor (inject_Z 0)). now apply Qfloor_resp_le. }
    assert (Hd : (E - now) / 1000 <= 0) by (apply Z.div_le_upper_bound; lia).
    unfold of_Z. do 2 f_equal. lia.
Qed.

Lemma end_time_whole s t d :
  start_time s = Some t -> field_number (duration_seconds s) = of_Z d ->
  0 <= t -> 0 <= d -> t + d * 1000 <= 2 ^ 53 ->
  end_time s = of_Z (t + d * 1000).
Proof.
  intros Ht Hd H0 H1 H2. unfold end_time. rewrite Ht, Hd.
  cbn [time_number]. rewrite num_mul_whole by lia.
  unfold num_add, of_Z. apply round64_whole; [|lia].
  now rewrite inject_Z_plus.
Qed.

(** C3 (amended).  The remaining time that [secondsLeft] reports at clock
    reading [now] is [max(0, floor((end_time - now) / 1000))] evaluated on
    Numbers, where [end_time = start_time + duration_seconds * 1000] is in
    milliseconds: seconds, not milliseconds, and whole ones.  In every
    session it is never negative and of two readings the later one never
    reports more; unless the end time is NaN it is a Number at least 0 and
    the later reading is at most the earlier.  When the start time and the
    clock are whole milliseconds, the duration [d] whole seconds (null
    counting as 0) and none exceeds 2^53 milliseconds, it is exactly the
    integer [max(0, floor((start_time + d * 1000 - now) / 1000))]. *)
Theorem seconds_left_clamped_monotone s :
  (forall e n,
      run secondsLeft e n s
      = {| outcome :=
             Some (num_max (of_Z 0)
                     (num_floor (num_div (num_sub (end_time s) (of_Z (clock e n)))
                                         (of_Z 1000))));
           final := s; calls := []; detached := []; saved := []; ticks := S n |}) /\
  (forall e n x,
      outcome (run secondsLeft e n s) = Some x ->
      num_ltb x (of_Z 0) = false /\
      (end_time s <> NaN -> num_leb (of_Z 0) x = true)) /\
  (forall e1 n1 e2 n2 x1 x2,
      clock e1 n1 <= clock e2 n2 ->
      outcome (run secondsLeft e1 n1 s) = Some x1 ->
      outcome (run secondsLeft e2 n2 s) = Some x2 ->
      num_ltb x1 x2 = false /\
      (end_time s <> NaN -> num_leb x2 x1 = true)) /\
  (forall t d e n,
      start_time s = Some t -> field_number (duration_seconds s) = of_Z d ->
      0 <= t -> 0 <= d -> t + d * 1000 <= 2 ^ 53 ->
      0 <= clock e n <= 2 ^ 53 ->
      outcome (run secondsLeft e n s)
      = Some (of_Z (Z.max 0 ((t + d * 1000 - clock e n) / 1000)))).
Proof.
  split; [intros e n; reflexivity|].
  split; [|split].
  - intros e n x H. rewrite seconds_left_outcome in H. injection H as <-.
    destruct (remaining_mono (end_time s) (clock e n) (clock e n) (Z.le_refl _))
      as (_ & H0 & H1).
    split; [exact H0|]. intros HE. now destruct (H1 HE).
  - intros e1 n1 e2 n2 x1 x2 Hle H1 H2.
    rewrite seconds_left_outcome in H1, H2.
    injection H1 as <-. injection H2 as <-.
    destruct (remaining_mono (end_time s) _ _ Hle) as (Hlt & _ & H).
    split; [exact Hlt|]. intros HE. now destruct (H HE).
  - intros t d e n Ht Hd H0 H1 H2 Hnow.
    rewrite seconds_left_outcome, (end_time_whole s t d Ht Hd H0 H1 H2).
    f_equal. apply remaining_exact; lia.
Qed.

(** ** Further properties of the session *)

(** A session that was never started answers 400 to next-question,
    transcript and submit-answer ("Interview not started", "Invalid state")
    and stays as it is. *)
Theorem not_started_is_refused ans e n s :
  profile s = None ->
  run api_next_question e n s = rejected (lit "Interview not started") n s /\
  run api_transcript e n s = rejected (lit "Interview not started") n s /\
  run (api_submit_answer ans) e n s = rejected (lit "Invalid state") n s.
Proof.
  intros Hp. unfold api_next_question, api_transcript, api_submit_answer, rejected.
  run_step. rewrite Hp. repeat split; reflexivity.
Qed.

(** A pending question can be answered whatever the clock says: in a
    started session with a pending question, an answer that is not blank is
    accepted, appended with the question it answers, and the response tells
    whether the time is up. *)
Theorem pending_question_can_be_answered a e n s p h :
  profile s = Some p -> truthy (current_question s) = true ->
  history s = Some h -> trim a <> [] ->
  run (api_submit_answer (VString a)) e n s =
  {| outcome := Some (respond 200
                        (TimeUp (num_geb (of_Z (clock e (S n))) (end_time s))));
     final := set_current_question_started_at None
                (set_current_question VNull
                   (set_history (h ++ [new_item s a (clock e n)]) s));
     calls := []; detached := [new_item s a (clock e n)]; saved := [];
     ticks := S (S n) |}.
Proof.
  intros Hp Hq Hh Ha. unfold api_submit_answer. run_step.
  rewrite Hp, Hq, Hh. cbn [negb].
  assert (Hta : truthy (VString a) = true).
  { destruct a; [contradiction Ha; reflexivity|reflexivity]. }
  rewrite Hta. cbn [negb].
  destruct (trim a) as [|c t] eqn:Htrim; [congruence|].
  cbn [nonempty negb]. run_step. reflexivity.
Qed.

Lemma findIndex_from_first {A : Type} (f : nat -> A -> bool) i before x after :
  f (i + List.length before)%nat x = true ->
  (forall j y, nth_error before j = Some y -> f (i + j)%nat y = false) ->
  findIndex_from f i (before ++ x :: after) = Some (i + List.length before)%nat.
Proof.
  revert i. induction before as [|b before IH]; intros i Hx Hb;
    cbn [app findIndex_from List.length].
  - rewrite Nat.add_0_r in *. now rewrite Hx.
  - rewrite <- (Nat.add_0_r i) at 1. rewrite (Hb O b eq_refl).
    rewrite <- Nat.add_succ_comm. apply IH.
    + now rewrite Nat.add_succ_comm.
    + intros j y Hj. rewrite Nat.add_succ_comm. now apply (Hb (S j)).
Qed.

Lemma findIndex_from_none {A : Type} (f : nat -> A -> bool) i l :
  (forall j y, nth_error l j = Some y -> f (i + j)%nat y = false) ->
  findIndex_from f i l = None.
Proof.
  revert i. induction l as [|x l IH]; intros i H; cbn [findIndex_from];
    [reflexivity|].
  rewrite <- (Nat.add_0_r i) at 1. rewrite (H O x eq_refl).
  apply IH. intros j y Hj. rewrite Nat.add_succ_comm. now apply (H (S j)).
Qed.

Lemma update_at_middle {A : Type} (g : A -> A) before x after :
  update_at g (List.length before) (before ++ x :: after) = before ++ g x :: after.
Proof.
  induction before as [|b before IH]; cbn [app List.length update_at];
    [reflexivity|now rewrite IH].
Qed.

(** The detached analysis asks for the weakness of its item's answer; it
    never raises and starts nothing.  When the completion succeeds, the
    first entry of the history that has the question and the answer of the
    item (the last entry being the item itself, the others compared with
    [===]) gets the trimmed reply as its weakness, nothing else changes, and
    the session object is saved.  When no entry matches, the completion
    fails or the question has no string form, nothing changes and nothing
    is saved. *)
Theorem analysis_updates_first_match it e n s :
  let r := run (weakness_analysis it) e n s in
  outcome r = Some tt /\ detached r = [] /\
  match to_string (question it) with
  | None => final r = s /\ calls r = [] /\ saved r = []
  | Some q =>
      let req :=
        {| model := OPENAI_MODEL;
           messages :=
             [ {| role := user;
                  content :=
                    lit "Question: " ++ q ++ [10%N] ++
                    lit "Answer: " ++ answer it ++ [10%N; 10%N] ++
                    lit "In one sentence, what is the key weakness of this answer?" |} ];
           temperature := 6 # 10 |} in
      calls r = [ChatCall req] /\
      match chat e n req, history s with
      | Content c, Some h =>
          let same i x :=
            (if Nat.eqb i (pred (List.length h)) then identical (question it)
             else strict_equal (question x) (question it))
            && str_eqb (answer x) (answer it) in
          (forall before x after,
              h = before ++ x :: after ->
              same (List.length before) x = true ->
              (forall i y, nth_error before i = Some y -> same i y = false) ->
              let x' :=
                {| question := question x; answer := answer x;
                   weakness := trim c; askedAt := askedAt x;
                   answeredAt := answeredAt x; source := source x |} in
              history (final r) = Some (before ++ x' :: after) /\
              final r = set_history (before ++ x' :: after) s /\
              saved r = [final r]) /\
          ((forall i y, nth_error h i = Some y -> same i y = false) ->
           final r = s /\ saved r = [])
      | _, _ => final r = s /\ saved r = []
      end
  end.
Proof.
  intros r. subst r. unfold weakness_analysis.
  destruct (to_string (question it)) as [q|]; run_step; [|repeat split; reflexivity].
  change (weakness_request q (answer it))
    with {| model := OPENAI_MODEL;
            messages :=
              [ {| role := user;
                   content :=
                     lit "Question: " ++ q ++ [10%N] ++
                     lit "Answer: " ++ answer it ++ [10%N; 10%N] ++
                     lit "In one sentence, what is the key weakness of this answer?" |} ];
            temperature := 6 # 10 |}.
  cbn zeta.
  destruct (chat e n _) as [c|]; run_step; [|repeat split; reflexivity].
  destruct (history s) as [h|] eqn:Hh; run_step; [|repeat split; reflexivity].
  split; [|split; [|split; [|split]]].
  - destruct (findIndex _ h); reflexivity.
  - destruct (findIndex _ h); reflexivity.
  - destruct (findIndex _ h); reflexivity.
  - intros before x after Hdec Hx Hfirst.
    subst h. unfold findIndex.
    rewrite (findIndex_from_first
               (same_exchange it (pred (List.length (before ++ x :: after))))
               O before x after Hx Hfirst).
    run_step. cbn [Nat.add]. rewrite update_at_middle.
    repeat split; reflexivity.
  - intros Hnone. unfold findIndex.
    rewrite (findIndex_from_none (same_exchange it (pred (List.length h))) O h Hnone).
    split; reflexivity.
Qed.

Lemma format_items_of_quoted l ts :
  Forall2 (fun it text => quoted it text) l ts -> format_items l = Some ts.
Proof.
  induction 1 as [|it t l ts (q & Hq & ->) _ IH]; [reflexivity|].
  cbn [format_items]. unfold format_item. now rewrite Hq, IH.
Qed.

Lemma format_items_unprintable l :
  Exists (fun it => to_string (question it) = None) l -> format_items l = None.
Proof.
  induction 1 as [it l H|it l _ IH]; cbn [format_items].
  - unfold format_item. now rewrite H.
  - rewrite IH. now destruct (format_item it).
Qed.

(** [summarizeOld] of no entries is the empty string, with no call.  Of
    some entries it makes one request, at temperature 0.5, for a summary in
    two sentences of all of them, each quoted after a blank line, and gives
    the trimmed reply; it raises when the completion fails, and before any
    call when the question of an entry has no string form. *)
Theorem summarize_old_run h e n s :
  (h = [] ->
   run (summarizeOld h) e n s
   = {| outcome := Some []; final := s; calls := []; detached := [];
        saved := []; ticks := n |}) /\
  (h <> [] ->
   (Exists (fun it => to_string (question it) = None) h ->
    run (summarizeOld h) e n s
    = {| outcome := None; final := s; calls := []; detached := [];
         saved := []; ticks := n |}) /\
   (forall texts,
       Forall2 (fun it text => quoted it text) h texts ->
       let req :=
         {| model := OPENAI_MODEL;
            messages :=
              [ {| role := user;
                   content :=
                     lit "Summarize the following earlier interview exchanges (questions, answers, weaknesses) " ++
                     lit "in two brief sentences, focusing on overall strengths and weaknesses:" ++
                     concat (map (fun text => [10%N; 10%N] ++ text) texts) |} ];
            temperature := 5 # 10 |} in
       run (summarizeOld h) e n s
       = {| outcome :=
              match chat e n req with
              | Content c => Some (trim c)
              | ChatFailed => None
              end;
            final := s; calls := [ChatCall req]; detached := []; saved := [];
            ticks := S n |})).
Proof.
  split; [intros ->; reflexivity|].
  intros Hne.
  destruct h as [|it h]; [congruence|]. split.
  - intros Hex. unfold summarizeOld, format_block.
    now rewrite (format_items_unprintable _ Hex).
  - intros texts Hq req. unfold summarizeOld.
    pose proof (format_items_of_quoted _ _ Hq) as Hf.
    assert (Hb : format_block (it :: h) = Some (join (nl ++ nl) texts)).
    { unfold format_block. now rewrite Hf. }
    destruct (format_block_quoted _ _ Hne Hb) as (ts & Hts & Hblock).
    apply format_items_of_quoted in Hts.
    assert (ts = texts) by congruence. subst ts.
    rewrite Hb. run_step.
    assert (Hreq : summary_request (join (nl ++ nl) texts) = req).
    { unfold summary_request, summary_prompt, req. rewrite <- Hblock. reflexivity. }
    rewrite Hreq.
    destruct (chat e n req); reflexivity.
Qed.

Lemma parse_json_members_object fuel t acc v rest :
  parse_json_members fuel t acc = Some (v, rest) -> exists fields, v = VObject fields.
Proof.
  revert t acc. induction fuel as [|f IH]; intros t acc; cbn [parse_json_members];
    [discriminate|].
  destruct (skip_json_ws t) as [|c0 r]; [discriminate|]. split_code.
  destruct (parse_json_chars r) as [[k r1]|]; [|discriminate].
  destruct (skip_json_ws r1) as [|c1 r2]; [discriminate|]. split_code.
  destruct (parse_json_value f r2) as [[w r3]|]; [|discriminate].
  destruct (skip_json_ws r3) as [|c2 r4]; [discriminate|]. split_code.
  - intros H. injection H as <- _. eexists; reflexivity.
  - apply IH.
Qed.

(** [extractJson] always gives an object: the members [question], [status],
    [confidence] and [reason] are read from an object, never from a value
    that has no properties. *)
Theorem extractJson_object str : exists fields, extractJson str = VObject fields.
Proof.
  unfold extractJson.
  destruct (match_braces str) as [m|] eqn:Hm; [|eexists; reflexivity].
  assert (Hopen : exists p, m = 123%N :: p).
  { clear - Hm. revert m Hm. induction str as [|c r IH]; intros m; cbn [match_braces];
      [discriminate|].
    destruct (N.eqb c 123) eqn:Hc; [|apply IH].
    apply N.eqb_eq in Hc. subst c.
    destruct (upto_last_close r); [|discriminate].
    intros H. injection H as <-. eexists; reflexivity. }
  destruct Hopen as [p ->].
  destruct (json_parse (123%N :: p)) as [v|] eqn:Hv; [|eexists; reflexivity].
  revert Hv. unfold json_parse.
  destruct (parse_json_value _ _) as [[w rest]|] eqn:Hw; [|discriminate].
  destruct (skip_json_ws rest); [|discriminate].
  intros H. injection H as <-.
  revert Hw. cbn [parse_json_value Nat.add skip_json_ws N.eqb Pos.eqb orb].
  destruct (skip_json_ws p) as [|c r] eqn:Hp.
  - apply parse_json_members_object.
  - clear Hp.
    repeat (match goal with
            | |- context [match ?x with _ => _ end] => is_var x; destruct x
            end);
      first [ apply parse_json_members_object
            | intros H; injection H as <- _; eexists; reflexivity ].
Qed.

Lemma build_messages_opening p e n s msgs :
  outcome (run (build_messages p) e n s) = Some msgs ->
  exists typeStr resumeStr sparse left rest,
    to_string (or_else (type p) (VString [])) = Some typeStr /\
    to_string (or_else (resume p) (VString [])) = Some resumeStr /\
    profile_sparse (or_else (resume p) (VString [])) (or_else (type p) (VString []))
    = Some sparse /\
    outcome (run secondsLeft e n s) = Some left /\
    msgs = opening_messages (personality s) typeStr resumeStr left sparse ++ rest.
Proof.
  rewrite seconds_left_outcome.
  unfold build_messages, secondsLeft, summarizeOld.
  crunch; intros Hout; try discriminate;
    injection Hout as <-; do 5 eexists;
    repeat split; cbn [opening_messages app]; reflexivity.
Qed.

(** A profile whose resume has fewer than sixty words is flagged to the
    model: the second message of every request for a question is the resume
    under the heading "Candidate profile (resume / notes):", followed after
    a blank line by the hint "Hint: profile_sparse=true". *)
Theorem sparse_profile_is_hinted p e n s req wr :
  wordsCount (or_else (resume p) (VString [])) = Some wr -> (wr < 60)%nat ->
  In (ChatCall req) (calls (run (generate_question p) e n s)) ->
  temperature req = 7 # 10 ->
  exists resumeStr,
    to_string (or_else (resume p) (VString [])) = Some resumeStr /\
    nth_error (messages req) 1
    = Some {| role := user;
              content :=
                lit "Candidate profile (resume / notes):" ++ [10%N] ++
                resumeStr ++ [10%N; 10%N] ++ lit "Hint: profile_sparse=true" |}.
Proof.
  intros Hwr Hlt Hin Htemp.
  rewrite generate_question_run in Hin.
  destruct (outcome (run (build_messages p) e n s)) as [msgs|] eqn:Hout;
    cbn [calls] in Hin.
  - destruct (build_messages_opening p e n s msgs Hout)
      as (typeStr & resumeStr & sparse & left & rest & Ht & Hr & Hs & Hl & Hm).
    apply in_app_or in Hin. destruct Hin as [Hin|[Hin|[]]].
    + apply build_messages_calls in Hin. destruct Hin as [block Hb].
      injection Hb as ->. discriminate Htemp.
    + injection Hin as <-. exists resumeStr. split; [exact Hr|].
      unfold profile_sparse in Hs. rewrite Hwr in Hs.
      apply Nat.ltb_lt in Hlt. rewrite Hlt in Hs. injection Hs as <-.
      rewrite Hm. reflexivity.
  - apply build_messages_calls in Hin. destruct Hin as [block Hb].
    injection Hb as ->. discriminate Htemp.
Qed.

(** ** Words *)

Lemma drop_ws_blank pre s : blank pre -> drop_ws (pre ++ s) = drop_ws s.
Proof.
  induction 1 as [|c pre Hc _ IH]; [reflexivity|].
  cbn [app drop_ws]. now rewrite Hc.
Qed.

Lemma drop_ws_word c s : is_ws c = false -> drop_ws (c :: s) = c :: s.
Proof. intros H. cbn [drop_ws]. now rewrite H. Qed.

Lemma blank_rev s : blank s -> blank (rev s).
Proof. apply Forall_rev. Qed.

(** What [drop_ws] removes is blank, and what it leaves does not start
    with white space. *)
Lemma drop_ws_split s :
  exists pre, blank pre /\ s = pre ++ drop_ws s /\
              match drop_ws s with
              | [] => True
              | c :: _ => is_ws c = false
              end.
Proof.
  induction s as [|c s (pre & Hpre & Hs & Hhead)].
  - exists []. repeat split. constructor.
  - cbn [drop_ws]. destruct (is_ws c) eqn:Hc.
    + exists (c :: pre). repeat split; [now constructor| |exact Hhead].
      cbn [app]. now rewrite <- Hs.
    + exists []. repeat split; [constructor|exact Hc].
Qed.

(** Padding with white space is trimmed away from a text that neither
    starts nor ends with white space. *)
Lemma trim_padded pre body post :
  blank pre -> blank post ->
  body = [] \/
  ((exists c r, body = c :: r /\ is_ws c = false) /\
   (exists d r, rev body = d :: r /\ is_ws d = false)) ->
  trim (pre ++ body ++ post) = body.
Proof.
  intros Hpre Hpost Hbody. unfold trim, trim_start, trim_end.
  rewrite (drop_ws_blank pre _ Hpre).
  destruct Hbody as [->|[(c & r & -> & Hc) (d & r' & Hrev & Hd)]].
  - cbn [app]. replace (drop_ws post) with (@nil N); [reflexivity|].
    rewrite <- (app_nil_r post). now rewrite (drop_ws_blank post [] Hpost).
  - cbn [app]. rewrite (drop_ws_word c _ Hc).
    change (c :: r ++ post) with ((c :: r) ++ post).
    rewrite rev_app_distr, (drop_ws_blank _ _ (blank_rev post Hpost)), Hrev.
    rewrite (drop_ws_word d _ Hd), <- Hrev. apply rev_involutive.
Qed.

Lemma trim_idempotent s : trim (trim s) = trim s.
Proof.
  unfold trim at 2 3. unfold trim_start, trim_end.
  destruct (drop_ws_split s) as (pre & _ & _ & Hhead).
  destruct (drop_ws_split (rev (drop_ws s))) as (post & Hpost & Hs & Hlast).
  set (t := drop_ws (rev (drop_ws s))) in *.
  assert (Hbody : drop_ws s = rev t ++ rev post).
  { rewrite <- rev_app_distr, <- Hs. symmetry. apply rev_involutive. }
  assert (Hfix : rev t = [] \/
    ((exists c r, rev t = c :: r /\ is_ws c = false) /\
     (exists d r, rev (rev t) = d :: r /\ is_ws d = false))).
  { destruct (rev t) as [|c r] eqn:Hrt; [now left|right]. split.
    - exists c, r. split; [reflexivity|].
      rewrite Hbody in Hhead. exact Hhead.
    - rewrite <- Hrt, rev_involutive.
      destruct t as [|d t']; [discriminate Hrt|].
      exists d, t'. split; [reflexivity|exact Hlast]. }
  pose proof (trim_padded [] (rev t) [] (Forall_nil _) (Forall_nil _) Hfix) as H.
  cbn [app] in H. now rewrite app_nil_r in H.
Qed.

Lemma split_ws_word w rest cur :
  Forall (fun c => is_ws c = false) w ->
  split_ws_from (w ++ rest) cur false = split_ws_from rest (rev w ++ cur) false.
Proof.
  intros Hw. revert cur.
  induction Hw as [|c w Hc _ IH]; intros cur; [reflexivity|].
  cbn [app split_ws_from rev]. rewrite Hc, IH, <- app_assoc. reflexivity.
Qed.

Lemma split_ws_blank sep rest :
  blank sep -> split_ws_from (sep ++ rest) [] true = split_ws_from rest [] true.
Proof.
  induction 1 as [|c sep Hc _ IH]; [reflexivity|].
  cbn [app split_ws_from]. now rewrite Hc.
Qed.

(** A gap starts a new piece. *)
Lemma split_ws_gap gap rest cur :
  gap <> [] -> blank gap ->
  split_ws_from (gap ++ rest) cur false = rev cur :: split_ws_from rest [] true.
Proof.
  intros Hne Hgap. destruct Hgap as [|c gap' Hc Hgap']; [congruence|].
  cbn [app split_ws_from]. rewrite Hc.
  now rewrite (split_ws_blank gap' _ Hgap').
Qed.

(** A word after a gap is read as a word at the start. *)
Lemma split_ws_after_gap w rest :
  word w ->
  split_ws_from (w ++ rest) [] true = split_ws_from (w ++ rest) [] false.
Proof.
  intros [Hne Hw]. destruct w as [|c r]; [congruence|].
  apply Forall_inv in Hw. cbn [app split_ws_from]. now rewrite Hw.
Qed.

(** Splitting at white space gives back the words, whatever the gaps
    between them. *)
Lemma split_ws_spaced (w : jsstring) (rest : list (jsstring * jsstring)) cur :
  word w ->
  Forall (fun gw => fst gw <> [] /\ blank (fst gw) /\ word (snd gw)) rest ->
  split_ws_from (w ++ concat (map (fun gw => fst gw ++ snd gw) rest)) cur false
  = (rev cur ++ w) :: map snd rest.
Proof.
  intros Hw Hrest. revert w cur Hw.
  induction Hrest as [|[gap w'] rest (Hne & Hgap & Hw') _ IH]; intros w cur Hw.
  - cbn [map concat]. rewrite split_ws_word by apply Hw.
    cbn [split_ws_from]. now rewrite rev_app_distr, rev_involutive.
  - cbn [map concat fst snd] in *. rewrite split_ws_word by apply Hw.
    rewrite <- app_assoc, (split_ws_gap gap _ _ Hne Hgap).
    rewrite rev_app_distr, rev_involutive. f_equal.
    rewrite (split_ws_after_gap w' _ Hw'). now rewrite IH.
Qed.

Lemma spaced_last (w : jsstring) (rest : list (jsstring * jsstring)) :
  word w ->
  Forall (fun gw => fst gw <> [] /\ blank (fst gw) /\ word (snd gw)) rest ->
  exists d r,
    rev (w ++ concat (map (fun gw => fst gw ++ snd gw) rest)) = d :: r /\
    is_ws d = false.
Proof.
  intros Hw Hrest. revert w Hw.
  induction Hrest as [|[gap w'] rest (Hne & Hgap & Hw') _ IH]; intros w [Hwne Hw].
  - cbn [map concat]. rewrite app_nil_r. apply Forall_rev in Hw.
    destruct (rev w) as [|d r] eqn:Hr.
    + apply (f_equal (@rev N)) in Hr. rewrite rev_involutive in Hr. contradiction.
    + exists d, r. split; [reflexivity|]. now apply Forall_inv in Hw.
  - cbn [map concat fst snd] in *.
    destruct (IH w' Hw') as (d & r & Hr & Hd).
    replace (w ++ (gap ++ w') ++ concat (map (fun gw => fst gw ++ snd gw) rest))
      with ((w ++ gap) ++
            (w' ++ concat (map (fun gw => fst gw ++ snd gw) rest)))
      by (now rewrite <- !app_assoc).
    rewrite rev_app_distr, Hr. cbn [app].
    eexists d, _. split; [reflexivity|exact Hd].
Qed.

Lemma filter_words (l : list jsstring) : Forall word l -> filter nonempty l = l.
Proof.
  induction 1 as [|x l [Hx _] _ IH]; [reflexivity|].
  cbn [filter]. destruct x; [congruence|]. cbn [nonempty]. now rewrite IH.
Qed.

(** [wordsCount] counts the words of a text: the runs of code units that
    are not white space, whatever white space surrounds them and separates
    one from the next.  A text of white space only has no word, and neither
    has a value that is not truthy. *)
Theorem wordsCount_counts_words :
  (forall v, truthy v = false -> wordsCount v = Some O) /\
  (forall t, blank t -> wordsCount (VString t) = Some O) /\
  (forall pre w rest post,
      blank pre -> blank post -> word w ->
      Forall (fun gw => fst gw <> [] /\ blank (fst gw) /\ word (snd gw)) rest ->
      wordsCount
        (VString (pre ++ w ++ concat (map (fun gw => fst gw ++ snd gw) rest) ++ post))
      = Some (S (List.length rest))).
Proof.
  assert (Hstr : forall t, to_string (or_else (VString t) (VString [])) = Some t).
  { intros [|c t]; reflexivity. }
  split; [|split].
  - intros v Hv. unfold wordsCount, or_else. rewrite Hv. reflexivity.
  - intros t Ht. unfold wordsCount. rewrite Hstr.
    pose proof (trim_padded t [] [] Ht (Forall_nil _)) as H.
    cbn [app] in H. rewrite app_nil_r in H. rewrite H by now left. reflexivity.
  - intros pre w rest post Hpre Hpost Hw Hrest.
    unfold wordsCount. rewrite Hstr.
    rewrite app_assoc with (l := w).
    rewrite (trim_padded pre _ post Hpre Hpost).
    + unfold split_ws. rewrite (split_ws_spaced w rest [] Hw Hrest).
      cbn [rev app]. f_equal.
      assert (Hall : Forall word (w :: map snd rest)).
      { constructor; [exact Hw|]. apply Forall_map.
        eapply Forall_impl; [|exact Hrest]. intros gw (_ & _ & H). exact H. }
      etransitivity;
        [exact (f_equal (@List.length _) (filter_words _ Hall))|].
      cbn [List.length]. now rewrite length_map.
    + right. split; [|now apply spaced_last].
      destruct Hw as [Hne Hc]. destruct w as [|c r]; [congruence|].
      exists c, (r ++ concat (map (fun gw => fst gw ++ snd gw) rest)).
      split; [reflexivity|]. now apply Forall_inv in Hc.
Qed.

(** ** The object in a reply *)

Lemma upto_last_close_none s :
  Forall (fun c => c <> 125%N) s -> upto_last_close s = None.
Proof.
  induction 1 as [|c s Hc _ IH]; [reflexivity|].
  cbn [upto_last_close]. rewrite IH.
  destruct (N.eqb c 125) eqn:E; [|reflexivity].
  apply N.eqb_eq in E. contradiction.
Qed.

Lemma upto_last_close_last body post :
  Forall (fun c => c <> 125%N) post ->
  upto_last_close (body ++ 125%N :: post) = Some (body ++ [125%N]).
Proof.
  intros Hpost. induction body as [|c body IH].
  - cbn [app upto_last_close]. now rewrite (upto_last_close_none post Hpost).
  - cbn [app upto_last_close]. now rewrite IH.
Qed.

Lemma match_braces_none s :
  Forall (fun c => c <> 123%N) s -> match_braces s = None.
Proof.
  induction 1 as [|c s Hc _ IH]; [reflexivity|].
  cbn [match_braces]. destruct (N.eqb c 123) eqn:E; [|exact IH].
  apply N.eqb_eq in E. contradiction.
Qed.

Lemma match_braces_found pre body post :
  Forall (fun c => c <> 123%N) pre -> Forall (fun c => c <> 125%N) post ->
  match_braces (pre ++ 123%N :: body ++ 125%N :: post)
  = Some (123%N :: body ++ [125%N]).
Proof.
  intros Hpre Hpost. induction Hpre as [|c pre Hc _ IH].
  - cbn [app match_braces N.eqb Pos.eqb].
    now rewrite (upto_last_close_last body post Hpost).
  - cbn [app match_braces]. destruct (N.eqb c 123) eqn:E; [|exact IH].
    apply N.eqb_eq in E. contradiction.
Qed.

(** The text around the object of a reply does not matter: what precedes
    the first opening brace and what follows the last closing brace is
    dropped, and what lies between them is parsed.  A reply with no opening
    brace, or with no closing brace after the first opening one, gives the
    empty object. *)
Theorem extractJson_ignores_surrounding_text :
  (forall pre body post,
      Forall (fun c => c <> 123%N) pre -> Forall (fun c => c <> 125%N) post ->
      extractJson (pre ++ 123%N :: body ++ 125%N :: post)
      = match json_parse (123%N :: body ++ [125%N]) with
        | Some v => v
        | None => VObject []
        end) /\
  (forall str, Forall (fun c => c <> 123%N) str -> extractJson str = VObject []) /\
  (forall pre rest,
      Forall (fun c => c <> 123%N) pre -> Forall (fun c => c <> 125%N) rest ->
      extractJson (pre ++ 123%N :: rest) = VObject []).
Proof.
  repeat split.
  - intros pre body post Hpre Hpost. unfold extractJson.
    now rewrite (match_braces_found pre body post Hpre Hpost).
  - intros str Hstr. unfold extractJson. now rewrite (match_braces_none str Hstr).
  - intros pre rest Hpre Hrest. unfold extractJson.
    replace (match_braces (pre ++ 123%N :: rest)) with (@None jsstring);
      [reflexivity|].
    induction Hpre as [|c pre Hc _ IH].
    + cbn [app match_braces N.eqb Pos.eqb].
      now rewrite (upto_last_close_none rest Hrest).
    + cbn [app match_braces]. destruct (N.eqb c 123) eqn:E; [|exact IH].
      apply N.eqb_eq in E. contradiction.
Qed.

(** ** The personality drawn *)



(** ** What the history holds *)

Lemma Forall_update_at {A : Type} (P : A -> Prop) (f : A -> A) (i : nat) (l : list A) :
  (forall x, P x -> P (f x)) -> Forall P l -> Forall P (update_at f i l).
Proof.
  intros Hf Hl. revert i.
  induction Hl as [|x l Hx Hl IH]; intros [|i]; cbn [update_at]; constructor; auto.
Qed.

Lemma map_update_at {A B : Type} (g : A -> B) (f : A -> A) (i : nat) (l : list A) :
  (forall x, g (f x) = g x) -> map g (update_at f i l) = map g l.
Proof.
  intros Hf. revert i.
  induction l as [|x l IH]; intros [|i]; cbn [update_at map]; rewrite ?Hf, ?IH;
    reflexivity.
Qed.

Lemma new_item_ok s a t :
  truthy (current_question s) = true -> trim a <> [] -> item_ok (new_item s a t).
Proof.
  intros Hq Ha. repeat split; cbn [new_item question answer source];
    try assumption. apply trim_idempotent.
Qed.

Lemma json_item_set_weakness w x :
  json_item (set_weakness w x) = set_weakness w (json_item x).
Proof. reflexivity. Qed.

Lemma map_json_update_at w i l :
  map json_item l = l ->
  map json_item (update_at (set_weakness w) i l) = update_at (set_weakness w) i l.
Proof.
  revert i. induction l as [|x l IH]; intros [|i] H; cbn [update_at map] in *;
    try reflexivity; injection H as Hx Hl.
  - now rewrite json_item_set_weakness, Hx, Hl.
  - now rewrite Hx, IH.
Qed.

(** What a request leaves of the session: the session as it was, a new
    interview, the session with a question pending, or the session with one
    more entry and an analysis started for it. *)
Lemma handler_cases r e s :
  let res := run (handler r) e O s in
  (final res = s /\ detached res = []) \/
  (detached res = [] /\
   profile (final res) <> None /\ history (final res) = Some [] /\
   current_question (final res) = VNull /\ start_time (final res) <> None /\
   exists x, duration_seconds (final res) = Num x /\
             (num_is_finite x = false \/ exists d, x = of_Z d)) \/
  (detached res = [] /\
   exists q t, truthy q = true /\
               final res = set_current_question_started_at (Some t)
                             (set_current_question q s)) \/
  (exists a h, trim a <> [] /\ profile s <> None /\
               truthy (current_question s) = true /\ history s = Some h /\
               detached res = [new_item s a (clock e O)] /\
               final res = set_current_question_started_at None
                             (set_current_question VNull
                                (set_history (h ++ [new_item s a (clock e O)]) s))).
Proof.
  cbn zeta.
  destruct (detached_cases r e O s)
    as [Hd|(a & h & -> & Ha & Hp & Hq & Hh & Hd & Hf)].
  - destruct r as [b|b| |ans| |]; cbn [handler] in *.
    + left. split; [apply tts_final|exact Hd].
    + destruct (start_cases b e O s) as [(_ & H)|(Hf & _)];
        [right; left; split; [exact Hd|exact H]|left; split; assumption].
    + destruct (next_question_cases e O s) as [(q & t & _ & Hq & Hf)|(Hf & _)];
        [|left; split; assumption].
      right. right. left. split; [exact Hd|]. now exists q, t.
    + destruct (submit_cases ans e O s)
        as [(a & h & _ & _ & _ & _ & _ & Hr)|(Hf & _)];
        [|left; split; assumption].
      rewrite Hr in Hd. discriminate Hd.
    + left. split; [apply transcript_final|exact Hd].
    + left. split; [apply result_final|exact Hd].
  - right. right. right. exists a, h. repeat split; assumption.
Qed.

Lemma json_number_whole x :
  num_is_finite x = false \/ (exists d, x = of_Z d) ->
  json_number (Num x) = Null \/ exists d, json_number (Num x) = Num (of_Z d).
Proof.
  intros [H|[d ->]]; cbn [json_number].
  - rewrite H. now left.
  - right. now exists d.
Qed.

(** What a request leaves in the store, and with the analysis it starts. *)
Lemma stored_ok_request r e s :
  stored_ok s -> items_ok s ->
  let res := run (handler r) e O s in
  stored_ok (json_copy (final res)) /\ items_ok (json_copy (final res)) /\
  Forall closure_ok (map (fun it => (it, final res)) (detached res)).
Proof.
  intros Hs Hitems. pose proof Hs as (Hfix & Hok & Hclock). cbn zeta.
  destruct (handler_cases r e s)
    as [(Hf & Hd)|[(Hd & Hp & Hh & Hq & Ht & x & Hx & Hdur)|
        [(Hd & q & t & Hq & Hf)|(a & h & Ha & Hp & Hq & Hh & Hd & Hf)]]];
    rewrite Hd; cbn [map].
  - rewrite Hf, Hfix. split; [exact Hs|split; [exact Hitems|constructor]].
  - split; [|split; [|constructor]].
    + split; [apply json_copy_idem|]. split.
      * intros _. cbn [json_copy history current_question]. rewrite Hh, Hq.
        split; [discriminate|now left].
      * intros _. cbn [json_copy start_time duration_seconds]. rewrite Hx.
        split; [exact Ht|]. now apply json_number_whole.
    + intros h0. cbn [json_copy history]. rewrite Hh. cbn [option_map map].
      intros H. injection H as <-. constructor.
  - rewrite Hf.
    change (json_copy (set_current_question_started_at (Some t)
                         (set_current_question q s)))
      with (set_current_question_started_at (Some t)
              (set_current_question (json_value q) (json_copy s))).
    split; [|split; [|constructor]].
    + split.
      * change (set_current_question_started_at (Some t)
                  (set_current_question (json_value q) (json_copy s)))
          with (json_copy (set_current_question_started_at (Some t)
                             (set_current_question q s))).
        apply json_copy_idem.
      * rewrite Hfix. split; [|exact Hclock].
        intros Hp. destruct (Hok Hp) as (Hh & _). split; [exact Hh|].
        cbn [set_current_question_started_at set_current_question current_question].
        apply json_value_keeps. now right.
    + rewrite Hfix. exact Hitems.
  - rewrite Hf.
    assert (Hnew : json_item (new_item s a (clock e O)) = new_item s a (clock e O)).
    { unfold json_item, new_item. cbn [question answer weakness askedAt answeredAt source].
      now rewrite (json_copy_question s Hfix). }
    assert (Hcopy :
      json_copy (set_current_question_started_at None
                   (set_current_question VNull
                      (set_history (h ++ [new_item s a (clock e O)]) s)))
      = set_current_question_started_at None
          (set_current_question VNull
             (set_history (h ++ [new_item s a (clock e O)]) s))).
    { change (json_copy (set_current_question_started_at None
                           (set_current_question VNull
                              (set_history (h ++ [new_item s a (clock e O)]) s))))
        with (set_current_question_started_at None
                (set_current_question VNull
                   (set_history (map json_item (h ++ [new_item s a (clock e O)]))
                      (json_copy s)))).
      rewrite Hfix, map_app, (json_copy_history s h Hfix Hh). cbn [map].
      now rewrite Hnew. }
    rewrite Hcopy.
    assert (Hst : stored_ok
                    (set_current_question_started_at None
                       (set_current_question VNull
                          (set_history (h ++ [new_item s a (clock e O)]) s)))).
    { split; [exact Hcopy|]. split.
      - intros _. split; [discriminate|now left].
      - exact Hclock. }
    assert (Hit : items_ok
                    (set_current_question_started_at None
                       (set_current_question VNull
                          (set_history (h ++ [new_item s a (clock e O)]) s)))).
    { intros h0 H. injection H as <-. apply Forall_app.
      split; [now apply Hitems|].
      constructor; [|constructor]. now apply new_item_ok. }
    split; [exact Hst|]. split; [exact Hit|].
    constructor; [|constructor].
    split; [exact Hst|]. split; [exact Hit|]. split; [exact Hp|reflexivity].
Qed.

(** What a completed analysis saves. *)
Lemma stored_ok_analysis it e own snapshot :
  closure_ok (it, own) ->
  In snapshot (saved (run (weakness_analysis it) e O own)) ->
  stored_ok (json_copy snapshot) /\ items_ok (json_copy snapshot).
Proof.
  intros ((Hfix & Hok & Hclock) & Hitems & Hp & Hq) Hin. cbn [snd] in *.
  destruct (analysis_cases it e O own)
    as (_ & _ & [(_ & Hs)|(h & idx & w & Hh & Hf & Hs)]);
    rewrite Hs in Hin; cbn [In] in Hin; [contradiction|].
  destruct Hin as [<-|[]]. rewrite Hf.
  assert (Hcopy :
    json_copy (set_history (update_at (set_weakness w) idx h) own)
    = set_history (update_at (set_weakness w) idx h) own).
  { change (json_copy (set_history (update_at (set_weakness w) idx h) own))
      with (set_history (map json_item (update_at (set_weakness w) idx h))
              (json_copy own)).
    now rewrite Hfix, (map_json_update_at w idx h (json_copy_history own h Hfix Hh)). }
  rewrite Hcopy. split.
  - split; [exact Hcopy|]. split.
    + intros _. split; [discriminate|]. left. exact Hq.
    + exact Hclock.
  - intros h0 H. injection H as <-.
    apply Forall_update_at; [|now apply Hitems].
    intros x Hx. exact Hx.
Qed.

Lemma Forall_remove_nth {A : Type} (P : A -> Prop) (k : nat) (l : list A) :
  Forall P l -> Forall P (remove_nth k l).
Proof.
  intros H. revert k.
  induction H as [|x l Hx Hl IH]; intros [|k]; cbn [remove_nth].
  - constructor.
  - constructor.
  - exact Hl.
  - constructor; [exact Hx|apply IH].
Qed.

(** Every event keeps the server as [server_ok] says. *)
Lemma server_ok_step ev e sv : server_ok sv -> server_ok (snd (step ev e sv)).
Proof.
  intros (Hst & Hit & Hfl). destruct ev as [r|k]; cbn [step snd].
  - destruct (stored_ok_request r e (store sv) Hst Hit) as (H1 & H2 & H3).
    split; [exact H1|]. split; [exact H2|].
    cbn [in_flight]. apply Forall_app. now split.
  - destruct (nth_error (in_flight sv) k) as [[it own]|] eqn:Hk;
      [|split; [exact Hst|split; [exact Hit|exact Hfl]]].
    cbn [snd store in_flight].
    assert (Hc : closure_ok (it, own)).
    { apply nth_error_In in Hk. rewrite Forall_forall in Hfl. exact (Hfl _ Hk). }
    split; [|split; [|now apply Forall_remove_nth]].
    + destruct (analysis_cases it e O own)
        as (_ & _ & [(_ & Hs)|(h & idx & w & _ & _ & Hs)]);
        rewrite Hs; cbn [save_all fold_left]; [exact Hst|].
      apply (stored_ok_analysis it e own); [exact Hc|].
      rewrite Hs. now left.
    + destruct (analysis_cases it e O own)
        as (_ & _ & [(_ & Hs)|(h & idx & w & _ & _ & Hs)]);
        rewrite Hs; cbn [save_all fold_left]; [exact Hit|].
      apply (stored_ok_analysis it e own); [exact Hc|].
      rewrite Hs. now left.
Qed.

Lemma server_ok_fresh : server_ok fresh_server.
Proof.
  split; [|split; [|constructor]].
  - split; [reflexivity|]. split; intros H; now contradiction H.
  - intros h H. discriminate H.
Qed.

Lemma server_ok_preserved evs sv :
  server_ok sv -> server_ok (snd (serve_all evs sv)).
Proof.
  revert sv. induction evs as [|[ev e] evs IH]; intros sv Hok; [exact Hok|].
  cbn [serve_all].
  pose proof (server_ok_step ev e sv Hok) as H1.
  destruct (step ev e sv) as [o sv1]. cbn [snd] in H1.
  specialize (IH sv1 H1).
  destruct (serve_all evs sv1) as [log sv2]. exact IH.
Qed.

(** What the store holds, whatever requests were served and whatever
    analyses completed since the session was fresh: a session that is its
    own copy; once an interview was started it has a history, a
    current_question that is null or truthy, a start time, and a duration
    that is null or a whole number of seconds. *)
Theorem stored_ok_reachable evs :
  let s := store (snd (serve_all evs fresh_server)) in
  json_copy s = s /\
  (profile s <> None ->
   history s <> None /\
   (current_question s = VNull \/ truthy (current_question s) = true) /\
   start_time s <> None /\
   (duration_seconds s = Null \/ exists d, duration_seconds s = Num (of_Z d))).
Proof.
  destruct (server_ok_preserved evs fresh_server server_ok_fresh)
    as ((Hfix & Hok & Hclock) & _). cbn zeta.
  split; [exact Hfix|]. intros Hp.
  destruct (Hok Hp) as (Hh & Hq). destruct (Hclock Hp) as (Ht & Hd).
  repeat split; assumption.
Qed.

(** In every session that the store holds, reached from a fresh one by
    requests and completed analyses, each entry of the history has a truthy
    question, an answer that is not empty and carries no white space at
    either end, and the source "speech_to_text". *)
Theorem history_entries_well_formed evs h :
  history (store (snd (serve_all evs fresh_server))) = Some h -> Forall item_ok h.
Proof.
  destruct (server_ok_preserved evs fresh_server server_ok_fresh) as (_ & Hit & _).
  apply Hit.
Qed.





(** ** From the question asked to the entry recorded *)





(** ** After the time is up *)


Lemma server_eta sv : {| store := store sv; in_flight := in_flight sv |} = sv.
Proof. now destruct sv. Qed.


(** ** A duration that [parseInt] does not read *)

Lemma num_geb_whole a b : num_geb (of_Z a) (of_Z b) = (b <=? a).
Proof.
  unfold num_geb, num_lt, of_Z. rewrite negb_involutive.
  destruct (b <=? a) eqn:H.
  - apply Z.leb_le in H. apply Qle_bool_iff. now rewrite <- Zle_Qle.
  - destruct (Qle_bool (inject_Z b) (inject_Z a)) eqn:Hq; [|reflexivity].
    apply Qle_bool_iff in Hq. rewrite <- Zle_Qle in Hq.
    apply Z.leb_gt in H. lia.
Qed.

(** A duration that converts to a positive number but that [parseInt]
    cannot read (["Infinity"], [".5"]) is accepted.  The session object
    gets NaN seconds, which the store keeps as null; and null counts as 0:
    in a stored session with a null duration the end time is the start
    time, so from the start on the remaining time is 0, an accepted
    submission reports that the time is up, and a fetch with a history and
    nothing pending answers the end signal. *)
Theorem unparsed_duration_ends_at_once :
  (forall b t e n s,
      truthy (body_type b) = true -> truthy (body_resume b) = true ->
      body_duration b = VString t ->
      num_is_nan (string_to_number t) = false ->
      num_leb (string_to_number t) (of_Z 0) = false ->
      parse_int_string t = NaN ->
      let r := run (api_start b) e n s in
      outcome r = Some (respond 200 Success) /\
      duration_seconds (final r) = Num NaN /\
      duration_seconds (json_copy (final r)) = Null /\
      start_time (json_copy (final r)) = Some (clock e n)) /\
  (forall s t,
      duration_seconds s = Null -> start_time s = Some t -> 0 <= t <= 2 ^ 53 ->
      end_time s = of_Z t /\
      (forall e n, t <= clock e n <= 2 ^ 53 ->
                   outcome (run secondsLeft e n s) = Some (of_Z 0)) /\
      (forall ans e n x,
          t <= clock e (S n) ->
          outcome (run (api_submit_answer ans) e n s) = Some x ->
          status x = 200 -> payload x = TimeUp true) /\
      (forall e n p it h,
          t <= clock e n -> profile s = Some p -> history s = Some (it :: h) ->
          current_question s = VNull ->
          run api_next_question e n s
          = {| outcome := Some (respond 200 EndSignal); final := s; calls := [];
               detached := []; saved := []; ticks := S n |})).
Proof.
  split.
  - intros b t e n s Hty Hre Hd Hnan Hpos Hint.
    assert (Ht : truthy (VString t) = true).
    { destruct t; [|reflexivity]. discriminate Hpos. }
    unfold api_start, parse_int. rewrite Hty, Hre, Hd, Ht.
    cbn [negb orb to_number to_string option_map]. run_step.
    rewrite Hnan. run_step. rewrite Hpos. run_step.
    rewrite Hint. unfold getRandomPersonality. run_step.
    repeat split; reflexivity.
  - intros s t Hd Ht Hbound.
    assert (Hend : end_time s = of_Z t).
    { rewrite (end_time_whole s t 0 Ht); [f_equal; lia| |lia|lia|lia].
      now rewrite Hd. }
    split; [exact Hend|]. split; [|split].
    + intros e n Hnow. rewrite seconds_left_outcome, Hend.
      rewrite remaining_exact by lia. do 2 f_equal.
      assert ((t - clock e n) / 1000 <= 0) by (apply Z.div_le_upper_bound; lia).
      lia.
    + intros ans e n x Hnow Ho Hs.
      destruct (submit_cases ans e n s)
        as [(a & h & _ & _ & _ & _ & _ & Hr)|(_ & _ & _ & [H|[msg H]])].
      * rewrite Hr in Ho. cbn [outcome] in Ho. injection Ho as <-.
        cbn [respond payload]. rewrite Hend, num_geb_whole.
        f_equal. now apply Z.leb_le.
      * rewrite H in Ho. discriminate.
      * rewrite H in Ho. injection Ho as <-. discriminate.
    + intros e n p it h Hnow Hp Hh Hq.
      unfold api_next_question. run_step. rewrite Hp. run_step.
      rewrite Hend, num_geb_whole.
      replace (t <=? clock e n) with true by (symmetry; now apply Z.leb_le).
      run_step. rewrite Hh, Hq. reflexivity.
Qed.

(** ** A fresh interview *)

Lemma start_success b e n s :
  outcome (run (api_start b) e n s) = Some (respond 200 Success) ->
  exists d pers,
    final (run (api_start b) e n s)
    = {| profile := Some {| type := body_type b; resume := body_resume b |};
         duration_seconds := Num d; start_time := Some (clock e n);
         personality := pers; history := Some []; current_question := VNull;
         current_question_started_at := current_question_started_at s |}.
Proof.
  unfold api_start, getRandomPersonality.
  crunch; intros H; try discriminate H.
  do 2 eexists. reflexivity.
Qed.

(** Right after a successful start the interview is empty: the transcript
    shows the profile given, the start time and no entry; a result is
    refused with "No interview data" and a submission with "Invalid state",
    both leaving the session as it is; and a fetch never answers the end
    signal, however late it comes.  The same holds of the copy that the
    store keeps, whose profile is the copy of the one given. *)
Theorem fresh_interview b e n s :
  outcome (run (api_start b) e n s) = Some (respond 200 Success) ->
  let s1 := final (run (api_start b) e n s) in
  let p := {| type := body_type b; resume := body_resume b |} in
  ((forall e' n',
      run api_transcript e' n' s1
      = {| outcome := Some (respond 200
                              (Transcript p (personality s1) (Some (clock e n))
                                          (duration_seconds s1) []));
           final := s1; calls := []; detached := []; saved := []; ticks := n' |}) /\
   (forall e' n', run api_result e' n' s1 = rejected (lit "No interview data") n' s1) /\
   (forall ans e' n',
       run (api_submit_answer ans) e' n' s1 = rejected (lit "Invalid state") n' s1) /\
   (forall e' n' x,
       outcome (run api_next_question e' n' s1) = Some x -> payload x <> EndSignal)) /\
  (let s2 := json_copy s1 in
   (forall e' n',
      run api_transcript e' n' s2
      = {| outcome := Some (respond 200
                              (Transcript (json_profile p) (personality s1)
                                          (Some (clock e n))
                                          (json_number (duration_seconds s1)) []));
           final := s2; calls := []; detached := []; saved := []; ticks := n' |}) /\
   (forall e' n', run api_result e' n' s2 = rejected (lit "No interview data") n' s2) /\
   (forall ans e' n',
       run (api_submit_answer ans) e' n' s2 = rejected (lit "Invalid state") n' s2) /\
   (forall e' n' x,
       outcome (run api_next_question e' n' s2) = Some x -> payload x <> EndSignal)).
Proof.
  intros Ho s1 p. subst s1 p.
  destruct (start_success b e n s Ho) as (d & pers & ->).
  assert (Hfetch : forall s0 p0,
             profile s0 = Some p0 -> history s0 = Some [] ->
             forall e' n' x,
               outcome (run api_next_question e' n' s0) = Some x ->
               payload x <> EndSignal).
  { intros s0 p0 Hp Hh e' n' x. unfold api_next_question. run_step.
    rewrite Hp. run_step.
    match goal with
    | |- context [if ?c then _ else _] => destruct c
    end; rewrite ?Hh; run_step; cbn [List.length Nat.ltb Nat.leb andb];
      run_step; apply generate_question_outcome. }
  split.
  - split; [reflexivity|]. split; [reflexivity|]. split.
    + intros ans e' n'. apply submit_invalid_state. reflexivity.
    + eapply Hfetch; reflexivity.
  - cbn zeta. split; [reflexivity|]. split; [reflexivity|]. split.
    + intros ans e' n'. apply submit_invalid_state. reflexivity.
    + eapply Hfetch; reflexivity.
Qed.

(** ** The prompt, path by path *)

Lemma slice_last_short {A : Type} (l : list A) :
  (List.length l <= 5)%nat -> slice_last 5 l = l.
Proof.
  intros H. unfold slice_last.
  replace (List.length l - 5)%nat with O by lia. reflexivity.
Qed.

(** What [build_messages] does once the texts of the profile convert. *)
Lemma build_messages_run p e n s h typeStr resumeStr sparse :
  to_string (or_else (type p) (VString [])) = Some typeStr ->
  to_string (or_else (resume p) (VString [])) = Some resumeStr ->
  profile_sparse (or_else (resume p) (VString [])) (or_else (type p) (VString []))
  = Some sparse ->
  history s = Some h ->
  let left := num_max (of_Z 0)
                (num_floor (num_div (num_sub (end_time s) (of_Z (clock e n)))
                                    (of_Z 1000))) in
  let opening := opening_messages (personality s) typeStr resumeStr left sparse in
  let stop (cs : list call) (k : nat) : result (list message) :=
    {| outcome := None; final := s; calls := cs; detached := []; saved := []; ticks := k |} in
  let done (msgs : list message) (cs : list call) (k : nat) : result (list message) :=
    {| outcome := Some msgs; final := s; calls := cs; detached := []; saved := []; ticks := k |} in
  run (build_messages p) e n s =
  if (0 <? List.length h)%nat then
    if (5 <? List.length h)%nat then
      match format_block (slice_but_last 5 h) with
      | None => stop [] (S n)
      | Some older =>
          match chat e (S n) (summary_request older) with
          | ChatFailed => stop [ChatCall (summary_request older)] (S (S n))
          | Content c =>
              match format_block (slice_last 5 h) with
              | None => stop [ChatCall (summary_request older)] (S (S n))
              | Some recent =>
                  done (opening ++ [summary_message (trim c);
                                    last_five_message recent; ask_message])
                       [ChatCall (summary_request older)] (S (S n))
              end
          end
      end
    else
      match format_block (slice_last 5 h) with
      | None => stop [] (S n)
      | Some recent => done (opening ++ [last_five_message recent; ask_message]) [] (S n)
      end
  else done (opening ++ [ask_message]) [] (S n).
Proof.
  intros Ht Hr Hs Hh left opening stop done. subst left opening stop done.
  unfold build_messages, secondsLeft. run_step.
  rewrite Hs, Ht, Hr, Hh. run_step.
  destruct (0 <? List.length h)%nat eqn:H0; run_step; [|reflexivity].
  destruct (5 <? List.length h)%nat eqn:H5; run_step.
  - pose proof (slice_but_last_nonempty 5 h (proj1 (Nat.ltb_lt _ _) H5)) as Hne.
    unfold summarizeOld.
    destruct (slice_but_last 5 h) as [|it0 older0] eqn:Hold; [congruence|].
    destruct (format_block (it0 :: older0)) as [older|]; run_step; [|reflexivity].
    destruct (chat e (S n) (summary_request older)) as [c|]; run_step;
      [|reflexivity].
    destruct (format_block (slice_last 5 h)) as [recent|]; run_step;
      [|reflexivity].
    cbn [opening_messages app]. reflexivity.
  - destruct (format_block (slice_last 5 h)) as [recent|]; run_step;
      [|reflexivity].
    cbn [opening_messages app]. reflexivity.
Qed.

Lemma convertible_texts p s h :
  convertible p s -> history s = Some h ->
  exists typeStr resumeStr sparse older recent,
    to_string (or_else (type p) (VString [])) = Some typeStr /\
    to_string (or_else (resume p) (VString [])) = Some resumeStr /\
    profile_sparse (or_else (resume p) (VString [])) (or_else (type p) (VString []))
    = Some sparse /\
    format_block (slice_but_last 5 h) = Some older /\
    format_block (slice_last 5 h) = Some recent.
Proof.
  intros (Hr & Ht & Hq) Hh. specialize (Hq h Hh).
  destruct (Forall_slices _ 5 h Hq) as [Hold Hnew].
  apply format_block_defined in Hold, Hnew.
  pose proof (profile_sparse_defined _ _ (wordsCount_defined _ Hr)
                (wordsCount_defined _ Ht)) as Hsp.
  destruct (to_string (or_else (type p) (VString []))) as [typeStr|]; [|congruence].
  destruct (to_string (or_else (resume p) (VString []))) as [resumeStr|]; [|congruence].
  destruct (profile_sparse _ _) as [sparse|]; [|congruence].
  destruct (format_block (slice_but_last 5 h)) as [older|]; [|congruence].
  destruct (format_block (slice_last 5 h)) as [recent|]; [|congruence].
  exists typeStr, resumeStr, sparse, older, recent. repeat split.
Qed.

(** The summary of the older entries is requested outside the [try] block
    that guards the question: when that completion fails, the exception
    leaves the handler.  The handler sends no response (not the 500 of a
    failed question), requests no question and leaves the session as it
    is. *)
Theorem failed_summary_is_not_caught p e n s h :
  profile s = Some p -> history s = Some h -> (5 < List.length h)%nat ->
  convertible p s ->
  num_geb (of_Z (clock e n)) (end_time s) && negb (truthy (current_question s))
  = false ->
  exists older,
    format_block (slice_but_last 5 h) = Some older /\
    (chat e (S (S n)) (summary_request older) = ChatFailed ->
     run api_next_question e n s
     = {| outcome := None; final := s;
          calls := [ChatCall (summary_request older)];
          detached := []; saved := []; ticks := S (S (S n)) |}).
Proof.
  intros Hp Hh Hlen Hconv Hgo.
  destruct (convertible_texts p s h Hconv Hh)
    as (typeStr & resumeStr & sparse & older & recent & Ht & Hr & Hs & Ho & Hn).
  exists older. split; [exact Ho|]. intros Hfail.
  assert (Hgen : run (generate_question p) e (S n) s
                 = {| outcome := None; final := s;
                      calls := [ChatCall (summary_request older)];
                      detached := []; saved := []; ticks := S (S (S n)) |}).
  { rewrite generate_question_run.
    rewrite (build_messages_run p e (S n) s h typeStr resumeStr sparse Ht Hr Hs Hh).
    cbn zeta.
    replace (0 <? List.length h)%nat with true by (symmetry; apply Nat.ltb_lt; lia).
    replace (5 <? List.length h)%nat with true by (symmetry; now apply Nat.ltb_lt).
    rewrite Ho, Hfail. reflexivity. }
  unfold api_next_question. run_step. rewrite Hp. run_step. rewrite Hh.
  destruct (num_geb (of_Z (clock e n)) (end_time s)); run_step.
  - cbn [andb] in Hgo. rewrite Hgo, andb_false_r. exact Hgen.
  - exact Hgen.
Qed.

Lemma join_first (sep first : jsstring) (rest : list jsstring) :
  join sep (first :: rest) = first ++ concat (map (fun t => sep ++ t) rest).
Proof.
  destruct rest as [|x rest]; [cbn; now rewrite app_nil_r|].
  change (join sep (first :: x :: rest)) with (first ++ sep ++ join sep (x :: rest)).
  now rewrite join_concat by discriminate.
Qed.

(** A history of at most five entries is quoted in full and nothing is
    summarised.  The prompt is the instructions to the interviewer, the
    profile with its hint, the entries quoted under "Last five Q&A and
    weaknesses:" (when there are any), one after the other with a blank line
    between, and the closing instruction; and the request for the question,
    at temperature 0.7, is the only call made. *)
Theorem short_history_is_quoted_in_full p e n s h :
  history s = Some h -> (List.length h <= 5)%nat -> convertible p s ->
  exists typeStr resumeStr sparse left texts,
    to_string (or_else (type p) (VString [])) = Some typeStr /\
    to_string (or_else (resume p) (VString [])) = Some resumeStr /\
    profile_sparse (or_else (resume p) (VString [])) (or_else (type p) (VString []))
    = Some sparse /\
    outcome (run secondsLeft e n s) = Some left /\
    Forall2 (fun it text => quoted it text) h texts /\
    let msgs :=
      [ {| role := system;
           content :=
             lit "You are a " ++
             match personality s with Some t => t | None => lit "undefined" end ++
             lit " interviewer running a TIMED interview." ++ [10%N] ++
             lit "Interview type: " ++ typeStr ++ [10%N] ++
             lit "Time remaining: " ++ number_to_string left ++ lit " seconds." ++
             [10%N; 10%N] ++
             lit "You must ask EXACTLY ONE question at a time." ++ [10%N; 10%N] ++
             lit "Behavior rules:" ++ [10%N] ++
             lit "- If the candidate profile/answers are missing critical details needed to interview well (target role/title, level/seniority, location, availability, goals, key experience), ask a concise clarifying question first." ++ [10%N] ++
             lit "- If time remaining is short (<= 120 seconds), ask ONLY the single highest-impact missing detail." ++ [10%N] ++
             lit "- If the last answer was vague or lacked specifics (see weaknesses), ask a focused follow-up for details." ++ [10%N] ++
             lit "- Otherwise, ask a professional, role-relevant interview question based on the candidate's resume and prior answers." ++ [10%N] ++
             lit "- Avoid multi-part questions unless absolutely necessary." ++
             [10%N; 10%N] ++
             lit "Output ONLY a JSON object with a single field: " ++ [34%N] ++
             lit "question" ++ [34%N] ++ lit ". No extra text." |};
        {| role := user;
           content :=
             lit "Candidate profile (resume / notes):" ++ [10%N] ++ resumeStr ++
             [10%N; 10%N] ++ lit "Hint: profile_sparse=" ++
             (if sparse then lit "true" else lit "false") |} ]
      ++ match texts with
         | [] => []
         | first :: rest =>
             [ {| role := user;
                  content :=
                    lit "Last five Q&A and weaknesses:" ++ [10%N] ++ first ++
                    concat (map (fun text => [10%N; 10%N] ++ text) rest) |} ]
         end
      ++ [ {| role := user; content := lit "Ask the next question now." |} ] in
    run (build_messages p) e n s
    = {| outcome := Some msgs; final := s; calls := []; detached := []; saved := [];
         ticks := S n |} /\
    calls (run (generate_question p) e n s)
    = [ChatCall {| model := OPENAI_MODEL; messages := msgs; temperature := 7 # 10 |}].
Proof.
  intros Hh Hlen Hconv.
  destruct (convertible_texts p s h Hconv Hh)
    as (typeStr & resumeStr & sparse & older & recent & Ht & Hr & Hs & _ & Hn).
  rewrite (slice_last_short h Hlen) in Hn.
  unfold format_block in Hn.
  destruct (format_items h) as [texts|] eqn:Htexts; [|discriminate].
  injection Hn as <-.
  exists typeStr, resumeStr, sparse.
  eexists. exists texts.
  split; [exact Ht|]. split; [exact Hr|]. split; [exact Hs|].
  split; [apply seconds_left_outcome|].
  split; [now apply format_items_quoted|].
  cbn zeta.
  match goal with
  | |- run _ _ _ _ = {| outcome := Some ?m; final := _; calls := _;
                        detached := _; saved := _; ticks := _ |} /\ _ =>
      assert (Hrun : run (build_messages p) e n s
                     = {| outcome := Some m; final := s; calls := [];
                          detached := []; saved := []; ticks := S n |})
  end.
  { rewrite (build_messages_run p e n s h typeStr resumeStr sparse Ht Hr Hs Hh).
    cbn zeta.
    replace (5 <? List.length h)%nat with false by (symmetry; apply Nat.ltb_ge; lia).
    rewrite (slice_last_short h Hlen). unfold format_block. rewrite Htexts.
    cbn [option_map].
    destruct h as [|it h]; cbn [List.length Nat.ltb Nat.leb].
    - cbn [format_items] in Htexts. injection Htexts as <-.
      destruct sparse; reflexivity.
    - destruct texts as [|first rest].
      + cbn [format_items] in Htexts.
        destruct (format_item it); [|discriminate].
        destruct (format_items h); discriminate.
      + unfold last_five_message. rewrite (join_first (nl ++ nl) first rest).
        destruct sparse; reflexivity. }
  split; [exact Hrun|].
  rewrite generate_question_run, Hrun. reflexivity.
Qed.

(** ** Who is called *)

Lemma tts_effects b e n s :
  detached (run (api_tts b) e n s) = [] /\
  (calls (run (api_tts b) e n s) = [] \/
   exists req, calls (run (api_tts b) e n s) = [SpeechCall req] /\
               tts_model req = OPENAI_TTS_MODEL).
Proof.
  unfold api_tts. crunch; split; try reflexivity; try (left; reflexivity);
    right; eexists; split; reflexivity.
Qed.

Lemma start_effects b e n s :
  calls (run (api_start b) e n s) = [] /\ detached (run (api_start b) e n s) = [].
Proof. unfold api_start, getRandomPersonality. crunch; split; reflexivity. Qed.

Lemma transcript_effects e n s :
  calls (run api_transcript e n s) = [] /\ detached (run api_transcript e n s) = [].
Proof. unfold api_transcript. crunch; split; reflexivity. Qed.

Lemma build_messages_effects p e n s :
  calls (run (build_messages p) e n s) = [] \/
  exists block, calls (run (build_messages p) e n s) = [ChatCall (summary_request block)].
Proof.
  unfold build_messages, secondsLeft, summarizeOld.
  crunch; try (left; reflexivity); right; eexists; reflexivity.
Qed.

Lemma generate_question_effects p e n s :
  detached (run (generate_question p) e n s) = [] /\
  exists l,
    calls (run (generate_question p) e n s) = l /\ (List.length l <= 2)%nat /\
    Forall (fun c => exists req, c = ChatCall req /\ model req = OPENAI_MODEL /\
                                 (temperature req = 5 # 10 \/ temperature req = 7 # 10)) l.
Proof.
  rewrite generate_question_run.
  destruct (build_messages_effects p e n s) as [Hc|[block Hc]]; rewrite Hc;
    destruct (outcome (run (build_messages p) e n s)) as [msgs|];
    cbn zeta; cbn [calls detached app]; rewrite ?ask_run;
    try (destruct (chat e _ (ask_request msgs)); cbn [detached]);
    (split; [reflexivity|]); eexists; (split; [reflexivity|]);
    (split; [cbn; lia|]);
    repeat (constructor; [eexists; split; [reflexivity|]; split;
                          [reflexivity|(now left) || (now right)]|]);
    constructor.
Qed.

Lemma next_question_effects e n s :
  detached (run api_next_question e n s) = [] /\
  exists l,
    calls (run api_next_question e n s) = l /\ (List.length l <= 2)%nat /\
    Forall (fun c => exists req, c = ChatCall req /\ model req = OPENAI_MODEL /\
                                 (temperature req = 5 # 10 \/ temperature req = 7 # 10)) l.
Proof.
  unfold api_next_question.
  crunch; try apply generate_question_effects;
    (split; [reflexivity|]); exists []; repeat split; cbn; try lia; constructor.
Qed.

Lemma analysis_effects it e n s :
  calls (run (weakness_analysis it) e n s) = [] \/
  exists q, calls (run (weakness_analysis it) e n s)
            = [ChatCall (weakness_request q (answer it))].
Proof.
  unfold weakness_analysis.
  crunch; try (left; reflexivity); right; eexists; reflexivity.
Qed.

Lemma route_effects r e n s :
  let res := run (handler r) e n s in
  (forall req, In (ChatCall req) (calls res) ->
     model req = OPENAI_MODEL /\
     (temperature req = 5 # 10 \/ temperature req = 6 # 10 \/
      temperature req = 7 # 10) /\
     match r with
     | GetNextQuestion | GetResult => True
     | _ => False
     end) /\
  (forall req, In (SpeechCall req) (calls res) ->
     tts_model req = OPENAI_TTS_MODEL /\
     match r with PostTts _ => True | _ => False end) /\
  (List.length (calls res) <=
   match r with
   | GetNextQuestion => 2
   | PostTts _ | GetResult => 1
   | _ => 0
   end)%nat /\
  (List.length (detached res) <=
   match r with PostSubmitAnswer _ => 1 | _ => 0 end)%nat.
Proof.
  intros res. subst res.
  destruct r as [b|b| |ans| |]; cbn [handler].
  - destruct (tts_effects b e n s) as [-> [->|(req0 & -> & Hm)]];
      (split; [|split; [|split]]); cbn [List.length]; try lia; in_calls.
    split; [exact Hm|exact I].
  - destruct (start_effects b e n s) as [-> ->].
    (split; [|split; [|split]]); cbn [List.length]; try lia; in_calls.
  - destruct (next_question_effects e n s) as (-> & l & -> & Hlen & Hall).
    rewrite Forall_forall in Hall.
    (split; [|split; [|split]]); cbn [List.length]; try lia; intros req H;
      destruct (Hall _ H) as (req0 & Heq & Hm & Ht); try discriminate Heq.
    injection Heq as ->. split; [exact Hm|]. split; [|exact I].
    destruct Ht as [Ht|Ht]; [now left|now right; right].
  - destruct (submit_cases ans e n s)
      as [(a & h & _ & _ & _ & _ & _ & ->)|(_ & -> & -> & _)];
      (split; [|split; [|split]]); cbn [calls detached List.length]; try lia;
      in_calls.
  - destruct (transcript_effects e n s) as [-> ->].
    (split; [|split; [|split]]); cbn [List.length]; try lia; in_calls.
  - rewrite result_run. unfold rejected.
    destruct (history s) as [[|it0 h]|];
      try destruct (chat e n (result_request (it0 :: h)));
      cbn zeta; (split; [|split; [|split]]);
      cbn [calls detached List.length]; try lia; in_calls;
      (split; [reflexivity|]); (split; [now left|exact I]).
Qed.

(** Which collaborator a request reaches, and how often.  Completions are
    requested only by next-question (at most two: the summary and the
    question), by result and by a weakness analysis (at most one each),
    always from the configured model and at temperature 0.5, 0.6 or 0.7 (0.6
    for the analysis); speech only by the speech route, at most once, from
    the configured speech model.  Start and transcript call nobody; a
    submission calls nobody itself and is the only request to start a
    weakness analysis, at most one.  An analysis starts nothing and calls
    [req.session.save] at most once. *)
Theorem collaborators_called_by_route r e n s :
  let res := run (handler r) e n s in
  (forall req, In (ChatCall req) (calls res) ->
     model req = OPENAI_MODEL /\
     (temperature req = 5 # 10 \/ temperature req = 6 # 10 \/
      temperature req = 7 # 10) /\
     match r with
     | GetNextQuestion | GetResult => True
     | _ => False
     end) /\
  (forall req, In (SpeechCall req) (calls res) ->
     tts_model req = OPENAI_TTS_MODEL /\
     match r with PostTts _ => True | _ => False end) /\
  (List.length (calls res) <=
   match r with
   | GetNextQuestion => 2
   | PostTts _ | GetResult => 1
   | _ => 0
   end)%nat /\
  (List.length (detached res) <=
   match r with PostSubmitAnswer _ => 1 | _ => 0 end)%nat /\
  (forall it,
     let a := run (weakness_analysis it) e n s in
     (forall req, In (ChatCall req) (calls a) ->
        model req = OPENAI_MODEL /\ temperature req = 6 # 10) /\
     (forall req, ~ In (SpeechCall req) (calls a)) /\
     (List.length (calls a) <= 1)%nat /\ detached a = [] /\
     (List.length (saved a) <= 1)%nat).
Proof.
  intros res. subst res.
  destruct (route_effects r e n s) as (H1 & H2 & H3 & H4).
  split; [exact H1|]. split; [exact H2|]. split; [exact H3|]. split; [exact H4|].
  intros it a. subst a.
  destruct (analysis_cases it e n s) as (_ & Hd & Hs).
  assert (Hsaved : (List.length (saved (run (weakness_analysis it) e n s)) <= 1)%nat).
  { destruct Hs as [(_ & ->)|(h & idx & w & _ & _ & ->)]; cbn; lia. }
  destruct (analysis_effects it e n s) as [Hc|(q & Hc)]; rewrite Hc.
  - split; [intros req []|]. split; [intros req []|].
    split; [cbn; lia|]. split; [exact Hd|exact Hsaved].
  - split; [intros req [H|[]]; injection H as <-; split; reflexivity|].
    split; [intros req [H|[]]; discriminate H|].
    split; [cbn; lia|]. split; [exact Hd|exact Hsaved].
Qed.

(** ** The speech request *)

Lemma tts_request b e n s req :
  In (SpeechCall req) (calls (run (api_tts b) e n s)) ->
  exists t v sp i,
    to_string (coalesce (tts_text b) (VString [])) = Some t /\
    to_string (or_else (tts_voice b) (VString OPENAI_TTS_VOICE)) = Some v /\
    to_number (tts_speed b) = Some sp /\
    to_string (or_else (tts_instructions b) (VString [])) = Some i /\
    req = {| tts_model := OPENAI_TTS_MODEL;
             voice := trim v;
             input := firstn max_input (trim t);
             instructions :=
               if nonempty (trim i) then trim i
               else default_instructions
                      match personality s with
                      | Some p => if nonempty p then p else lit "professional"
                      | None => lit "professional"
                      end;
             speed := if num_is_finite sp then sp else OPENAI_TTS_SPEED;
             response_format := lit "mp3" |}.
Proof.
  unfold api_tts.
  destruct (to_string (coalesce (tts_text b) (VString []))) as [t|];
    run_step; [|intros []].
  rewrite truncated_input.
  crunch; cbn [In]; intros Hin; try contradiction;
    destruct Hin as [Hin|[]]; injection Hin as <-;
    do 4 eexists; repeat split;
    repeat match goal with
           | H : ?x = _ |- context [if ?x then _ else _] => rewrite H
           end; reflexivity.
Qed.

(** The request sent to the speech collaborator.  The voice is the trimmed
    voice of the body, or the configured one when the body has none; the
    speed is the body's when it converts to a finite number (null converts
    to 0) and the configured one otherwise; the instructions are the body's
    when they are not blank, and otherwise "Speak like a ... interviewer.
    Natural pacing, slight pauses, not robotic." with the personality of the
    session, "professional" when it has none; the input is the trimmed text
    cut to 4096 code units and the format is mp3. *)
Theorem speech_request_defaults b e n s req :
  In (SpeechCall req) (calls (run (api_tts b) e n s)) ->
  let pers :=
    match personality s with
    | Some p => if nonempty p then p else lit "professional"
    | None => lit "professional"
    end in
  (exists t v sp i,
      to_string (coalesce (tts_text b) (VString [])) = Some t /\
      to_string (or_else (tts_voice b) (VString OPENAI_TTS_VOICE)) = Some v /\
      to_number (tts_speed b) = Some sp /\
      to_string (or_else (tts_instructions b) (VString [])) = Some i /\
      req = {| tts_model := OPENAI_TTS_MODEL;
               voice := trim v;
               input := firstn 4096 (trim t);
               instructions :=
                 if nonempty (trim i) then trim i
                 else lit "Speak like a " ++ pers ++
                      lit " interviewer. Natural pacing, slight pauses, not robotic.";
               speed := if num_is_finite sp then sp else OPENAI_TTS_SPEED;
               response_format := lit "mp3" |}) /\
  (truthy (tts_voice b) = false -> voice req = trim OPENAI_TTS_VOICE) /\
  (tts_speed b = VUndefined -> speed req = OPENAI_TTS_SPEED) /\
  (tts_speed b = VNull -> speed req = of_Z 0) /\
  (truthy (tts_instructions b) = false ->
   instructions req
   = lit "Speak like a " ++ pers ++
     lit " interviewer. Natural pacing, slight pauses, not robotic.").
Proof.
  intros Hin pers. subst pers.
  pose proof (tts_request b e n s req Hin) as Hreq.
  split; [exact Hreq|].
  destruct Hreq as (t & v & sp & i & Ht & Hv & Hsp & Hi & ->).
  cbn [voice speed instructions]. repeat split.
  - intros Hf. unfold or_else in Hv. rewrite Hf in Hv. now injection Hv as <-.
  - intros Hu. rewrite Hu in Hsp. now injection Hsp as <-.
  - intros Hu. rewrite Hu in Hsp. now injection Hsp as <-.
  - intros Hf. unfold or_else in Hi. rewrite Hf in Hi. now injection Hi as <-.
Qed.

(** ** A question that cannot be printed *)

Lemma format_block_printable l block :
  format_block l = Some block ->
  Forall (fun it => to_string (question it) <> None) l.
Proof.
  unfold format_block. destruct (format_items l) as [parts|] eqn:Hf; [|discriminate].
  intros _. revert parts Hf.
  induction l as [|it l IH]; intros parts Hf; [constructor|].
  cbn [format_items] in Hf. unfold format_item in Hf.
  destruct (to_string (question it)) as [q|] eqn:Hq; [|discriminate].
  destruct (format_items l) as [rest|]; [|discriminate].
  constructor; [congruence|]. now apply (IH rest).
Qed.

Lemma format_block_unprintable l :
  Exists (fun it => to_string (question it) = None) l -> format_block l = None.
Proof.
  intros Hex. destruct (format_block l) as [block|] eqn:Hb; [|reflexivity].
  apply format_block_printable in Hb. rewrite Forall_forall in Hb.
  apply Exists_exists in Hex. destruct Hex as (it & Hin & Hnone).
  now destruct (Hb it Hin).
Qed.

Lemma unprintable_blocks_question p e n s h :
  history s = Some h ->
  to_string (or_else (type p) (VString [])) <> None ->
  to_string (or_else (resume p) (VString [])) <> None ->
  Exists (fun it => to_string (question it) = None) h ->
  let r := run (generate_question p) e n s in
  outcome r = None /\ final r = s /\ detached r = [] /\
  forall req, In (ChatCall req) (calls r) -> temperature req = 5 # 10.
Proof.
  intros Hh Ht Hr Hex r. subst r.
  pose proof (profile_sparse_defined _ _ (wordsCount_defined _ Hr)
                (wordsCount_defined _ Ht)) as Hsp.
  destruct (to_string (or_else (type p) (VString []))) as [typeStr|] eqn:Htype;
    [|congruence].
  destruct (to_string (or_else (resume p) (VString []))) as [resumeStr|] eqn:Hres;
    [|congruence].
  destruct (profile_sparse _ _) as [sparse|] eqn:Hsparse; [|congruence].
  rewrite generate_question_run.
  rewrite (build_messages_run p e n s h typeStr resumeStr sparse Htype Hres Hsparse Hh).
  cbn zeta.
  assert (Hpos : (0 <? List.length h)%nat = true).
  { destruct Hex; reflexivity. }
  rewrite Hpos.
  destruct (5 <? List.length h)%nat eqn:H5.
  - destruct (format_block (slice_but_last 5 h)) as [older|] eqn:Hold;
      [|repeat split; intros req []].
    destruct (chat e (S n) (summary_request older)) as [c|];
      [|repeat split; in_calls; reflexivity].
    destruct (format_block (slice_last 5 h)) as [recent|] eqn:Hnew;
      [exfalso|repeat split; in_calls; reflexivity].
    apply format_block_printable in Hold, Hnew.
    pose proof (proj2 (Forall_app _ _ _) (conj Hold Hnew)) as Hall.
    rewrite <- slice_split in Hall. rewrite Forall_forall in Hall.
    apply Exists_exists in Hex. destruct Hex as (it & Hin & Hnone).
    now destruct (Hall it Hin).
  - apply Nat.ltb_ge in H5.
    rewrite (slice_last_short h H5), (format_block_unprintable h Hex).
    repeat split; intros req [].
Qed.

(** A question that has no string form (an object with a member named
    [toString], which [extractJson] can return) blocks the fetch once it is
    in the history: quoting it in the prompt raises outside the [try] block,
    so the handler either ends with the exception, sending no response, or,
    when the time is up and nothing is pending, answers the end signal.  No
    question is requested and the session stays as it is. *)
Theorem unprintable_question_blocks_fetch p e n s h :
  profile s = Some p -> history s = Some h ->
  to_string (or_else (type p) (VString [])) <> None ->
  to_string (or_else (resume p) (VString [])) <> None ->
  Exists (fun it => to_string (question it) = None) h ->
  let r := run api_next_question e n s in
  (outcome r = None \/ outcome r = Some (respond 200 EndSignal)) /\
  final r = s /\ detached r = [] /\
  (forall req, In (ChatCall req) (calls r) -> temperature req = 5 # 10).
Proof.
  intros Hp Hh Ht Hr Hex r. subst r.
  destruct (unprintable_blocks_question p e (S n) s h Hh Ht Hr Hex)
    as (Ho & Hf & Hd & Hc).
  unfold api_next_question. run_step. rewrite Hp. run_step. rewrite Hh.
  destruct (num_geb (of_Z (clock e n)) (end_time s)); run_step.
  - destruct ((0 <? List.length h)%nat && negb (truthy (current_question s)));
      run_step.
    + split; [now right|]. repeat split. intros req [].
    + split; [now left|]. repeat split; assumption.
  - split; [now left|]. repeat split; assumption.
Qed.

End Interview.

(** * The configuration at work *)

Lemma digit_codes u : Forall (fun c => (48 <= c <= 57)%N) (codes_of_uint u).
Proof.
  induction u; cbn [codes_of_uint]; constructor; trivial; lia.
Qed.

Lemma digit_cases c :
  (48 <= c <= 57)%N ->
  (c = 48 \/ c = 49 \/ c = 50 \/ c = 51 \/ c = 52 \/
   c = 53 \/ c = 54 \/ c = 55 \/ c = 56 \/ c = 57)%N.
Proof.
  intros H. replace c with (48 + N.of_nat (N.to_nat (c - 48)))%N by lia.
  assert (Hk : (N.to_nat (c - 48) <= 9)%nat) by lia.
  destruct (N.to_nat (c - 48)) as [|[|[|[|[|[|[|[|[|[|k]]]]]]]]]];
    cbn; try tauto. lia.
Qed.

Lemma digit_not_blank c : (48 <= c <= 57)%N -> is_ws c = false.
Proof.
  intros H. destruct (digit_cases c H) as [->|[->|[->|[->|[->|[->|[->|[->|[->| ->]]]]]]]]];
    reflexivity.
Qed.

Lemma trim_digits s : Forall (fun c => (48 <= c <= 57)%N) s -> trim s = s.
Proof.
  intros Hs.
  assert (Hw : Forall (fun c => is_ws c = false) s).
  { eapply Forall_impl; [|exact Hs]. intros c. apply digit_not_blank. }
  pose proof (trim_padded [] s [] (Forall_nil _) (Forall_nil _)) as H.
  cbn [app] in H. rewrite app_nil_r in H. apply H.
  destruct s as [|c r]; [now left|right]. split.
  - exists c, r. split; [reflexivity|]. now apply Forall_inv in Hw.
  - apply Forall_rev in Hw. destruct (rev (c :: r)) as [|d r'] eqn:Hr.
    + apply (f_equal (@List.length N)) in Hr. rewrite length_rev in Hr. discriminate.
    + exists d, r'. split; [reflexivity|]. now apply Forall_inv in Hw.
Qed.

Lemma parse_non_decimal_digits c r :
  (48 <= c <= 57)%N -> Forall (fun c => (48 <= c <= 57)%N) r ->
  parse_non_decimal (c :: r) = None.
Proof.
  intros Hc Hr. destruct r as [|p r].
  - destruct (digit_cases c Hc) as [->|[->|[->|[->|[->|[->|[->|[->|[->| ->]]]]]]]]];
      reflexivity.
  - pose proof (Forall_inv Hr) as Hp.
    destruct (digit_cases c Hc) as [->|[->|[->|[->|[->|[->|[->|[->|[->| ->]]]]]]]]];
      try reflexivity.
    destruct (digit_cases p Hp) as [->|[->|[->|[->|[->|[->|[->|[->|[->| ->]]]]]]]]];
      reflexivity.
Qed.

(** [Number] reads back the positive integer that [String] printed. *)
Lemma string_to_number_int_to_string p :
  0 < p <= 2 ^ 53 -> string_to_number (int_to_string p) = of_Z p.
Proof.
  intros Hp. destruct p as [|q|q]; try lia. cbn [int_to_string].
  pose proof (digit_codes (Pos.to_uint q)) as Hd.
  destruct (span_digits_codes (Pos.to_uint q)) as (ds & Hs & _ & H0).
  pose proof (span_digits_nonempty _ ds (to_uint_not_nil q) Hs) as Hds.
  rewrite DecimalPos.Unsigned.of_to in H0.
  unfold string_to_number. rewrite (trim_digits _ Hd).
  destruct (codes_of_uint (Pos.to_uint q)) as [|c r] eqn:Hcodes.
  { cbn in Hs. injection Hs as <-. congruence. }
  pose proof (Forall_inv Hd) as Hc. pose proof (Forall_inv_tail Hd) as Hr.
  rewrite (parse_non_decimal_digits c r Hc Hr).
  assert (Hbody : parse_unsigned_decimal (c :: r) = Some (of_Z (Zpos q))).
  { unfold parse_unsigned_decimal.
    replace (str_eqb (c :: r) (lit "Infinity")) with false.
    - rewrite Hs. destruct ds as [|d ds']; [congruence|].
      cbn [parse_exponent]. f_equal.
      unfold decimal_value. rewrite app_nil_r.
      unfold digits_value. rewrite H0.
      replace (inject_Z (Z.of_N (N.pos q)) * pow10 (0 - Z.of_nat (List.length (@nil N))))%Q
        with (inject_Z (Zpos q)).
      + apply round64_of_Z. lia.
      + unfold Qmult, inject_Z. cbn. now rewrite Pos.mul_1_r.
    - change (lit "Infinity") with (73%N :: lit "nfinity"). cbn [str_eqb].
      replace (N.eqb c 73) with false; [reflexivity|].
      symmetry. apply N.eqb_neq. cbv beta in Hc. lia. }
  destruct (digit_cases c Hc) as [->|[->|[->|[->|[->|[->|[->|[->|[->| ->]]]]]]]]];
    cbn iota; rewrite Hbody; reflexivity.
Qed.

Lemma string_to_number_blank t : trim t = [] -> string_to_number t = Fin 0.
Proof. intros H. unfold string_to_number. now rewrite H. Qed.

(** The server listens only when SESSION_SECRET and OPENAI_API_KEY are
    both set to a non-empty text, and otherwise exits with code 1.  The port
    it listens on is never NaN or 0: it is 3000 when PORT is unset, blank,
    ["0"] or not a number, and the number PORT spells otherwise. *)
Theorem startup_checks_and_port (env : Config.environment) :
  (Config.missing (env (lit "SESSION_SECRET")) = false ->
   Config.missing (env (lit "OPENAI_API_KEY")) = false ->
   Config.main env = Config.Listen (Config.PORT env)) /\
  (Config.missing (env (lit "SESSION_SECRET")) = true \/
   Config.missing (env (lit "OPENAI_API_KEY")) = true ->
   exists msg, Config.main env = Config.Exit 1 msg) /\
  truthy (VNumber (Config.PORT env)) = true /\
  (env (lit "PORT") = None -> Config.PORT env = of_Z 3000) /\
  (forall t, env (lit "PORT") = Some t ->
             trim t = [] \/ t = lit "0" \/ num_is_nan (string_to_number t) = true ->
             Config.PORT env = of_Z 3000) /\
  (forall p, 0 < p <= 2 ^ 53 -> env (lit "PORT") = Some (int_to_string p) ->
             Config.PORT env = of_Z p).
Proof.
  split; [|split; [|split; [|split; [|split]]]].
  - intros Hs Hk. unfold Config.main. now rewrite Hs, Hk.
  - intros H. unfold Config.main.
    destruct (Config.missing (env (lit "SESSION_SECRET"))) eqn:Hs;
      [eexists; reflexivity|].
    destruct H as [H|H]; [discriminate H|]. rewrite H. eexists; reflexivity.
  - unfold Config.PORT. cbn zeta.
    destruct (truthy (VNumber (Config.Number (env (lit "PORT"))))) eqn:H;
      [exact H|reflexivity].
  - intros H. unfold Config.PORT. rewrite H. reflexivity.
  - intros t Ht H. unfold Config.PORT. rewrite Ht. cbn [Config.Number].
    destruct H as [H|[->|H]].
    + now rewrite (string_to_number_blank t H).
    + reflexivity.
    + destruct (string_to_number t); try discriminate H. reflexivity.
  - intros p Hp Ht. unfold Config.PORT. rewrite Ht. cbn [Config.Number].
    rewrite (string_to_number_int_to_string p Hp). cbn zeta.
    replace (truthy (VNumber (of_Z p))) with true; [reflexivity|].
    symmetry. unfold of_Z, truthy. apply negb_true_iff.
    apply not_true_is_false. intros H. apply Qeq_bool_iff in H.
    unfold Qeq, inject_Z in H. cbn in H. lia.
Qed.

Lemma or_default_missing v d : Config.missing v = true -> Config.or_default v d = d.
Proof. destruct v as [[|c r]|]; try discriminate; reflexivity. Qed.

(** The speech route run with the settings of the environment, on a body
    that names no voice and no speed: the request carries the voice and the
    speed of the environment, "coral" and 1 when they are unset or empty.  A
    speed that is set is sent as the number its text converts to, without a
    fallback: it is NaN when the text is not a number. *)
Theorem configured_speech_settings frac (env : Config.environment) b e n s req :
  In (SpeechCall req)
     (calls (run (api_tts frac (Config.OPENAI_TTS_MODEL env)
                          (Config.OPENAI_TTS_VOICE env)
                          (Config.OPENAI_TTS_SPEED env) b) e n s)) ->
  truthy (tts_voice b) = false -> tts_speed b = VUndefined ->
  (Config.missing (env (lit "OPENAI_TTS_MODEL")) = true ->
   tts_model req = lit "gpt-4o-mini-tts") /\
  (Config.missing (env (lit "OPENAI_TTS_VOICE")) = true -> voice req = lit "coral") /\
  (forall v, env (lit "OPENAI_TTS_VOICE") = Some v -> v <> [] -> voice req = trim v) /\
  (Config.missing (env (lit "OPENAI_TTS_SPEED")) = true ->
   strict_equal (VNumber (speed req)) (VNumber (of_Z 1)) = true) /\
  (forall t, env (lit "OPENAI_TTS_SPEED") = Some t -> t <> [] ->
             speed req = string_to_number t /\
             (num_is_nan (string_to_number t) = true -> speed req = NaN)).
Proof.
  intros Hin Hvoice Hspeed.
  destruct (tts_request frac _ _ _ b e n s req Hin)
    as (t & v & sp & i & _ & Hv & Hsp & _ & ->).
  unfold or_else in Hv. rewrite Hvoice in Hv. injection Hv as <-.
  rewrite Hspeed in Hsp. injection Hsp as <-.
  cbn [tts_model voice speed num_is_finite].
  split; [|split; [|split; [|split]]].
  - intros H. unfold Config.OPENAI_TTS_MODEL. now rewrite or_default_missing.
  - intros H. unfold Config.OPENAI_TTS_VOICE. now rewrite or_default_missing.
  - intros v Hv Hne. unfold Config.OPENAI_TTS_VOICE. rewrite Hv.
    destruct v; [congruence|reflexivity].
  - intros H. unfold Config.OPENAI_TTS_SPEED. now rewrite or_default_missing.
  - intros t0 Ht Hne. unfold Config.OPENAI_TTS_SPEED. rewrite Ht.
    destruct t0 as [|c r]; [congruence|]. cbn [Config.or_default].
    split; [reflexivity|].
    destruct (string_to_number (c :: r)); try discriminate. reflexivity.
Qed.

(** * The properties at work *)


(** The pending question "Why Go?" is answered: none is pending after, in
    the session object and in the store. *)
Lemma current_question_cleared_witness :
  let r := run (api_submit_answer (VString (lit "It is simple.")))
               (scripted 5000 ChatFailed) 0
               (one_minute [] (VString (lit "Why Go?"))) in
  outcome r = Some (respond 200 (TimeUp false)) /\
  current_question (final r) = VNull /\
  run (api_submit_answer (VString (lit "Again.")))
      (scripted 6000 ChatFailed) 0 (json_copy (final r))
  = rejected (lit "Invalid state") 0 (json_copy (final r)).
Proof.
  intros r.
  assert (Ho : outcome r = Some (respond 200 (TimeUp false))) by reflexivity.
  split; [exact Ho|].
  destruct (current_question_cleared_by_submission no_fraction no_stringify
              default_model default_tts_model default_voice default_speed)
    as (H1 & _ & H3 & _).
  split.
  - exact (H1 (VString (lit "It is simple.")) (scripted 5000 ChatFailed) 0%nat
              (one_minute [] (VString (lit "Why Go?")))
              (respond 200 (TimeUp false)) Ho eq_refl).
  - exact (proj2 (H3 (VString (lit "It is simple.")) (VString (lit "Again."))
                     (scripted 5000 ChatFailed) 0%nat (scripted 6000 ChatFailed) 0%nat
                     (one_minute [] (VString (lit "Why Go?")))
                     (respond 200 (TimeUp false)) Ho eq_refl)).
Defined.

(** One and a half seconds into a one-minute interview: 58 seconds. *)
Lemma seconds_left_witness :
  start_time (one_minute [] VNull) = Some 0 /\
  field_number (duration_seconds (one_minute [] VNull)) = of_Z 60 /\
  0 + 60 * 1000 <= 2 ^ 53 /\
  0 <= clock (scripted 1500 ChatFailed) 0 <= 2 ^ 53 /\
  outcome (run secondsLeft (scripted 1500 ChatFailed) 0 (one_minute [] VNull))
  = Some (of_Z 58).
Proof.
  assert (H0 : 0 <= 0) by lia.
  assert (H1 : 0 <= 60) by lia.
  assert (H2 : 0 + 60 * 1000 <= 2 ^ 53) by lia.
  assert (H3 : 0 <= clock (scripted 1500 ChatFailed) 0 <= 2 ^ 53) by (cbn; lia).
  split; [reflexivity|]. split; [reflexivity|]. split; [exact H2|].
  split; [exact H3|].
  exact (proj2 (proj2 (proj2 (seconds_left_clamped_monotone (one_minute [] VNull))))
           0 60 (scripted 1500 ChatFailed) 0%nat eq_refl eq_refl H0 H1 H2 H3).
Defined.

(** Ten minutes, given as a number: 600 seconds from the clock reading. *)
Lemma start_validation_witness :
  let r := run (api_start no_fraction (sample_start (VNumber (of_Z 10))))
               (scripted 7000 ChatFailed) 0 empty_session in
  to_number no_fraction (VNumber (of_Z 10)) = Some (of_Z 10) /\
  outcome r = Some (respond 200 Success) /\
  duration_seconds (final r) = Num (of_Z 600) /\
  start_time (final r) = Some 7000.
Proof.
  intros r.
  destruct (start_validation_and_state no_fraction (sample_start (VNumber (of_Z 10)))
              (scripted 7000 ChatFailed) 0 empty_session (of_Z 10) eq_refl)
    as (Ho & _ & _ & _ & Ht & _ & Hd & _).
  split; [reflexivity|]. split; [exact Ho|]. split; [|exact Ht].
  apply (Hd 10); [lia|lia|left; reflexivity].
Defined.

Lemma rejected_submission_witness :
  (exists a, VString (lit "   ") = VString a /\ trim a = []) /\
  exists msg,
    run (api_submit_answer (VString (lit "   "))) (scripted 5000 ChatFailed) 0
        (one_minute [] (VString (lit "Why Go?")))
    = rejected msg 0 (one_minute [] (VString (lit "Why Go?"))).
Proof.
  assert (H : exists a, VString (lit "   ") = VString a /\ trim a = []).
  { exists (lit "   "). split; reflexivity. }
  split; [exact H|].
  apply rejected_submission_changes_nothing. right; right; right. exact H.
Defined.

Lemma app_five_inv {A : Type} (l l' : list A) a1 a2 a3 a4 a5 b1 b2 b3 b4 b5 :
  l ++ [a1; a2; a3; a4; a5] = l' ++ [b1; b2; b3; b4; b5] ->
  l = l' /\ a1 = b1 /\ a2 = b2 /\ a3 = b3 /\ a4 = b4 /\ a5 = b5.
Proof.
  intros H.
  change (l ++ [a1; a2; a3; a4; a5]) with (l ++ [a1; a2; a3; a4] ++ [a5]) in H.
  change (l' ++ [b1; b2; b3; b4; b5]) with (l' ++ [b1; b2; b3; b4] ++ [b5]) in H.
  rewrite !app_assoc in H. apply app_inj_tail in H. destruct H as [H H5].
  change (l ++ [a1; a2; a3; a4]) with (l ++ [a1; a2; a3] ++ [a4]) in H.
  change (l' ++ [b1; b2; b3; b4]) with (l' ++ [b1; b2; b3] ++ [b4]) in H.
  rewrite !app_assoc in H. apply app_inj_tail in H. destruct H as [H H4].
  change (l ++ [a1; a2; a3]) with (l ++ [a1; a2] ++ [a3]) in H.
  change (l' ++ [b1; b2; b3]) with (l' ++ [b1; b2] ++ [b3]) in H.
  rewrite !app_assoc in H. apply app_inj_tail in H. destruct H as [H H3].
  change (l ++ [a1; a2]) with (l ++ [a1] ++ [a2]) in H.
  change (l' ++ [b1; b2]) with (l' ++ [b1] ++ [b2]) in H.
  rewrite !app_assoc in H. apply app_inj_tail in H. destruct H as [H H2].
  apply app_inj_tail in H. destruct H as [H H1].
  repeat split; assumption.
Qed.

(** Six entries: the first is summarised and the other five are quoted. *)
Lemma prompt_compacts_witness :
  let s := one_minute six_items VNull in
  let e := scripted 1000 (Content (lit " Strong on Go, thin on testing. ")) in
  exists req,
    history s = Some six_items /\
    (5 < List.length six_items)%nat /\
    In (ChatCall req)
       (calls (run (generate_question no_fraction default_model sample_profile) e 0 s)) /\
    temperature req = 7 # 10 /\
    List.length (messages req) = 5%nat /\
    nth_error (messages req) 2
    = Some {| role := user;
              content := lit "Brief summary of earlier exchanges:" ++ [10%N] ++
                         lit "Strong on Go, thin on testing." |} /\
    nth_error (messages req) 3
    = Some {| role := user;
              content :=
                lit "Last five Q&A and weaknesses:" ++ [10%N] ++
                join [10%N; 10%N]
                  (map (fun k => lit "Q: Question " ++ int_to_string k ++ [10%N] ++
                                 lit "A: Answer " ++ int_to_string k ++ [10%N] ++
                                 lit "Weakness: Analyzing...")
                       [2; 3; 4; 5; 6]) |}.
Proof.
  intros s e.
  pose (msgs :=
    match outcome (run (build_messages no_fraction default_model sample_profile) e 0 s) with
    | Some m => m
    | None => []
    end).
  exists (ask_request default_model msgs).
  assert (Hin : In (ChatCall (ask_request default_model msgs))
       (calls (run (generate_question no_fraction default_model sample_profile) e 0 s))).
  { vm_compute. right. left. reflexivity. }
  assert (Hlen : (5 < List.length six_items)%nat) by (cbn; lia).
  split; [reflexivity|]. split; [exact Hlen|]. split; [exact Hin|].
  split; [reflexivity|].
  destruct (prompt_compacts_older_history no_fraction default_model sample_profile
              e 0 s six_items (ask_request default_model msgs)
              eq_refl Hlen Hin eq_refl)
    as [(older & i1 & i2 & i3 & i4 & i5 & told & t1 & t2 & t3 & t4 & t5 & c &
         typeStr & resumeStr & sparse & left &
         Hh & _ & _ & (q1 & Hq1 & Ht1) & (q2 & Hq2 & Ht2) & (q3 & Hq3 & Ht3) &
         (q4 & Hq4 & Ht4) & (q5 & Hq5 & Ht5) & H) _].
  cbv zeta in H. destruct H as (_ & Hc & _ & _ & Hmsgs & Hfive).
  split; [exact Hfive|].
  apply (app_five_inv [numbered_item 1 (lit "Too short.")]) in Hh.
  destruct Hh as (_ & <- & <- & <- & <- & <-).
  injection Hq1 as <-. injection Hq2 as <-. injection Hq3 as <-.
  injection Hq4 as <-. injection Hq5 as <-.
  injection Hc as <-.
  rewrite Hmsgs, Ht1, Ht2, Ht3, Ht4, Ht5.
  split; reflexivity.
Defined.




Lemma tts_text_required_witness :
  nullish (tts_text (sample_speech VNull)) = true /\
  run (api_tts no_fraction default_tts_model default_voice default_speed
               (sample_speech VNull))
      (scripted 0 ChatFailed) 0 empty_session
  = rejected (lit "text required") 0 empty_session.
Proof.
  split; [reflexivity|].
  apply (proj1 (proj2 (tts_text_required_and_truncated no_fraction default_tts_model
                         default_voice default_speed (sample_speech VNull)
                         (scripted 0 ChatFailed) 0 empty_session))).
  left. reflexivity.
Defined.

(** * Further scenarios *)

Lemma not_started_witness :
  profile empty_session = None /\
  run (api_next_question no_fraction default_model) (scripted 0 ChatFailed) 0
      empty_session
  = rejected (lit "Interview not started") 0 empty_session.
Proof.
  split; [reflexivity|].
  apply (not_started_is_refused no_fraction default_model VNull
           (scripted 0 ChatFailed) 0 empty_session eq_refl).
Defined.

(** After the minute is over the pending question is still answered, and
    the response says that the time is up. *)
Lemma grace_submission_witness :
  trim (lit "It is simple.") <> [] /\
  outcome (run (api_submit_answer (VString (lit "It is simple.")))
               (scripted 61000 ChatFailed) 0
               (one_minute [] (VString (lit "Why Go?"))))
  = Some (respond 200 (TimeUp true)).
Proof.
  assert (Ha : trim (lit "It is simple.") <> []) by discriminate.
  split; [exact Ha|].
  rewrite (pending_question_can_be_answered (lit "It is simple.")
             (scripted 61000 ChatFailed) 0
             (one_minute [] (VString (lit "Why Go?"))) sample_profile []
             eq_refl eq_refl eq_refl Ha).
  reflexivity.
Defined.

(** A ten-minute interview for a backend engineer with a one-line resume:
    the first prompt carries the hint. *)
Lemma sparse_profile_witness :
  exists req,
    wordsCount no_fraction (or_else (resume sample_profile) (VString [])) = Some 6%nat /\
    In (ChatCall req)
       (calls (run (generate_question no_fraction default_model sample_profile)
                   (scripted 1000 ChatFailed) 0 (one_minute [] VNull))) /\
    temperature req = 7 # 10 /\
    nth_error (messages req) 1
    = Some {| role := user;
              content :=
                lit "Candidate profile (resume / notes):" ++ [10%N] ++
                lit "Five years of Go and Postgres." ++ [10%N; 10%N] ++
                lit "Hint: profile_sparse=true" |}.
Proof.
  pose (msgs :=
    match outcome (run (build_messages no_fraction default_model sample_profile)
                       (scripted 1000 ChatFailed) 0 (one_minute [] VNull)) with
    | Some m => m
    | None => []
    end).
  exists (ask_request default_model msgs).
  assert (Hin : In (ChatCall (ask_request default_model msgs))
       (calls (run (generate_question no_fraction default_model sample_profile)
                   (scripted 1000 ChatFailed) 0 (one_minute [] VNull)))).
  { vm_compute. left. reflexivity. }
  assert (Hlt : (6 < 60)%nat) by lia.
  split; [reflexivity|]. split; [exact Hin|]. split; [reflexivity|].
  destruct (sparse_profile_is_hinted no_fraction default_model sample_profile
              (scripted 1000 ChatFailed) 0 (one_minute [] VNull)
              (ask_request default_model msgs) 6 eq_refl Hlt Hin eq_refl)
    as (resumeStr & Hr & Hnth).
  injection Hr as <-. exact Hnth.
Defined.

(** * More scenarios *)

(** The store of the short interview: a started session that is its own
    copy. *)
Lemma stored_ok_witness :
  let s := store (snd (serve_all no_fraction no_stringify default_model
                                 default_tts_model default_voice default_speed
                                 late_analysis fresh_server)) in
  profile s <> None /\ json_copy s = s /\ duration_seconds s = Num (of_Z 600).
Proof.
  intros s.
  assert (Hp : profile s <> None) by (vm_compute; discriminate).
  split; [exact Hp|].
  destruct (stored_ok_reachable no_fraction no_stringify default_model
              default_tts_model default_voice default_speed late_analysis) as [Hfix _].
  split; [exact Hfix|]. vm_compute. reflexivity.
Defined.

(** One entry is summarised in one request, which quotes it. *)
Lemma summarize_old_witness :
  [numbered_item 1 (lit "Too short.")] <> [] /\
  run (summarizeOld no_fraction default_model [numbered_item 1 (lit "Too short.")])
      (scripted 0 (Content (lit " Fine. "))) 0 empty_session
  = {| outcome := Some (lit "Fine."); final := empty_session;
       calls :=
         [ChatCall
            {| model := lit "gpt-4o-mini";
               messages :=
                 [ {| role := user;
                      content :=
                        lit "Summarize the following earlier interview exchanges (questions, answers, weaknesses) in two brief sentences, focusing on overall strengths and weaknesses:" ++
                        [10%N; 10%N] ++ lit "Q: Question 1" ++ [10%N] ++
                        lit "A: Answer 1" ++ [10%N] ++ lit "Weakness: Too short." |} ];
               temperature := 5 # 10 |}];
       detached := []; saved := []; ticks := 1 |}.
Proof.
  assert (Hne : [numbered_item 1 (lit "Too short.")] <> []) by discriminate.
  split; [exact Hne|].
  refine (proj2 (proj2 (summarize_old_run no_fraction default_model
                          [numbered_item 1 (lit "Too short.")]
                          (scripted 0 (Content (lit " Fine. "))) 0 empty_session) Hne)
                [lit "Q: Question 1" ++ [10%N] ++ lit "A: Answer 1" ++ [10%N] ++
                 lit "Weakness: Too short."] _).
  constructor; [|constructor].
  exists (lit "Question 1"). split; reflexivity.
Defined.

(** The analysis of "It is simple." completes on the session object of its
    submission: the entry gets its weakness and the object is saved. *)
Lemma analysis_witness :
  let own := one_minute [why_go_item] VNull in
  let r := run (weakness_analysis no_fraction default_model why_go_item)
               (scripted 9000 (Content (lit " Too short. "))) 0 own in
  history own = Some ([] ++ why_go_item :: []) /\
  history (final r) = Some [analysed_item] /\ saved r = [final r].
Proof.
  intros own r.
  pose proof (analysis_updates_first_match no_fraction default_model why_go_item
                (scripted 9000 (Content (lit " Too short. "))) 0 own) as H.
  cbv zeta in H. destruct H as (_ & _ & H).
  change (to_string no_fraction (question why_go_item))
    with (Some (lit "Why Go?")) in H.
  cbv beta iota in H. destruct H as (_ & H).
  change (chat (scripted 9000 (Content (lit " Too short. "))) 0) with
    (fun _ : chat_request => Content (lit " Too short. ")) in H.
  cbv beta iota in H.
  change (history own) with (Some [why_go_item]) in H.
  cbv beta iota in H. destruct H as (H & _).
  specialize (H [] why_go_item [] eq_refl eq_refl).
  assert (Hnone : forall (i : nat) (y : item),
             nth_error (@nil item) i = Some y ->
             (if Nat.eqb i (pred (List.length [why_go_item]))
              then identical (question why_go_item)
              else strict_equal (question y) (question why_go_item))
             && str_eqb (answer y) (answer why_go_item) = false).
  { intros [|i] y Hn; discriminate Hn. }
  specialize (H Hnone). cbv zeta in H. destruct H as (Hh & _ & Hs).
  split; [reflexivity|]. split; [exact Hh|exact Hs].
Defined.

(** Four words, however they are spaced. *)
Lemma words_count_witness :
  word (lit "Five") /\
  Forall (fun gw => fst gw <> [] /\ blank (fst gw) /\ word (snd gw))
         [(lit "  ", lit "years"); ([9%N], lit "of"); ([32%N; 10%N; 32%N], lit "Go")] /\
  wordsCount no_fraction
    (VString (lit "  Five  years" ++ [9%N] ++ lit "of" ++ [32%N; 10%N; 32%N] ++ lit "Go "))
  = Some 4%nat.
Proof.
  assert (Hw : word (lit "Five")) by (split; [discriminate|repeat constructor]).
  assert (Hrest : Forall (fun gw => fst gw <> [] /\ blank (fst gw) /\ word (snd gw))
         [(lit "  ", lit "years"); ([9%N], lit "of"); ([32%N; 10%N; 32%N], lit "Go")]).
  { repeat constructor; discriminate. }
  assert (Hb2 : blank (lit "  ")) by (repeat constructor).
  assert (Hb1 : blank (lit " ")) by (repeat constructor).
  split; [exact Hw|]. split; [exact Hrest|].
  exact (proj2 (proj2 (wordsCount_counts_words no_fraction))
           (lit "  ") (lit "Five") _ (lit " ") Hb2 Hb1 Hw Hrest).
Defined.

(** A reply that wraps its object in prose is read all the same. *)
Lemma reply_in_prose_witness :
  extractJson reply_in_prose = VObject [(lit "question", VString (lit "Why Go?"))].
Proof.
  assert (Hpre : Forall (fun c => c <> 123%N) (lit "Sure! "))
    by (repeat constructor; discriminate).
  assert (Hpost : Forall (fun c => c <> 125%N) (lit " Good luck."))
    by (repeat constructor; discriminate).
  exact (proj1 extractJson_ignores_surrounding_text
           (lit "Sure! ")
           (quote ++ lit "question" ++ quote ++ lit ": " ++ quote ++
            lit "Why Go?" ++ quote)
           (lit " Good luck.") Hpre Hpost).
Defined.


(** The stored history of the short interview: one entry, answer trimmed. *)
Lemma history_entries_witness :
  history (store (snd (serve_all no_fraction no_stringify default_model
                                 default_tts_model default_voice default_speed
                                 short_interview fresh_server)))
  = Some [why_go_item] /\
  Forall item_ok [why_go_item].
Proof.
  assert (Hh : history (store (snd (serve_all no_fraction no_stringify default_model
                                      default_tts_model default_voice default_speed
                                      short_interview fresh_server)))
               = Some [why_go_item]) by (vm_compute; reflexivity).
  split; [exact Hh|].
  exact (history_entries_well_formed no_fraction no_stringify default_model
           default_tts_model default_voice default_speed short_interview
           [why_go_item] Hh).
Defined.




(** An interview of "Infinity" minutes: NaN seconds in the session object,
    null in the store. *)
Lemma unparsed_duration_witness :
  let r := run (api_start no_fraction (sample_start (VString (lit "Infinity"))))
               (scripted 7000 ChatFailed) 0 empty_session in
  parse_int_string (lit "Infinity") = NaN /\
  outcome r = Some (respond 200 Success) /\
  duration_seconds (final r) = Num NaN /\
  duration_seconds (json_copy (final r)) = Null /\
  start_time (json_copy (final r)) = Some 7000.
Proof.
  intros r. split; [reflexivity|].
  exact (proj1 (unparsed_duration_ends_at_once no_fraction default_model)
           (sample_start (VString (lit "Infinity"))) (lit "Infinity")
           (scripted 7000 ChatFailed) 0%nat empty_session
           eq_refl eq_refl eq_refl eq_refl eq_refl eq_refl).
Defined.

(** Starting again in the middle of an interview empties it. *)
Lemma fresh_interview_witness :
  let r := run (api_start no_fraction (sample_start (VNumber (of_Z 10))))
               (scripted 7000 ChatFailed) 0
               (one_minute [sample_item] (VString (lit "Why Go?"))) in
  outcome r = Some (respond 200 Success) /\
  run (api_result no_stringify default_model) (scripted 8000 ChatFailed) 0 (final r)
  = rejected (lit "No interview data") 0 (final r).
Proof.
  intros r.
  assert (Ho : outcome r = Some (respond 200 Success)) by reflexivity.
  split; [exact Ho|].
  pose proof (fresh_interview no_fraction no_stringify default_model
                (sample_start (VNumber (of_Z 10))) (scripted 7000 ChatFailed) 0
                (one_minute [sample_item] (VString (lit "Why Go?"))) Ho) as H.
  cbv zeta in H. destruct H as ((_ & H & _) & _).
  exact (H (scripted 8000 ChatFailed) 0%nat).
Defined.

Lemma sample_convertible h :
  Forall (fun it => to_string no_fraction (question it) <> None) h ->
  forall q, convertible no_fraction sample_profile (one_minute h q).
Proof.
  intros Hall q. split; [discriminate|]. split; [discriminate|].
  intros h0 H. injection H as <-. exact Hall.
Defined.

(** Six entries and a completion collaborator that is down: the fetch gets
    no response at all. *)
Lemma failed_summary_witness :
  (5 < List.length (repeat sample_item 6))%nat /\
  convertible no_fraction sample_profile (one_minute (repeat sample_item 6) VNull) /\
  run (api_next_question no_fraction default_model) (scripted 1000 ChatFailed) 0
      (one_minute (repeat sample_item 6) VNull)
  = {| outcome := None; final := one_minute (repeat sample_item 6) VNull;
       calls := [ChatCall (summary_request default_model
                             match format_block no_fraction [sample_item] with
                             | Some block => block
                             | None => []
                             end)];
       detached := []; saved := []; ticks := 3 |}.
Proof.
  assert (Hlen : (5 < List.length (repeat sample_item 6))%nat) by (cbn; lia).
  assert (Hconv : convertible no_fraction sample_profile
                    (one_minute (repeat sample_item 6) VNull)).
  { apply sample_convertible. repeat constructor; discriminate. }
  split; [exact Hlen|]. split; [exact Hconv|].
  destruct (failed_summary_is_not_caught no_fraction default_model sample_profile
              (scripted 1000 ChatFailed) 0 (one_minute (repeat sample_item 6) VNull)
              (repeat sample_item 6) eq_refl eq_refl Hlen Hconv eq_refl)
    as (older & Hold & Hrun).
  rewrite (Hrun eq_refl). injection Hold as <-. reflexivity.
Defined.

(** One entry: one call, and the prompt has four messages, the third
    quoting the entry. *)
Lemma short_history_witness :
  (List.length [sample_item] <= 5)%nat /\
  exists msgs,
    calls (run (generate_question no_fraction default_model sample_profile)
               (scripted 1000 ChatFailed) 0 (one_minute [sample_item] VNull))
    = [ChatCall {| model := lit "gpt-4o-mini"; messages := msgs;
                   temperature := 7 # 10 |}] /\
    List.length msgs = 4%nat /\
    nth_error msgs 2
    = Some {| role := user;
              content :=
                lit "Last five Q&A and weaknesses:" ++ [10%N] ++
                lit "Q: Why Go?" ++ [10%N] ++ lit "A: It is simple." ++ [10%N] ++
                lit "Weakness: Analyzing..." |} /\
    nth_error msgs 3
    = Some {| role := user; content := lit "Ask the next question now." |}.
Proof.
  assert (Hlen : (List.length [sample_item] <= 5)%nat) by (cbn; lia).
  split; [exact Hlen|].
  destruct (short_history_is_quoted_in_full no_fraction default_model sample_profile
              (scripted 1000 ChatFailed) 0 (one_minute [sample_item] VNull)
              [sample_item] eq_refl Hlen
              (sample_convertible [sample_item]
                 ltac:(repeat constructor; discriminate) VNull))
    as (typeStr & resumeStr & sparse & left & texts & _ & _ & _ & _ & Hq & H).
  cbv zeta in H. destruct H as [_ H].
  inversion Hq as [|? t ? ts (q & Hq1 & Ht) Hnil]; subst.
  inversion Hnil; subst.
  injection Hq1 as <-.
  eexists. split; [exact H|]. repeat split; reflexivity.
Defined.

(** A body with a text and a null speed, before any interview: the voice
    is the configured one, the speed 0 and the interviewer professional. *)
Lemma speech_request_witness :
  let req := {| tts_model := default_tts_model; voice := lit "coral";
                input := lit "Hello";
                instructions :=
                  lit "Speak like a professional interviewer. Natural pacing, slight pauses, not robotic.";
                speed := of_Z 0; response_format := lit "mp3" |} in
  In (SpeechCall req)
     (calls (run (api_tts no_fraction default_tts_model default_voice default_speed
                          hello_speech)
                 (scripted 0 ChatFailed) 0 empty_session)) /\
  voice req = trim default_voice /\ speed req = of_Z 0 /\
  instructions req
  = lit "Speak like a " ++ lit "professional" ++
    lit " interviewer. Natural pacing, slight pauses, not robotic.".
Proof.
  intros req.
  assert (Hin : In (SpeechCall req)
                   (calls (run (api_tts no_fraction default_tts_model default_voice
                                        default_speed hello_speech)
                               (scripted 0 ChatFailed) 0 empty_session)))
    by (vm_compute; left; reflexivity).
  split; [exact Hin|].
  pose proof (speech_request_defaults no_fraction default_tts_model default_voice
                default_speed hello_speech (scripted 0 ChatFailed) 0 empty_session
                req Hin) as H.
  cbv zeta in H. destruct H as (_ & Hv & _ & Hs & Hi).
  split; [exact (Hv eq_refl)|]. split; [exact (Hs eq_refl)|exact (Hi eq_refl)].
Defined.

(** Both secrets and PORT=8080: the server listens on 8080. *)
Lemma startup_witness :
  Config.main sample_environment = Config.Listen (of_Z 8080).
Proof.
  destruct (startup_checks_and_port sample_environment) as (Hm & _ & _ & _ & _ & Hp).
  assert (H8080 : 0 < 8080 <= 2 ^ 53) by lia.
  rewrite (Hm eq_refl eq_refl), (Hp 8080 H8080 eq_refl). reflexivity.
Defined.

(** OPENAI_TTS_SPEED=fast: the speed sent is NaN. *)
Lemma configured_speech_witness :
  let req := {| tts_model := default_tts_model; voice := lit "coral";
                input := lit "Hello";
                instructions := default_instructions (lit "professional");
                speed := NaN; response_format := lit "mp3" |} in
  In (SpeechCall req)
     (calls (run (api_tts no_fraction (Config.OPENAI_TTS_MODEL fast_environment)
                          (Config.OPENAI_TTS_VOICE fast_environment)
                          (Config.OPENAI_TTS_SPEED fast_environment)
                          (sample_speech (VString (lit "Hello"))))
                 (scripted 0 ChatFailed) 0 empty_session)) /\
  speed req = NaN.
Proof.
  intros req.
  assert (Hin : In (SpeechCall req)
     (calls (run (api_tts no_fraction (Config.OPENAI_TTS_MODEL fast_environment)
                          (Config.OPENAI_TTS_VOICE fast_environment)
                          (Config.OPENAI_TTS_SPEED fast_environment)
                          (sample_speech (VString (lit "Hello"))))
                 (scripted 0 ChatFailed) 0 empty_session)))
    by (vm_compute; left; reflexivity).
  split; [exact Hin|].
  destruct (configured_speech_settings no_fraction fast_environment
              (sample_speech (VString (lit "Hello"))) (scripted 0 ChatFailed) 0
              empty_session req Hin eq_refl eq_refl) as (_ & _ & _ & _ & H).
  destruct (H (lit "fast") eq_refl) as [_ Hnan]; [discriminate|].
  exact (Hnan eq_refl).
Defined.

(** The reply [{"question": {"toString": 1}}] is stored as the question;
    once answered, the next fetch gets no response. *)
Lemma unprintable_question_witness :
  current_question
    (final (run (api_next_question no_fraction default_model)
                (scripted 1000 (Content reply_unprintable)) 0 (one_minute [] VNull)))
  = question unprintable_item /\
  Exists (fun it => to_string no_fraction (question it) = None) [unprintable_item] /\
  outcome (run (api_next_question no_fraction default_model)
               (scripted 6000 (Content reply_why_go)) 0
               (one_minute [unprintable_item] VNull))
  = None.
Proof.
  split; [vm_compute; reflexivity|].
  assert (Hex : Exists (fun it => to_string no_fraction (question it) = None)
                       [unprintable_item]) by (left; reflexivity).
  split; [exact Hex|].
  pose proof (unprintable_question_blocks_fetch no_fraction default_model
                sample_profile (scripted 6000 (Content reply_why_go)) 0
                (one_minute [unprintable_item] VNull) [unprintable_item]
                eq_refl eq_refl ltac:(discriminate) ltac:(discriminate) Hex) as H.
  cbv zeta in H. destruct H as ([H|H] & _); [exact H|].
  vm_compute in H. discriminate H.
Defined.

(** * The analysis that completes late *)

(** A question is fetched while the analysis of the previous answer is in
    flight.  When the analysis completes it saves the session object of its
    own submission, in which no question is pending: the question fetched
    since is lost, and the answer to it is refused. *)
Lemma late_analysis_drops_question :
  let srv := serve_all no_fraction no_stringify default_model default_tts_model
                       default_voice default_speed in
  current_question (store (snd (srv (removelast late_analysis) fresh_server)))
  = VString (lit "Why Go?") /\
  store (snd (srv late_analysis fresh_server))
  = {| profile := Some sample_profile;
       duration_seconds := Num (of_Z 600);
       start_time := Some 0;
       personality := Some (lit "stern and no-nonsense");
       history := Some [analysed_item];
       current_question := VNull;
       current_question_started_at := None |} /\
  fst (step no_fraction no_stringify default_model default_tts_model default_voice
            default_speed (Arrives (PostSubmitAnswer (VString (lit "Because."))))
            (scripted 8000 ChatFailed) (snd (srv late_analysis fresh_server)))
  = Some (respond 400 (Error (lit "Invalid state"))).
Proof. intros srv. repeat split; vm_compute; reflexivity. Qed.

(** The same object question asked and answered twice in the same words:
    the two questions were parsed apart, so [===] tells them apart, and the
    analysis of the second answer finds its own entry, the second. *)
Lemma analysis_finds_its_own_entry :
  let own := one_minute [object_item; object_item] VNull in
  let r := run (weakness_analysis no_fraction default_model object_item)
               (scripted 9000 (Content (lit "Vague."))) 0 own in
  history (final r) = Some [object_item; analysed_object_item] /\
  saved r = [final r].
Proof. intros own r. split; vm_compute; reflexivity. Qed.

(** An interview is started again while the analysis of an answer of the
    previous one is in flight.  When the analysis completes, the store holds
    the previous interview again, with its one entry. *)
Lemma late_analysis_restores_history :
  let srv := serve_all no_fraction no_stringify default_model default_tts_model
                       default_voice default_speed in
  history (store (snd (srv (removelast late_analysis_after_restart) fresh_server)))
  = Some [] /\
  duration_seconds
    (store (snd (srv (removelast late_analysis_after_restart) fresh_server)))
  = Num (of_Z 1200) /\
  history (store (snd (srv late_analysis_after_restart fresh_server)))
  = Some [analysed_item] /\
  duration_seconds (store (snd (srv late_analysis_after_restart fresh_server)))
  = Num (of_Z 600).
Proof. intros srv. repeat split; vm_compute; reflexivity. Qed.

(** * Where the code departs from the specification *)

(** The report is in whole seconds: one and a half seconds into a one-minute
    interview it is 58, where [max(0, end_time - now)] is 58500 milliseconds,
    or 58.5 seconds. *)
Lemma seconds_left_rounds_down :
  let s := one_minute [] VNull in
  let e := scripted 1500 ChatFailed in
  end_time s = of_Z 60000 /\
  outcome (run secondsLeft e 0 s) = Some (of_Z 58) /\
  num_max (of_Z 0) (num_sub (end_time s) (of_Z (clock e 0))) = of_Z 58500 /\
  num_div (num_max (of_Z 0) (num_sub (end_time s) (of_Z (clock e 0)))) (of_Z 1000)
  = Fin (117 # 2) /\
  strict_equal (VNumber (of_Z 58)) (VNumber (of_Z 58500)) = false /\
  strict_equal (VNumber (of_Z 58)) (VNumber (Fin (117 # 2))) = false.
Proof. intros s e. repeat split; vm_compute; reflexivity. Qed.


(** A duration of "1.5" minutes is accepted and gives 60 seconds, not 90;
    and so does a duration of "1e3" minutes, which is a whole number of
    minutes: 1000, or 60000 seconds. *)
Lemma start_truncates_fractional_minutes :
  let started d :=
    run (api_start no_fraction (sample_start (VString d)))
        (scripted 7000 ChatFailed) 0 empty_session in
  to_number no_fraction (VString (lit "1.5")) = Some (Fin (3 # 2)) /\
  outcome (started (lit "1.5")) = Some (respond 200 Success) /\
  duration_seconds (final (started (lit "1.5"))) = Num (of_Z 60) /\
  num_mul (Fin (3 # 2)) (of_Z 60) = of_Z 90 /\
  to_number no_fraction (VString (lit "1e3")) = Some (of_Z 1000) /\
  outcome (started (lit "1e3")) = Some (respond 200 Success) /\
  duration_seconds (final (started (lit "1e3"))) = Num (of_Z 60) /\
  num_mul (of_Z 1000) (of_Z 60) = of_Z 60000 /\
  strict_equal (VNumber (of_Z 60)) (VNumber (of_Z 90)) = false /\
  strict_equal (VNumber (of_Z 60)) (VNumber (of_Z 60000)) = false.
Proof. intros started. repeat split; vm_compute; reflexivity. Qed.


